(** * Sistema de reserva de vuelos: model of [sistema_reserva_vuelos.py]

    The domain layer of the program (classes [Pasajero], [Vuelo], [Reserva]
    and the coordinator [GestorReservas]) is embedded as functions over an
    explicit object store.  Python objects are shared and mutable, so the
    three entity classes live in three stores addressed by references; a
    method is a state transformer that may raise.

    Python strings are sequences of Unicode code points.  The interpreter's
    character tables ([str.strip], [str.upper], [str.title], the regular
    expression classes [\s] and [\d], [datetime.strptime]) are not part of
    the program: they are the fields of the class [PyRuntime], together
    with the few facts about them that the proofs rely on. *)

From stdpp Require Import base tactics option list numbers strings.
From Stdlib Require Import ZArith NArith Lia Ascii.

Local Open Scope N_scope.

(** ** Strings *)

Abbreviation char := N (only parsing).
Abbreviation str := (list N) (only parsing).

Fixpoint bytes_of (s : string) : list N :=
  match s with
  | EmptyString => []
  | String a s' => Ascii.N_of_ascii a :: bytes_of s'
  end.

(** Decoder for source literals (one-, two- and three-byte UTF-8). *)
Fixpoint utf8_decode (bs : list N) : str :=
  match bs with
  | [] => []
  | b :: r =>
      if b <? 128 then b :: utf8_decode r
      else if b <? 224 then
        match r with
        | c :: r' => ((b - 192) * 64 + (c - 128)) :: utf8_decode r'
        | [] => []
        end
      else
        match r with
        | c :: d :: r' =>
            ((b - 224) * 4096 + (c - 128) * 64 + (d - 128)) :: utf8_decode r'
        | _ => []
        end
  end.

Definition py (s : string) : str := utf8_decode (bytes_of s).

Definition str_eqb (a b : str) : bool := bool_decide (a = b).

(** ** The interpreter's tables *)

Definition es_AZ (c : char) : bool := (65 <=? c) && (c <=? 90).

Class PyRuntime := {
  (** [str.isspace] on one code point; also the class [\s] of [re] *)
  isspace : char -> bool;
  (** the class [\d] of [re] on [str] patterns *)
  isdecimal : char -> bool;
  (** [str.upper] and [str.title] *)
  upper : str -> str;
  title : str -> str;
  (** whether [datetime.strptime(s, '%Y-%m-%d')] returns *)
  strptime_Ymd : str -> bool;
  (** Facts of the Unicode database: a newline is whitespace; the letters
      A-Z and the decimal digits are not; [upper] leaves a string of such
      letters and digits as it is (digits have no case), and, mapping one
      character at a time and none to the empty string, it ends in a newline
      only a string that did. *)
  isspace_newline : isspace 10 = true;
  isspace_AZ : forall c, es_AZ c = true -> isspace c = false;
  isdecimal_not_space : forall c, isdecimal c = true -> isspace c = false;
  upper_fixed : forall s,
    forallb (fun c => es_AZ c || isdecimal c) s = true -> upper s = s;
  upper_newline : forall s, last (upper s) = Some 10 -> last s = Some 10
}.

Section Lenguaje.
Context {R : PyRuntime}.

(** *** [str.strip] *)

Fixpoint lstrip (s : str) : str :=
  match s with
  | [] => []
  | c :: s' => if isspace c then lstrip s' else s
  end.

Definition rstrip (s : str) : str := reverse (lstrip (reverse s)).

Definition strip (s : str) : str := rstrip (lstrip s).

(** *** [re.match] for the patterns of the program

    Every pattern of the program is [^ p1 p2 ... $] where each [pi] is a
    character class with a repetition range.  [re.match] returns a match
    object exactly when the subject can be split accordingly. *)

Inductive cset :=
| Rango (a b : char)      (* a-b *)
| Lit (c : char)
| ClaseS                  (* \s *)
| ClaseD.                 (* \d *)

Record pieza := Pieza { clase : list cset; rmin : nat; rmax : option nat }.

Definition en_cset (x : char) (k : cset) : bool :=
  match k with
  | Rango a b => (a <=? x) && (x <=? b)
  | Lit c => x =? c
  | ClaseS => isspace x
  | ClaseD => isdecimal x
  end.

Definition en_clase (ks : list cset) (x : char) : bool := existsb (en_cset x) ks.

(** [$] matches at the end of the subject and before a final newline. *)
Definition fin_dolar (s : str) : bool :=
  match s with
  | [] => true
  | [c] => c =? 10
  | _ => false
  end.

Definition cuentas (p : pieza) (len : nat) : list nat :=
  let hi := match rmax p with Some m => Nat.min m len | None => len end in
  seq (rmin p) (S hi - rmin p).

Fixpoint re_match (ps : list pieza) (s : str) : bool :=
  match ps with
  | [] => fin_dolar s
  | p :: ps' =>
      existsb (fun n => forallb (en_clase (clase p)) (take n s)
                        && re_match ps' (drop n s))
              (cuentas p (length s))
  end.

End Lenguaje.

(** ** Exceptions and results *)

Inductive exception :=
| ValueError (msg : string)
| ReservaException (msg : string).

Inductive result (A : Type) :=
| Ok (a : A)
| Raise (e : exception).
Arguments Ok {A} a.
Arguments Raise {A} e.

(** ** The classes *)

Abbreviation ref := nat (only parsing).

Inductive EstadoReserva := ACTIVA | CANCELADA | COMPLETADA.

Definition estado_eqb (a b : EstadoReserva) : bool :=
  match a, b with
  | ACTIVA, ACTIVA | CANCELADA, CANCELADA | COMPLETADA, COMPLETADA => true
  | _, _ => false
  end.

Record Pasajero := mkPasajero {
  nombre : str;
  apellido : str;
  documento : str
}.

Record Vuelo := mkVuelo {
  numero : str;
  origen : str;
  destino : str;
  fecha : str;
  capacidad_total : Z;
  reservas : list ref          (* references into the store of [Reserva] *)
}.

Record Reserva := mkReserva {
  vuelo : ref;
  pasajero : ref;
  estado : EstadoReserva;
  fecha_reserva : str
}.

(** The singleton.  Before the first [GestorReservas()] the three lists are
    empty and [_initialized] is false. *)
Record GestorReservas := mkGestor {
  _pasajeros : list ref;
  _vuelos : list ref;
  _reservas : list ref;
  _initialized : bool
}.

Record Mundo := mkMundo {
  pasajeros_obj : list Pasajero;
  vuelos_obj : list Vuelo;
  reservas_obj : list Reserva;
  gestor : GestorReservas
}.

Definition mundo_vacio : Mundo :=
  mkMundo [] [] [] (mkGestor [] [] [] false).

(** A method maps the world to an outcome and a new world; [None] is a
    reference to an object that does not exist, which no Python run has. *)
Definition M (A : Type) : Type := Mundo -> option (result A * Mundo).

Definition ret {A} (a : A) : M A := fun w => Some (Ok a, w).
Definition raise {A} (e : exception) : M A := fun w => Some (Raise e, w).
Definition bind {A B} (m : M A) (k : A -> M B) : M B :=
  fun w =>
    match m w with
    | None => None
    | Some (Raise e, w') => Some (Raise e, w')
    | Some (Ok a, w') => k a w'
    end.
Definition leer {A} (f : Mundo -> option A) : M A :=
  fun w => match f w with Some a => Some (Ok a, w) | None => None end.
Definition modificar (f : Mundo -> Mundo) : M unit := fun w => Some (Ok tt, f w).

Declare Scope m_scope.
Delimit Scope m_scope with M.
Notation "x <- m ;; k" := (bind m (fun x => k))
  (at level 100, m at next level, right associativity) : m_scope.
Notation "m ;; k" := (bind m (fun _ => k))
  (at level 100, right associativity) : m_scope.

Definition set_pasajeros_obj (l : list Pasajero) (w : Mundo) : Mundo :=
  mkMundo l (vuelos_obj w) (reservas_obj w) (gestor w).
Definition set_vuelos_obj (l : list Vuelo) (w : Mundo) : Mundo :=
  mkMundo (pasajeros_obj w) l (reservas_obj w) (gestor w).
Definition set_reservas_obj (l : list Reserva) (w : Mundo) : Mundo :=
  mkMundo (pasajeros_obj w) (vuelos_obj w) l (gestor w).
Definition set_gestor (g : GestorReservas) (w : Mundo) : Mundo :=
  mkMundo (pasajeros_obj w) (vuelos_obj w) (reservas_obj w) g.

Section Programa.
Context {R : PyRuntime}.
Local Open Scope m_scope.

(** *** class Pasajero *)

Definition patron_nombre : list pieza :=
  (* ^[a-zA-ZáéíóúÁÉÍÓÚñÑ\s]+$ *)
  [Pieza (Rango 97 122 :: Rango 65 90
            :: map Lit (py "áéíóúÁÉÍÓÚñÑ") ++ [ClaseS]) 1 None].

Definition patron_documento : list pieza :=
  (* ^\d{5,12}$ *)
  [Pieza [ClaseD] 5 (Some 12%nat)].

Definition vacia (s : str) : bool := match s with [] => true | _ => false end.

Definition _validar_nombre (nombre : str) : result str :=
  if vacia nombre || vacia (strip nombre) then
    Raise (ValueError "El nombre no puede estar vacío")
  else if (length (strip nombre) <? 2)%nat then
    Raise (ValueError "El nombre debe tener al menos 2 caracteres")
  else if negb (re_match patron_nombre (strip nombre)) then
    Raise (ValueError "El nombre solo puede contener letras y espacios")
  else Ok (title (strip nombre)).

Definition _validar_documento (documento : str) : result str :=
  if vacia documento || vacia (strip documento) then
    Raise (ValueError "El documento no puede estar vacío")
  else
    let documento := strip documento in
    if negb (re_match patron_documento documento) then
      Raise (ValueError "El documento debe tener entre 5 y 12 dígitos")
    else Ok documento.

(** [Pasajero.__init__] *)
Definition Pasajero_init (nombre apellido documento : str) : result Pasajero :=
  match _validar_nombre nombre with
  | Raise e => Raise e
  | Ok n =>
      match _validar_nombre apellido with
      | Raise e => Raise e
      | Ok a =>
          match _validar_documento documento with
          | Raise e => Raise e
          | Ok d => Ok (mkPasajero n a d)
          end
      end
  end.

(** A Python object other than a passenger or a flight is irrelevant to
    [__eq__] beyond its class. *)
Inductive objeto :=
| OPasajero (p : Pasajero)
| OVuelo (v : Vuelo)
| OReserva (r : Reserva)
| OStr (s : str)
| ONone.

(** [Pasajero.__eq__] *)
Definition Pasajero_eq (self : Pasajero) (other : objeto) : bool :=
  match other with
  | OPasajero o => str_eqb (documento self) (documento o)
  | _ => false
  end.

Definition nombre_completo (p : Pasajero) : str :=
  nombre p ++ py " " ++ apellido p.

(** *** class Vuelo *)

Definition patron_numero : list pieza :=
  (* ^[A-Z]{1,3}\d{3,4}$ *)
  [Pieza [Rango 65 90] 1 (Some 3%nat); Pieza [ClaseD] 3 (Some 4%nat)].

Definition _validar_numero_vuelo (numero : str) : result str :=
  if vacia numero || vacia (strip numero) then
    Raise (ValueError "El número de vuelo no puede estar vacío")
  else
    let numero := upper (strip numero) in
    if negb (re_match patron_numero numero) then
      Raise (ValueError "Formato de número de vuelo inválido (ej: V001, AA1234)")
    else Ok numero.

Definition _validar_ciudad (ciudad : str) : result str :=
  if vacia ciudad || vacia (strip ciudad) then
    Raise (ValueError "La ciudad no puede estar vacía")
  else if (length (strip ciudad) <? 2)%nat then
    Raise (ValueError "El nombre de la ciudad debe tener al menos 2 caracteres")
  else Ok (title (strip ciudad)).

Definition _validar_fecha (fecha : str) : result str :=
  if strptime_Ymd fecha then Ok fecha
  else Raise (ValueError "Formato de fecha inválido. Use YYYY-MM-DD").

Definition _validar_capacidad (capacidad : Z) : result Z :=
  if (capacidad <=? 0)%Z then
    Raise (ValueError "La capacidad debe ser un número entero positivo")
  else if (capacidad >? 1000)%Z then
    Raise (ValueError "La capacidad no puede exceder 1000 pasajeros")
  else Ok capacidad.

(** [Vuelo.__init__] *)
Definition Vuelo_init (numero origen destino fecha : str) (capacidad : Z)
  : result Vuelo :=
  match _validar_numero_vuelo numero with
  | Raise e => Raise e
  | Ok n =>
  match _validar_ciudad origen with
  | Raise e => Raise e
  | Ok o =>
  match _validar_ciudad destino with
  | Raise e => Raise e
  | Ok d =>
  match _validar_fecha fecha with
  | Raise e => Raise e
  | Ok f =>
  match _validar_capacidad capacidad with
  | Raise e => Raise e
  | Ok c => Ok (mkVuelo n o d f c [])
  end end end end end.

(** [Vuelo.__eq__] *)
Definition Vuelo_eq (self : Vuelo) (other : objeto) : bool :=
  match other with
  | OVuelo o => str_eqb (numero self) (numero o)
  | _ => false
  end.

End Programa.

Section Metodos.
Context {R : PyRuntime}.
Local Open Scope m_scope.

Definition nuevo_pasajero_obj (p : Pasajero) : M ref :=
  fun w => Some (Ok (length (pasajeros_obj w)),
                 set_pasajeros_obj (pasajeros_obj w ++ [p]) w).

Definition nuevo_vuelo_obj (v : Vuelo) : M ref :=
  fun w => Some (Ok (length (vuelos_obj w)),
                 set_vuelos_obj (vuelos_obj w ++ [v]) w).

Definition nueva_reserva_obj (r : Reserva) : M ref :=
  fun w => Some (Ok (length (reservas_obj w)),
                 set_reservas_obj (reservas_obj w ++ [r]) w).

(** [Pasajero(nombre, apellido, documento)] *)
Definition Pasajero_new (nombre apellido documento : str) : M ref :=
  match Pasajero_init nombre apellido documento with
  | Raise e => raise e
  | Ok p => nuevo_pasajero_obj p
  end.

(** The three property setters of [Pasajero]. *)
Definition Pasajero_set_nombre (self : ref) (valor : str) : M unit :=
  p <- leer (fun w => pasajeros_obj w !! self);;
  match _validar_nombre valor with
  | Raise e => raise e
  | Ok n => modificar (fun w => set_pasajeros_obj
              (<[self := mkPasajero n (apellido p) (documento p)]> (pasajeros_obj w)) w)
  end.

Definition Pasajero_set_apellido (self : ref) (valor : str) : M unit :=
  p <- leer (fun w => pasajeros_obj w !! self);;
  match _validar_nombre valor with
  | Raise e => raise e
  | Ok a => modificar (fun w => set_pasajeros_obj
              (<[self := mkPasajero (nombre p) a (documento p)]> (pasajeros_obj w)) w)
  end.

Definition Pasajero_set_documento (self : ref) (valor : str) : M unit :=
  p <- leer (fun w => pasajeros_obj w !! self);;
  match _validar_documento valor with
  | Raise e => raise e
  | Ok d => modificar (fun w => set_pasajeros_obj
              (<[self := mkPasajero (nombre p) (apellido p) d]> (pasajeros_obj w)) w)
  end.

(** [Vuelo(numero, origen, destino, fecha, capacidad)] *)
Definition Vuelo_new (numero origen destino fecha : str) (capacidad : Z) : M ref :=
  match Vuelo_init numero origen destino fecha capacidad with
  | Raise e => raise e
  | Ok v => nuevo_vuelo_obj v
  end.

(** [Reserva(vuelo, pasajero)]; [ahora] is the reading of the clock,
    already formatted. *)
Definition Reserva_new (vuelo pasajero : ref) (ahora : str) : M ref :=
  _ <- leer (fun w => vuelos_obj w !! vuelo);;
  _ <- leer (fun w => pasajeros_obj w !! pasajero);;
  nueva_reserva_obj (mkReserva vuelo pasajero ACTIVA ahora).

(** [Reserva.cancelar] and [Reserva.completar] on the object itself *)
Definition Reserva_cancelar (self : Reserva) : result Reserva :=
  if negb (estado_eqb (estado self) ACTIVA) then
    Raise (ReservaException "Solo se pueden cancelar reservas activas")
  else Ok (mkReserva (vuelo self) (pasajero self) CANCELADA (fecha_reserva self)).

Definition Reserva_completar (self : Reserva) : result Reserva :=
  if negb (estado_eqb (estado self) ACTIVA) then
    Raise (ReservaException "Solo se pueden completar reservas activas")
  else Ok (mkReserva (vuelo self) (pasajero self) COMPLETADA (fecha_reserva self)).

Definition en_reserva (f : Reserva -> result Reserva) (self : ref) : M unit :=
  x <- leer (fun w => reservas_obj w !! self);;
  match f x with
  | Raise e => raise e
  | Ok x' => modificar (fun w => set_reservas_obj (<[self := x']> (reservas_obj w)) w)
  end.

Definition cancelar : ref -> M unit := en_reserva Reserva_cancelar.
Definition completar : ref -> M unit := en_reserva Reserva_completar.

(** [[r for r in self._reservas if r.estado == EstadoReserva.ACTIVA]] *)
Fixpoint reservas_activas (h : list Reserva) (l : list ref) : option (list ref) :=
  match l with
  | [] => Some []
  | r :: l' =>
      x ← h !! r;
      a ← reservas_activas h l';
      Some (if estado_eqb (estado x) ACTIVA then r :: a else a)
  end.

(** [Vuelo.capacidad_disponible] *)
Definition capacidad_disponible (self : ref) (w : Mundo) : option Z :=
  v ← vuelos_obj w !! self;
  a ← reservas_activas (reservas_obj w) (reservas v);
  Some (capacidad_total v - Z.of_nat (length a))%Z.

(** The loop of [Vuelo.agregar_reserva]: is there [r] in the list with
    [r.pasajero == reserva.pasajero and r.estado == ACTIVA]? *)
Fixpoint ya_reservado (w : Mundo) (l : list ref) (p : Pasajero) : option bool :=
  match l with
  | [] => Some false
  | r :: l' =>
      x ← reservas_obj w !! r;
      q ← pasajeros_obj w !! pasajero x;
      if Pasajero_eq q (OPasajero p) && estado_eqb (estado x) ACTIVA
      then Some true
      else ya_reservado w l' p
  end.

Definition con_reservas (v : Vuelo) (l : list ref) : Vuelo :=
  mkVuelo (numero v) (origen v) (destino v) (fecha v) (capacidad_total v) l.

(** [Vuelo.agregar_reserva] *)
Definition agregar_reserva (self reserva : ref) : M unit :=
  c <- leer (capacidad_disponible self);;
  if (c <=? 0)%Z then
    raise (ReservaException "No hay capacidad disponible en este vuelo")
  else
    v <- leer (fun w => vuelos_obj w !! self);;
    x <- leer (fun w => reservas_obj w !! reserva);;
    p <- leer (fun w => pasajeros_obj w !! pasajero x);;
    dup <- leer (fun w => ya_reservado w (reservas v) p);;
    if dup then
      raise (ReservaException "Este pasajero ya tiene una reserva activa en este vuelo")
    else
      modificar (fun w => set_vuelos_obj
        (<[self := con_reservas v (reservas v ++ [reserva])]> (vuelos_obj w)) w).

(** *** class GestorReservas *)

(** [for x in l: if clave(x) == k: return x] and [return None] after it. *)
Fixpoint buscar_primero {A} (h : list A) (clave : A -> str) (l : list ref) (k : str)
  : option (option ref) :=
  match l with
  | [] => Some None
  | r :: l' =>
      x ← h !! r;
      if str_eqb (clave x) k then Some (Some r) else buscar_primero h clave l' k
  end.

Definition buscar_pasajero_por_documento (documento_ : str) (w : Mundo)
  : option (option ref) :=
  buscar_primero (pasajeros_obj w) documento (_pasajeros (gestor w)) documento_.

Definition buscar_vuelo_por_numero (numero_ : str) (w : Mundo) : option (option ref) :=
  buscar_primero (vuelos_obj w) numero (_vuelos (gestor w)) numero_.

Definition registrar_pasajero (r : ref) (w : Mundo) : Mundo :=
  let g := gestor w in
  set_gestor (mkGestor (_pasajeros g ++ [r]) (_vuelos g) (_reservas g) (_initialized g)) w.

Definition registrar_vuelo (r : ref) (w : Mundo) : Mundo :=
  let g := gestor w in
  set_gestor (mkGestor (_pasajeros g) (_vuelos g ++ [r]) (_reservas g) (_initialized g)) w.

Definition registrar_reserva (r : ref) (w : Mundo) : Mundo :=
  let g := gestor w in
  set_gestor (mkGestor (_pasajeros g) (_vuelos g) (_reservas g ++ [r]) (_initialized g)) w.

(** [GestorReservas.agregar_pasajero] *)
Definition agregar_pasajero (nombre apellido documento : str) : M ref :=
  ya <- leer (buscar_pasajero_por_documento documento);;
  match ya with
  | Some _ => raise (ReservaException "Ya existe un pasajero con ese documento")
  | None =>
      nuevo_pasajero <- Pasajero_new nombre apellido documento;;
      modificar (registrar_pasajero nuevo_pasajero);;
      ret nuevo_pasajero
  end.

(** [GestorReservas.crear_reserva] *)
Definition crear_reserva (numero_vuelo documento_pasajero ahora : str) : M ref :=
  pasajero <- leer (buscar_pasajero_por_documento documento_pasajero);;
  match pasajero with
  | None => raise (ReservaException "Pasajero no encontrado")
  | Some pasajero =>
      vuelo <- leer (buscar_vuelo_por_numero numero_vuelo);;
      match vuelo with
      | None => raise (ReservaException "Vuelo no encontrado")
      | Some vuelo =>
          reserva <- Reserva_new vuelo pasajero ahora;;
          agregar_reserva vuelo reserva;;
          modificar (registrar_reserva reserva);;
          ret reserva
      end
  end.

(** [try: ... except ValueError: print(...)] around one construction *)
Definition salvo_ValueError (m : M unit) : M unit :=
  fun w =>
    match m w with
    | Some (Raise (ValueError _), w') => Some (Ok tt, w')
    | o => o
    end.

Fixpoint para_cada {A} (f : A -> M unit) (l : list A) : M unit :=
  match l with
  | [] => ret tt
  | x :: l' => f x;; para_cada f l'
  end.

Definition pasajeros_data : list (str * str * str) :=
  [ (py "Juan", py "Perez", py "12345678");
    (py "Maria", py "Gomez", py "87654321");
    (py "Carlos", py "Lopez", py "11223344");
    (py "Ana", py "Martinez", py "44332211");
    (py "Pedro", py "Rodriguez", py "55667788");
    (py "Laura", py "Gonzalez", py "88776655");
    (py "Diego", py "Santos", py "99887766");
    (py "Isabel", py "Fernandez", py "66778899");
    (py "Andres", py "Rios", py "77889900");
    (py "Sofia", py "Diaz", py "00998877") ].

Definition vuelos_data : list (str * str * str * str * Z) :=
  [ (py "V001", py "Buenos Aires", py "Madrid", py "2024-03-15", 150%Z);
    (py "V002", py "Madrid", py "Paris", py "2024-03-16", 120%Z);
    (py "V003", py "Paris", py "Londres", py "2024-03-17", 100%Z);
    (py "AA1234", py "Buenos Aires", py "New York", py "2024-03-18", 200%Z);
    (py "IB5678", py "Madrid", py "Barcelona", py "2024-03-19", 80%Z) ].

(** [GestorReservas._inicializar_datos] *)
Definition _inicializar_datos : M unit :=
  para_cada (fun '(nombre, apellido, documento) =>
      salvo_ValueError (
        pasajero <- Pasajero_new nombre apellido documento;;
        modificar (registrar_pasajero pasajero)))
    pasajeros_data;;
  para_cada (fun '(numero, origen, destino, fecha, capacidad) =>
      salvo_ValueError (
        vuelo <- Vuelo_new numero origen destino fecha capacidad;;
        modificar (registrar_vuelo vuelo)))
    vuelos_data.

(** [GestorReservas()]: [__new__] keeps one instance, [__init__] fills it
    the first time only. *)
Definition GestorReservas_new : M unit :=
  fun w =>
    if _initialized (gestor w) then Some (Ok tt, w)
    else
      (modificar (set_gestor (mkGestor [] [] [] false));;
       _inicializar_datos;;
       modificar (fun w => set_gestor
         (mkGestor (_pasajeros (gestor w)) (_vuelos (gestor w))
                   (_reservas (gestor w)) true) w)) w.

End Metodos.

(** ** The tables of CPython on Latin-1

    A concrete [PyRuntime], used to run the program on examples.  The
    whitespace table is the complete one; decimal digits and the case
    mappings are those of the code points below 256 and leave the others
    alone; dates are read in ASCII digits. *)

Module Latin1.

Definition en_rangos (rs : list (N * N)) (c : char) : bool :=
  existsb (fun '(a, b) => (a <=? c) && (c <=? b)) rs.

Definition isspace (c : char) : bool :=
  en_rangos [(9, 13); (28, 32); (133, 133); (160, 160); (5760, 5760);
             (8192, 8202); (8232, 8233); (8239, 8239); (8287, 8287);
             (12288, 12288)] c.

Definition isdecimal (c : char) : bool := en_rangos [(48, 57)] c.

Definition islower_l1 (c : char) : bool :=
  en_rangos [(97, 122); (224, 246); (248, 254)] c.

Definition isupper_l1 (c : char) : bool :=
  en_rangos [(65, 90); (192, 214); (216, 222)] c.

Definition iscased (c : char) : bool :=
  en_rangos [(65, 90); (97, 122); (170, 170); (181, 181); (186, 186);
             (192, 214); (216, 246); (248, 255)] c.

Definition toupper (c : char) : str :=
  if islower_l1 c then [c - 32]
  else if c =? 181 then [924]
  else if c =? 223 then [83; 83]
  else if c =? 255 then [376]
  else [c].

Definition totitle (c : char) : str :=
  if c =? 223 then [83; 115] else toupper c.

Definition tolower (c : char) : str :=
  if isupper_l1 c then [c + 32] else [c].

Definition upper (s : str) : str := flat_map toupper s.

Fixpoint title_desde (previous_is_cased : bool) (s : str) : str :=
  match s with
  | [] => []
  | c :: s' =>
      (if previous_is_cased then tolower c else totitle c)
        ++ title_desde (iscased c) s'
  end.

Definition title (s : str) : str := title_desde false s.

Definition digito (c : char) : option N :=
  if isdecimal c then Some (c - 48) else None.

Definition bisiesto (y : N) : bool :=
  ((y mod 4 =? 0) && negb (y mod 100 =? 0)) || (y mod 400 =? 0).

Definition dias_del_mes (y m : N) : N :=
  if m =? 2 then (if bisiesto y then 29 else 28)
  else if (m =? 4) || (m =? 6) || (m =? 9) || (m =? 11) then 30
  else 31.

(** One or two digits, as the alternations for [%m] and [%d] read them;
    [%d] alone also reads a space and a digit. *)
Definition campo (con_espacio : bool) (s : str) : option N :=
  match s with
  | [a] => d ← digito a; if d =? 0 then None else Some d
  | [a; b] =>
      if con_espacio && (a =? 32) then
        (d ← digito b; if d =? 0 then None else Some d)
      else (x ← digito a; y ← digito b;
            if (x =? 0) && (y =? 0) then None else Some (10 * x + y))
  | _ => None
  end.

Fixpoint hasta_guion (s : str) : str * option str :=
  match s with
  | [] => ([], None)
  | c :: s' =>
      if c =? 45 then ([], Some s')
      else let '(a, r) := hasta_guion s' in (c :: a, r)
  end.

Definition strptime_Ymd (s : str) : bool :=
  match hasta_guion s with
  | ([y1; y2; y3; y4], Some r) =>
      match digito y1, digito y2, digito y3, digito y4, hasta_guion r with
      | Some a, Some b, Some c, Some d, (ms, Some ds) =>
          let y := 1000 * a + 100 * b + 10 * c + d in
          match campo false ms, campo true ds with
          | Some m, Some dd =>
              (1 <=? y) && (m <=? 12) && (dd <=? dias_del_mes y m)
          | _, _ => false
          end
      | _, _, _, _, _ => false
      end
  | _ => false
  end.

End Latin1.

(** The Latin-1 tables form a runtime. *)

Ltac rangos :=
  repeat match goal with
    | H : (_ && _)%bool = true |- _ => apply andb_true_iff in H; destruct H
    | H : (_ || _)%bool = true |- _ => apply orb_true_iff in H; destruct H
    | H : (_ <=? _) = true |- _ => apply N.leb_le in H
    | H : (_ =? _) = true |- _ => apply N.eqb_eq in H
    | H : false = true |- _ => discriminate H
    end.

Lemma en_rangos_false rs c :
  Forall (fun '(a, b) => c < a \/ b < c) rs -> Latin1.en_rangos rs c = false.
Proof.
  induction 1 as [|[a b] rs H _ IH]; simpl; [reflexivity|].
  rewrite IH, orb_false_r.
  destruct H as [H|H].
  - apply N.leb_gt in H. now rewrite H.
  - apply N.leb_gt in H. rewrite H. apply andb_false_r.
Qed.

Lemma latin1_isspace_AZ c : es_AZ c = true -> Latin1.isspace c = false.
Proof.
  unfold es_AZ. intros H. rangos.
  apply en_rangos_false. repeat constructor; lia.
Qed.

Lemma latin1_isdecimal_not_space c :
  Latin1.isdecimal c = true -> Latin1.isspace c = false.
Proof.
  unfold Latin1.isdecimal, Latin1.en_rangos. simpl. intros H. rangos.
  apply en_rangos_false. repeat constructor; lia.
Qed.

Lemma latin1_toupper_fixed c :
  es_AZ c || Latin1.isdecimal c = true -> Latin1.toupper c = [c].
Proof.
  unfold es_AZ, Latin1.isdecimal, Latin1.en_rangos. simpl. intros H.
  assert (Hc : c <= 90) by (rangos; lia).
  unfold Latin1.toupper, Latin1.islower_l1.
  rewrite en_rangos_false by (repeat constructor; lia).
  replace (c =? 181) with false by (symmetry; apply N.eqb_neq; lia).
  replace (c =? 223) with false by (symmetry; apply N.eqb_neq; lia).
  replace (c =? 255) with false by (symmetry; apply N.eqb_neq; lia).
  reflexivity.
Qed.

Lemma latin1_upper_fixed s :
  forallb (fun c => es_AZ c || Latin1.isdecimal c) s = true -> Latin1.upper s = s.
Proof.
  induction s as [|c s IH]; simpl; [reflexivity|].
  intros H. apply andb_true_iff in H. destruct H as [Hc Hs].
  unfold Latin1.upper in *. simpl.
  rewrite (latin1_toupper_fixed c Hc), IH by exact Hs. reflexivity.
Qed.

Lemma latin1_upper_newline s :
  last (Latin1.upper s) = Some 10 -> last s = Some 10.
Proof.
  unfold Latin1.upper.
  induction s as [|c s _] using rev_ind; [discriminate|].
  rewrite flat_map_app. simpl. rewrite app_nil_r, last_snoc.
  unfold Latin1.toupper.
  destruct (Latin1.islower_l1 c) eqn:E.
  - rewrite last_snoc. intros [= H]. exfalso.
    unfold Latin1.islower_l1, Latin1.en_rangos in E. simpl in E. rangos; lia.
  - destruct (c =? 181); [rewrite last_snoc; discriminate|].
    destruct (c =? 223).
    { change [83; 83] with ([83] ++ [83]). rewrite app_assoc, last_snoc. discriminate. }
    destruct (c =? 255); [rewrite last_snoc; discriminate|].
    rewrite last_snoc. auto.
Qed.

Definition latin1 : PyRuntime := {|
  isspace := Latin1.isspace;
  isdecimal := Latin1.isdecimal;
  upper := Latin1.upper;
  title := Latin1.title;
  strptime_Ymd := Latin1.strptime_Ymd;
  isspace_newline := eq_refl;
  isspace_AZ := latin1_isspace_AZ;
  isdecimal_not_space := latin1_isdecimal_not_space;
  upper_fixed := latin1_upper_fixed;
  upper_newline := latin1_upper_newline
|}.

(** ** Runs of the program

    A caller (the window, a test) performs public calls one after another
    and catches what they raise; the world it leaves is the world at the
    point of the exception. *)

Inductive llamada :=
| LPasajero (nombre apellido documento : str)
| LSetNombre (p : ref) (valor : str)
| LSetApellido (p : ref) (valor : str)
| LSetDocumento (p : ref) (valor : str)
| LVuelo (numero origen destino fecha : str) (capacidad : Z)
| LReserva (vuelo pasajero : ref) (ahora : str)
| LAgregarReserva (vuelo reserva : ref)
| LCancelar (reserva : ref)
| LCompletar (reserva : ref)
| LGestor
| LAgregarPasajero (nombre apellido documento : str)
| LCrearReserva (numero_vuelo documento_pasajero ahora : str).

(** The calls that assign to [Pasajero.documento] after construction. *)
Definition cambia_documento (c : llamada) : bool :=
  match c with
  | LSetDocumento _ _ => true
  | _ => false
  end.

Definition efecto {A} (m : M A) (w : Mundo) : option Mundo :=
  match m w with Some (_, w') => Some w' | None => None end.

Section Ejecucion.
Context {R : PyRuntime}.

Definition ejecutar (c : llamada) : Mundo -> option Mundo :=
  match c with
  | LPasajero n a d => efecto (Pasajero_new n a d)
  | LSetNombre p v => efecto (Pasajero_set_nombre p v)
  | LSetApellido p v => efecto (Pasajero_set_apellido p v)
  | LSetDocumento p v => efecto (Pasajero_set_documento p v)
  | LVuelo n o d f c => efecto (Vuelo_new n o d f c)
  | LReserva v p t => efecto (Reserva_new v p t)
  | LAgregarReserva v r => efecto (agregar_reserva v r)
  | LCancelar r => efecto (cancelar r)
  | LCompletar r => efecto (completar r)
  | LGestor => efecto GestorReservas_new
  | LAgregarPasajero n a d => efecto (agregar_pasajero n a d)
  | LCrearReserva n d t => efecto (crear_reserva n d t)
  end.

Inductive alcanzable : Mundo -> Prop :=
| alc_inicio : alcanzable mundo_vacio
| alc_paso w c w' : alcanzable w -> ejecutar c w = Some w' -> alcanzable w'.

(** The world after a list of calls. *)
Fixpoint correr (cs : list llamada) (w : Mundo) : option Mundo :=
  match cs with
  | [] => Some w
  | c :: cs' => match ejecutar c w with Some w' => correr cs' w' | None => None end
  end.

(** *** What the specification calls a valid passenger *)

(** The characters of [^[a-zA-ZáéíóúÁÉÍÓÚñÑ\s]+$], written out. *)
Definition letra_admitida (c : char) : bool :=
  ((97 <=? c) && (c <=? 122)) || ((65 <=? c) && (c <=? 90))
  || existsb (N.eqb c) [225; 233; 237; 243; 250; 193; 201; 205; 211; 218; 241; 209].

Definition nombre_valido (n : str) : bool :=
  (2 <=? length (strip n))%nat
  && forallb (fun c => letra_admitida c || isspace c) (strip n).

Definition documento_valido (d : str) : bool :=
  (5 <=? length (strip d))%nat && (length (strip d) <=? 12)%nat
  && forallb isdecimal (strip d).

(** The specification's wording: any letter, "including accented Latin
    letters".  Of these, the ASCII letters and the Latin-1 letters that
    carry an accent, a tilde, a diaeresis, a ring or a cedilla are enough
    here. *)
Definition letra_acentuada (c : char) : bool :=
  Latin1.en_rangos [(192, 197); (199, 207); (209, 214); (217, 221);
                    (224, 229); (231, 239); (241, 246); (249, 253);
                    (255, 255)] c.

Definition letra_spec (c : char) : bool :=
  ((97 <=? c) && (c <=? 122)) || ((65 <=? c) && (c <=? 90)) || letra_acentuada c.

Definition nombre_valido_spec (n : str) : bool :=
  (2 <=? length (strip n))%nat
  && forallb (fun c => letra_spec c || isspace c) (strip n).

End Ejecucion.

(** ** Invariants of the store *)

Local Close Scope N_scope.

Definition es_activa (h : list Reserva) (r : ref) : bool :=
  match h !! r with
  | Some x => estado_eqb (estado x) ACTIVA
  | None => false
  end.

(** The active entries of a flight's list, in order. *)
Definition activas (h : list Reserva) (l : list ref) : list ref :=
  filter (fun r => es_activa h r = true) l.

Definition pasajero_de (h : list Reserva) (r : ref) : option ref :=
  pasajero <$> h !! r.

(** Every reference held by an object or by the registry points into the
    store. *)
Record bien_formado (w : Mundo) : Prop := {
  bf_vuelos :
    Forall (fun v => Forall (fun r => r < length (reservas_obj w)) (reservas v))
           (vuelos_obj w);
  bf_reservas :
    Forall (fun x => vuelo x < length (vuelos_obj w)
                     /\ pasajero x < length (pasajeros_obj w))
           (reservas_obj w);
  bf_gestor_pasajeros :
    Forall (fun r => r < length (pasajeros_obj w)) (_pasajeros (gestor w));
  bf_gestor_vuelos :
    Forall (fun r => r < length (vuelos_obj w)) (_vuelos (gestor w));
  bf_gestor_reservas :
    Forall (fun r => r < length (reservas_obj w)) (_reservas (gestor w))
}.

(** [r] holds an object whose key is not [k]. *)
Definition sin_clave {A} (h : list A) (clave : A -> str) (k : str) (r : ref) : Prop :=
  exists x, h !! r = Some x /\ clave x <> k.

(** [r] is an active reservation of a passenger equal to [p]: what the loop
    of [Vuelo.agregar_reserva] looks for. *)
Definition misma_persona (w : Mundo) (p : Pasajero) (r : ref) : Prop :=
  exists x q, reservas_obj w !! r = Some x /\ estado x = ACTIVA
    /\ pasajeros_obj w !! pasajero x = Some q /\ documento q = documento p.

(** No two registered passengers share a document. *)
Definition documento_unico (w : Mundo) : Prop :=
  forall r1 r2 p1 p2,
    r1 ∈ _pasajeros (gestor w) -> r2 ∈ _pasajeros (gestor w) ->
    pasajeros_obj w !! r1 = Some p1 -> pasajeros_obj w !! r2 = Some p2 ->
    documento p1 = documento p2 -> r1 = r2.

(** The document of the passenger reservation [r] names: what
    [Pasajero.__eq__] compares. *)
Definition documento_de (w : Mundo) (r : ref) : option str :=
  x ← reservas_obj w !! r; documento <$> pasajeros_obj w !! pasajero x.

(** In no flight's list do two active entries carry the same document. *)
Definition un_activo_por_documento (w : Mundo) : Prop :=
  Forall (fun v => NoDup (documento_de w
                            <$> activas (reservas_obj w) (reservas v)))
         (vuelos_obj w).

(** The two messages of [Vuelo.agregar_reserva]. *)
Definition sin_capacidad : exception :=
  ReservaException "No hay capacidad disponible en este vuelo".
Definition ya_tiene_reserva : exception :=
  ReservaException "Este pasajero ya tiene una reserva activa en este vuelo".

(** How the store of reservations may differ between two moments: an
    object stays where it is, keeps its flight, passenger and date, and its
    state either is the same or was [ACTIVA]. *)
Definition historia (h h' : list Reserva) : Prop :=
  forall r x, h !! r = Some x ->
    exists x', h' !! r = Some x'
      /\ vuelo x' = vuelo x /\ pasajero x' = pasajero x
      /\ fecha_reserva x' = fecha_reserva x
      /\ (estado x' = estado x \/ estado x = ACTIVA).



Section Invariante.
Context {R : PyRuntime}.

Record vuelo_ok (h : list Reserva) (v : Vuelo) : Prop := {
  vo_capacidad :
    (Z.of_nat (length (activas h (reservas v))) <= capacidad_total v)%Z;
  vo_unica : NoDup (pasajero_de h <$> activas h (reservas v));
  vo_numero : _validar_numero_vuelo (numero v) = Ok (numero v)
}.

Definition pasajero_ok (p : Pasajero) : Prop :=
  _validar_documento (documento p) = Ok (documento p).

Record invariante (w : Mundo) : Prop := {
  inv_bf : bien_formado w;
  inv_vuelos : Forall (vuelo_ok (reservas_obj w)) (vuelos_obj w);
  inv_pasajeros : Forall pasajero_ok (pasajeros_obj w)
}.

End Invariante.

(** ** The program on the Latin-1 tables *)

Section Mundos.
Local Existing Instance latin1.

Definition ahora : list N := py "2024-03-01 10:00:00".

(** The registry as [GestorReservas()] first leaves it. *)
Definition mundo_inicial : Mundo :=
  match GestorReservas_new mundo_vacio with
  | Some (_, w) => w
  | None => mundo_vacio
  end.

(** ... and after Juan Perez has booked flight V001. *)
Definition mundo_reservado : Mundo :=
  match crear_reserva (py "V001") (py "12345678") ahora mundo_inicial with
  | Some (_, w) => w
  | None => mundo_inicial
  end.

(** A reservation made for flight V002, not yet in any list. *)
Definition mundo_ajeno : Mundo :=
  match Reserva_new 1 0 ahora mundo_inicial with
  | Some (_, w) => w
  | None => mundo_inicial
  end.

Definition doc_n (n : nat) : list N :=
  py "900000" ++ [(48 + N.of_nat (n / 10))%N; (48 + N.of_nat (n mod 10))%N].

(** Seventy new passengers, then all eighty book flight IB5678, which has
    eighty seats. *)
Definition llenar : list llamada :=
  LGestor
  :: map (fun n => LAgregarPasajero (py "Ana") (py "Lopez") (doc_n n)) (seq 0 70)
  ++ map (fun '(_, _, d) => LCrearReserva (py "IB5678") d ahora) pasajeros_data
  ++ map (fun n => LCrearReserva (py "IB5678") (doc_n n) ahora) (seq 0 70).

Definition mundo_lleno : Mundo :=
  match correr llenar mundo_vacio with
  | Some w => w
  | None => mundo_vacio
  end.

(** Juan Perez and Maria Gomez book flight V001; then Maria's document is
    set to Juan's. *)
Definition igualar : list llamada :=
  [LGestor;
   LCrearReserva (py "V001") (py "12345678") ahora;
   LCrearReserva (py "V001") (py "87654321") ahora;
   LSetDocumento 1 (py "12345678")].

Definition mundo_igualado : Mundo :=
  match correr igualar mundo_vacio with
  | Some w => w
  | None => mundo_vacio
  end.

(** Juan Perez books flight V001; a second [Reserva] is made for the same
    flight and passenger and put in the list of flight V002. *)
Definition cruzar : list llamada :=
  [LGestor;
   LCrearReserva (py "V001") (py "12345678") ahora;
   LReserva 0 0 ahora;
   LAgregarReserva 1 1].

Definition mundo_cruzado : Mundo :=
  match correr cruzar mundo_vacio with
  | Some w => w
  | None => mundo_vacio
  end.

(** A [Reserva] of Juan Perez for flight V001 that is in no list. *)
Definition mundo_suelto : Mundo :=
  match Reserva_new 0 0 ahora mundo_inicial with
  | Some (_, w) => w
  | None => mundo_inicial
  end.

End Mundos.

(** ** Further notions

    What makes the arguments of [Vuelo] valid, written without the pattern:
    the number, trimmed and in upper case, is one to three letters A-Z and
    then three or four decimal digits; a city has two characters or more
    once trimmed; the date parses; the capacity is between 1 and 1000. *)

Section Validez.
Context {R : PyRuntime}.

Definition forma_numero (k : str) : bool :=
  existsb (fun i => forallb es_AZ (take i k) && forallb isdecimal (drop i k)
                    && (3 <=? length (drop i k)) && (length (drop i k) <=? 4))
          [1; 2; 3].

Definition numero_valido (n : str) : bool := forma_numero (upper (strip n)).

Definition ciudad_valida (c : str) : bool := 2 <=? length (strip c).

Definition capacidad_valida (c : Z) : bool := ((1 <=? c) && (c <=? 1000))%Z.

Definition vuelo_valido (n o d f : str) (c : Z) : bool :=
  numero_valido n && ciudad_valida o && ciudad_valida d && strptime_Ymd f
  && capacidad_valida c.

End Validez.

(** What the two loops of [_inicializar_datos] do to the world: the objects
    of [w] stay as they are, [w'] has maybe more passengers and flights, and
    the registry lists them, in the order of their creation, after what it
    listed; reservations, the history and the flag are the same. *)
Record crece (w w' : Mundo) : Prop := {
  cr_pasajeros : pasajeros_obj w `prefix_of` pasajeros_obj w';
  cr_vuelos : vuelos_obj w `prefix_of` vuelos_obj w';
  cr_reservas : reservas_obj w' = reservas_obj w;
  cr_gestor_pasajeros :
    _pasajeros (gestor w')
    = _pasajeros (gestor w)
      ++ seq (length (pasajeros_obj w))
             (length (pasajeros_obj w') - length (pasajeros_obj w));
  cr_gestor_vuelos :
    _vuelos (gestor w')
    = _vuelos (gestor w)
      ++ seq (length (vuelos_obj w))
             (length (vuelos_obj w') - length (vuelos_obj w));
  cr_gestor_reservas : _reservas (gestor w') = _reservas (gestor w);
  cr_initialized : _initialized (gestor w') = _initialized (gestor w)
}.

(** A flight later on: the same data, and a list of reservations that
    begins with the list it had. *)
Definition vuelo_crece (v v' : Vuelo) : Prop :=
  numero v' = numero v /\ origen v' = origen v /\ destino v' = destino v
  /\ fecha v' = fecha v /\ capacidad_total v' = capacidad_total v
  /\ reservas v `prefix_of` reservas v'.

(** Nothing is taken away between [w] and [w']: every flight is still there,
    grown; and a registry that was initialized still is, each of its three
    lists beginning with what it listed. *)
Record solo_crece (w w' : Mundo) : Prop := {
  sc_vuelos : forall f v, vuelos_obj w !! f = Some v ->
    exists v', vuelos_obj w' !! f = Some v' /\ vuelo_crece v v';
  sc_gestor : _initialized (gestor w) = true ->
    _initialized (gestor w') = true
    /\ _pasajeros (gestor w) `prefix_of` _pasajeros (gestor w')
    /\ _vuelos (gestor w) `prefix_of` _vuelos (gestor w')
    /\ _reservas (gestor w) `prefix_of` _reservas (gestor w')
}.

(** A reservation of the history agrees with the rest of the registry: the
    flight and the passenger it names are registered, and it is in the list
    of that flight. *)
Definition reserva_consistente (w : Mundo) (r : ref) : Prop :=
  exists x v, reservas_obj w !! r = Some x
    /\ vuelo x ∈ _vuelos (gestor w) /\ pasajero x ∈ _pasajeros (gestor w)
    /\ vuelos_obj w !! vuelo x = Some v /\ r ∈ reservas v.

(** ** The window

    [InterfazGrafica] holds the registry and some widgets.  Of a widget what
    the handlers read and write is kept: the text of an entry, the values
    and the text of a combobox, the content of the text area.  A handler
    answers with the message box it opens; it catches every exception. *)

Inductive dialogo :=
| showinfo (titulo mensaje : list N)
| showerror (titulo mensaje : list N).

Record InterfazGrafica := mkInterfaz {
  nombre_entry : list N;
  apellido_entry : list N;
  documento_entry : list N;
  pasajero_combobox_values : list (list N);
  pasajero_combobox : list N;
  vuelo_combobox_values : list (list N);
  vuelo_combobox : list N;
  info_text : list N
}.

(** [str(n)] of an [int] *)
Fixpoint cifras (u : Decimal.uint) : list N :=
  match u with
  | Decimal.Nil => []
  | Decimal.D0 u => 48%N :: cifras u
  | Decimal.D1 u => 49%N :: cifras u
  | Decimal.D2 u => 50%N :: cifras u
  | Decimal.D3 u => 51%N :: cifras u
  | Decimal.D4 u => 52%N :: cifras u
  | Decimal.D5 u => 53%N :: cifras u
  | Decimal.D6 u => 54%N :: cifras u
  | Decimal.D7 u => 55%N :: cifras u
  | Decimal.D8 u => 56%N :: cifras u
  | Decimal.D9 u => 57%N :: cifras u
  end.

Definition str_de_int (z : Z) : list N :=
  match Z.to_int z with
  | Decimal.Pos u => cifras u
  | Decimal.Neg u => 45%N :: cifras u
  end.

(** [str(e)] of an exception made with one message *)
Definition str_de_excepcion (e : exception) : list N :=
  match e with
  | ValueError msg => py msg
  | ReservaException msg => py msg
  end.

(** [EstadoReserva.value] *)
Definition valor_estado (e : EstadoReserva) : list N :=
  match e with
  | ACTIVA => py "activa"
  | CANCELADA => py "cancelada"
  | COMPLETADA => py "completada"
  end.

Definition nl : list N := [10%N].

(** [s.startswith(sep)] *)
Fixpoint empieza_con (sep s : list N) : bool :=
  match sep, s with
  | [], _ => true
  | a :: sep', b :: s' => N.eqb a b && empieza_con sep' s'
  | _ :: _, [] => false
  end.

(** [s.split(sep)] for a separator that is not empty: the pieces between
    the occurrences of [sep], taken from the left without overlap.  [salto]
    counts the characters of an occurrence that are still to be passed,
    [actual] is the piece being read, reversed. *)
Fixpoint split_desde (sep : list N) (salto : nat) (actual s : list N)
  : list (list N) :=
  match s with
  | [] => [reverse actual]
  | c :: s' =>
      match salto with
      | S k => split_desde sep k actual s'
      | O =>
          if empieza_con sep s
          then reverse actual :: split_desde sep (length sep - 1) [] s'
          else split_desde sep 0 (c :: actual) s'
      end
  end.

Definition str_split (sep s : list N) : list (list N) := split_desde sep 0 [] s.

Section Ventana.
Context {R : PyRuntime}.

(** [Vuelo.__str__] and [Reserva.__str__] *)
Definition Vuelo_str (v : Vuelo) : list N :=
  py "Vuelo " ++ numero v ++ py ": " ++ origen v ++ py " → " ++ destino v
  ++ py " (" ++ fecha v ++ py ")".

Definition Reserva_str (w : Mundo) (x : Reserva) : option (list N) :=
  p ← pasajeros_obj w !! pasajero x;
  v ← vuelos_obj w !! vuelo x;
  Some (py "Reserva: " ++ nombre_completo p ++ py " - " ++ numero v
        ++ py " (" ++ valor_estado (estado x) ++ py ")").

(** The two f-strings of [_actualizar_comboboxes] *)
Definition pasajero_display (p : Pasajero) : list N :=
  nombre_completo p ++ py " (" ++ documento p ++ py ")".

Definition vuelo_display (v : Vuelo) (disponibles : Z) : list N :=
  numero v ++ py " - " ++ origen v ++ py " → " ++ destino v
  ++ py " (" ++ fecha v ++ py ") - Disponibles: " ++ str_de_int disponibles.

Definition pasajeros_display (w : Mundo) : option (list (list N)) :=
  mapM (fun r => pasajero_display <$> pasajeros_obj w !! r) (_pasajeros (gestor w)).

Definition vuelos_display (w : Mundo) : option (list (list N)) :=
  mapM (fun f => v ← vuelos_obj w !! f;
                 c ← capacidad_disponible f w;
                 Some (vuelo_display v c))
       (_vuelos (gestor w)).

(** [InterfazGrafica._actualizar_comboboxes]: the values change, the text
    shown in each combobox stays. *)
Definition _actualizar_comboboxes (self : InterfazGrafica) (w : Mundo)
  : option InterfazGrafica :=
  ps ← pasajeros_display w;
  vs ← vuelos_display w;
  Some (mkInterfaz (nombre_entry self) (apellido_entry self) (documento_entry self)
          ps (pasajero_combobox self) vs (vuelo_combobox self) (info_text self)).

(** The lines of [_actualizar_informacion] for one flight and for one
    reservation *)
Definition info_vuelo (w : Mundo) (f : ref) : option (list N) :=
  v ← vuelos_obj w !! f;
  c ← capacidad_disponible f w;
  a ← reservas_activas (reservas_obj w) (reservas v);
  nombres ← mapM (fun r => x ← reservas_obj w !! r;
                           p ← pasajeros_obj w !! pasajero x;
                           Some (py "    - " ++ nombre_completo p ++ nl)) a;
  Some (Vuelo_str v ++ nl
        ++ py "  Capacidad: " ++ str_de_int c ++ py "/"
        ++ str_de_int (capacidad_total v) ++ nl
        ++ (match a with
            | [] => []
            | _ :: _ => py "  Pasajeros:" ++ nl ++ concat nombres
            end)
        ++ nl).

Definition info_reserva (w : Mundo) (r : ref) : option (list N) :=
  x ← reservas_obj w !! r;
  s ← Reserva_str w x;
  Some (s ++ nl ++ py "  Fecha: " ++ fecha_reserva x ++ nl ++ nl).

Definition informacion (w : Mundo) : option (list N) :=
  let g := gestor w in
  vs ← mapM (info_vuelo w) (_vuelos g);
  rs ← mapM (info_reserva w) (_reservas g);
  a ← reservas_activas (reservas_obj w) (_reservas g);
  Some (py "=== VUELOS DISPONIBLES ===" ++ nl ++ nl ++ concat vs
        ++ py "=== TODAS LAS RESERVAS ===" ++ nl ++ nl ++ concat rs
        ++ py "=== ESTADÍSTICAS ===" ++ nl ++ nl
        ++ py "Total de pasajeros: "
        ++ str_de_int (Z.of_nat (length (_pasajeros g))) ++ nl
        ++ py "Total de vuelos: " ++ str_de_int (Z.of_nat (length (_vuelos g))) ++ nl
        ++ py "Total de reservas: "
        ++ str_de_int (Z.of_nat (length (_reservas g))) ++ nl
        ++ py "Reservas activas: " ++ str_de_int (Z.of_nat (length a)) ++ nl).

(** [InterfazGrafica._actualizar_informacion] *)
Definition _actualizar_informacion (self : InterfazGrafica) (w : Mundo)
  : option InterfazGrafica :=
  t ← informacion w;
  Some (mkInterfaz (nombre_entry self) (apellido_entry self) (documento_entry self)
          (pasajero_combobox_values self) (pasajero_combobox self)
          (vuelo_combobox_values self) (vuelo_combobox self) t).

(** [InterfazGrafica._agregar_pasajero] *)
Definition _agregar_pasajero (self : InterfazGrafica) (w : Mundo)
  : option (dialogo * InterfazGrafica * Mundo) :=
  let nombre := strip (nombre_entry self) in
  let apellido := strip (apellido_entry self) in
  let documento := strip (documento_entry self) in
  if vacia nombre || vacia apellido || vacia documento then
    Some (showerror (py "Error") (py "Todos los campos son obligatorios"), self, w)
  else
    match agregar_pasajero nombre apellido documento w with
    | None => None
    | Some (Raise e, w') => Some (showerror (py "Error") (str_de_excepcion e), self, w')
    | Some (Ok nuevo_pasajero, w') =>
        let self1 := mkInterfaz [] [] []
                       (pasajero_combobox_values self) (pasajero_combobox self)
                       (vuelo_combobox_values self) (vuelo_combobox self)
                       (info_text self) in
        self2 ← _actualizar_comboboxes self1 w';
        self3 ← _actualizar_informacion self2 w';
        p ← pasajeros_obj w' !! nuevo_pasajero;
        Some (showinfo (py "Éxito")
                (py "Pasajero " ++ nombre_completo p ++ py " agregado exitosamente"),
              self3, w')
    end.

(** The two extractions of [_hacer_reserva]; [None] is the [IndexError] of
    an index past the end of the list. *)
Definition documento_seleccionado (pasajero_seleccionado : list N)
  : option (list N) :=
  entre ← str_split (py "(") pasajero_seleccionado !! 1;
  str_split (py ")") entre !! 0.

Definition numero_seleccionado (vuelo_seleccionado : list N) : option (list N) :=
  str_split (py " - ") vuelo_seleccionado !! 0.

Definition indice_fuera : dialogo :=
  showerror (py "Error") (py "Error inesperado: list index out of range").

(** [InterfazGrafica._hacer_reserva]; [ahora] is the clock read by
    [Reserva]. *)
Definition _hacer_reserva (ahora : list N) (self : InterfazGrafica) (w : Mundo)
  : option (dialogo * InterfazGrafica * Mundo) :=
  let pasajero_seleccionado := pasajero_combobox self in
  let vuelo_seleccionado := vuelo_combobox self in
  if vacia pasajero_seleccionado || vacia vuelo_seleccionado then
    Some (showerror (py "Error") (py "Debe seleccionar un pasajero y un vuelo"),
          self, w)
  else
    match documento_seleccionado pasajero_seleccionado with
    | None => Some (indice_fuera, self, w)
    | Some documento =>
        match numero_seleccionado vuelo_seleccionado with
        | None => Some (indice_fuera, self, w)
        | Some numero_vuelo =>
            match crear_reserva numero_vuelo documento ahora w with
            | None => None
            | Some (Raise e, w') =>
                Some (showerror (py "Error") (str_de_excepcion e), self, w')
            | Some (Ok reserva, w') =>
                self1 ← _actualizar_comboboxes self w';
                self2 ← _actualizar_informacion self1 w';
                x ← reservas_obj w' !! reserva;
                s ← Reserva_str w' x;
                Some (showinfo (py "Éxito")
                        (py "Reserva realizada exitosamente:" ++ nl ++ s),
                      self2, w')
            end
        end
    end.

(** [InterfazGrafica()]: the registry, the widgets, empty, with the text
    area filled at the end of [_crear_widgets], and the comboboxes. *)
Definition InterfazGrafica_new (w : Mundo)
  : option (result InterfazGrafica * Mundo) :=
  match GestorReservas_new w with
  | None => None
  | Some (Raise e, w') => Some (Raise e, w')
  | Some (Ok _, w') =>
      self1 ← _actualizar_informacion (mkInterfaz [] [] [] [] [] [] [] []) w';
      self2 ← _actualizar_comboboxes self1 w';
      Some (Ok self2, w')
  end.

(** What the user does: types in an entry, picks an item of a combobox
    (they are read-only, so the text of a combobox is empty or one of the
    values it had), presses one of the three buttons. *)
Inductive evento :=
| EscribirNombre (s : list N)
| EscribirApellido (s : list N)
| EscribirDocumento (s : list N)
| ElegirPasajero (i : nat)
| ElegirVuelo (i : nat)
| PulsarAgregar
| PulsarReservar (ahora : list N)
| PulsarActualizar.

Definition atender (e : evento) (self : InterfazGrafica) (w : Mundo)
  : option (InterfazGrafica * Mundo) :=
  match e with
  | EscribirNombre s =>
      Some (mkInterfaz s (apellido_entry self) (documento_entry self)
              (pasajero_combobox_values self) (pasajero_combobox self)
              (vuelo_combobox_values self) (vuelo_combobox self) (info_text self), w)
  | EscribirApellido s =>
      Some (mkInterfaz (nombre_entry self) s (documento_entry self)
              (pasajero_combobox_values self) (pasajero_combobox self)
              (vuelo_combobox_values self) (vuelo_combobox self) (info_text self), w)
  | EscribirDocumento s =>
      Some (mkInterfaz (nombre_entry self) (apellido_entry self) s
              (pasajero_combobox_values self) (pasajero_combobox self)
              (vuelo_combobox_values self) (vuelo_combobox self) (info_text self), w)
  | ElegirPasajero i =>
      match pasajero_combobox_values self !! i with
      | Some t =>
          Some (mkInterfaz (nombre_entry self) (apellido_entry self)
                  (documento_entry self) (pasajero_combobox_values self) t
                  (vuelo_combobox_values self) (vuelo_combobox self)
                  (info_text self), w)
      | None => Some (self, w)
      end
  | ElegirVuelo i =>
      match vuelo_combobox_values self !! i with
      | Some t =>
          Some (mkInterfaz (nombre_entry self) (apellido_entry self)
                  (documento_entry self) (pasajero_combobox_values self)
                  (pasajero_combobox self) (vuelo_combobox_values self) t
                  (info_text self), w)
      | None => Some (self, w)
      end
  | PulsarAgregar =>
      '(_, self', w') ← _agregar_pasajero self w; Some (self', w')
  | PulsarReservar ahora =>
      '(_, self', w') ← _hacer_reserva ahora self w; Some (self', w')
  | PulsarActualizar =>
      self' ← _actualizar_informacion self w; Some (self', w)
  end.

Fixpoint sesion (es : list evento) (self : InterfazGrafica) (w : Mundo)
  : option (InterfazGrafica * Mundo) :=
  match es with
  | [] => Some (self, w)
  | e :: es' =>
      match atender e self w with
      | Some (self', w') => sesion es' self' w'
      | None => None
      end
  end.

(** The window shows the registry as it is: the values of the comboboxes
    and the text area are what the refreshing methods would write. *)
Definition al_dia (self : InterfazGrafica) (w : Mundo) : Prop :=
  pasajeros_display w = Some (pasajero_combobox_values self)
  /\ vuelos_display w = Some (vuelo_combobox_values self)
  /\ informacion w = Some (info_text self).

End Ventana.

(** The window as it opens on a fresh interpreter, on the Latin-1 tables. *)
Section VentanaInicial.
Local Existing Instance latin1.

Definition ventana_inicial : InterfazGrafica :=
  match InterfazGrafica_new mundo_vacio with
  | Some (Ok self, _) => self
  | _ => mkInterfaz [] [] [] [] [] [] [] []
  end.

End VentanaInicial.

(** ** The first version of the program, [vuelos.py]

    Three classes that keep what their constructor is given, three
    module-level lists, and a window whose two handlers work on the lists.
    No object is shared outside the lists, passengers and reservations are
    never changed and the three flights are made once, so an object is
    named by its position in its list.  A flight is mutable: its capacity is
    counted down and its list of reservations grows. *)

Module Basico.

Record Pasajero := mkPasajero {
  nombre : list N;
  apellido : list N;
  documento : list N
}.

Record Vuelo := mkVuelo {
  numero : list N;
  origen : list N;
  destino : list N;
  fecha : list N;
  capacidad : Z;
  reservas : list nat
}.

Record Reserva := mkReserva {
  vuelo : nat;
  pasajero : nat
}.

(** The module's lists and what the handlers use of the widgets.  The two
    comboboxes can be typed in. *)
Record Programa := mkPrograma {
  pasajeros : list Pasajero;
  vuelos : list Vuelo;
  reservas_modulo : list Reserva;
  nuevo_pasajero_entry : list N;
  pasajero_combobox_values : list (list N);
  pasajero_combobox : list N;
  vuelo_combobox_values : list (list N);
  vuelo_combobox : list N;
  mensaje_label : list N
}.

(** [next((x for x in l if P(x)), None)], with the position of [x] *)
Fixpoint primero {A} (P : A -> bool) (l : list A) : option (nat * A) :=
  match l with
  | [] => None
  | x :: l' =>
      if P x then Some (0, x)
      else match primero P l' with
           | Some (i, y) => Some (S i, y)
           | None => None
           end
  end.

Section Manejo.
Context {R : PyRuntime}.

(** [s.split()]: the maximal runs of characters that are not whitespace;
    [actual] is the run being read, reversed. *)
Fixpoint palabras (actual s : list N) : list (list N) :=
  match s with
  | [] => match actual with [] => [] | _ :: _ => [reverse actual] end
  | c :: s' =>
      if isspace c then
        match actual with
        | [] => palabras [] s'
        | _ :: _ => reverse actual :: palabras [] s'
        end
      else palabras (c :: actual) s'
  end.

Definition con_mensaje (g : Programa) (t : list N) : Programa :=
  mkPrograma (pasajeros g) (vuelos g) (reservas_modulo g) (nuevo_pasajero_entry g)
    (pasajero_combobox_values g) (pasajero_combobox g)
    (vuelo_combobox_values g) (vuelo_combobox g) t.

(** [InterfazGrafica.agregar_pasajero] *)
Definition agregar_pasajero (g : Programa) : Programa :=
  match palabras [] (nuevo_pasajero_entry g) with
  | [n; a; d] =>
      let nuevo_pasajero := mkPasajero n a d in
      let ps := pasajeros g ++ [nuevo_pasajero] in
      mkPrograma ps (vuelos g) (reservas_modulo g) []
        (map nombre ps) (pasajero_combobox g)
        (vuelo_combobox_values g) (vuelo_combobox g)
        (py "Pasajero " ++ n ++ py " " ++ a ++ py " agregado con éxito.")
  | _ =>
      con_mensaje g (py "Formato incorrecto. Ingrese Nombre, Apellido y Documento.")
  end.

(** [InterfazGrafica.hacer_reserva] *)
Definition hacer_reserva (g : Programa) : Programa :=
  let nombre_pasajero := pasajero_combobox g in
  let numero_vuelo := vuelo_combobox g in
  match primero (fun p => str_eqb (nombre p) nombre_pasajero) (pasajeros g),
        primero (fun v => str_eqb (numero v) numero_vuelo) (vuelos g) with
  | Some (ip, p), Some (iv, v) =>
      if (capacidad v >? 0)%Z then
        let reserva := length (reservas_modulo g) in
        mkPrograma (pasajeros g)
          (<[iv := mkVuelo (numero v) (origen v) (destino v) (fecha v)
                     (capacidad v - 1) (reservas v ++ [reserva])]> (vuelos g))
          (reservas_modulo g ++ [mkReserva iv ip]) (nuevo_pasajero_entry g)
          (pasajero_combobox_values g) (pasajero_combobox g)
          (vuelo_combobox_values g) (vuelo_combobox g)
          (py "Reserva realizada con éxito para " ++ nombre p ++ py " "
           ++ apellido p ++ py " en el vuelo " ++ numero v ++ py ".")
      else con_mensaje g (py "No hay capacidad disponible para este vuelo.")
  | _, _ => con_mensaje g (py "Pasajero o vuelo no encontrado.")
  end.

(** What the user does: types in the entry or in a combobox (picking an
    item is typing its text), presses a button. *)
Inductive evento :=
| Escribir (s : list N)
| PonerPasajero (s : list N)
| PonerVuelo (s : list N)
| PulsarAgregar
| PulsarReservar.

Definition atender (e : evento) (g : Programa) : Programa :=
  match e with
  | Escribir s =>
      mkPrograma (pasajeros g) (vuelos g) (reservas_modulo g) s
        (pasajero_combobox_values g) (pasajero_combobox g)
        (vuelo_combobox_values g) (vuelo_combobox g) (mensaje_label g)
  | PonerPasajero s =>
      mkPrograma (pasajeros g) (vuelos g) (reservas_modulo g)
        (nuevo_pasajero_entry g) (pasajero_combobox_values g) s
        (vuelo_combobox_values g) (vuelo_combobox g) (mensaje_label g)
  | PonerVuelo s =>
      mkPrograma (pasajeros g) (vuelos g) (reservas_modulo g)
        (nuevo_pasajero_entry g) (pasajero_combobox_values g)
        (pasajero_combobox g) (vuelo_combobox_values g) s (mensaje_label g)
  | PulsarAgregar => agregar_pasajero g
  | PulsarReservar => hacer_reserva g
  end.

Definition sesion (es : list evento) (g : Programa) : Programa :=
  fold_left (fun g e => atender e g) es g.

End Manejo.

(** The module as it is loaded and the window as it opens. *)
Definition inicio : Programa :=
  let ps := [ mkPasajero (py "Juan") (py "Perez") (py "12345");
              mkPasajero (py "Maria") (py "Gomez") (py "67890");
              mkPasajero (py "Carlos") (py "Lopez") (py "54321");
              mkPasajero (py "Ana") (py "Martinez") (py "98765");
              mkPasajero (py "Pedro") (py "Rodriguez") (py "13579");
              mkPasajero (py "Laura") (py "Gonzalez") (py "24680");
              mkPasajero (py "Diego") (py "Santos") (py "11223");
              mkPasajero (py "Isabel") (py "Fernandez") (py "33445");
              mkPasajero (py "Andres") (py "Rios") (py "55667");
              mkPasajero (py "Sofia") (py "Diaz") (py "77889") ] in
  let vs := [ mkVuelo (py "V001") (py "Ciudad A") (py "Ciudad B") (py "2024-03-01") 2 [];
              mkVuelo (py "V002") (py "Ciudad B") (py "Ciudad C") (py "2024-03-02") 3 [];
              mkVuelo (py "V003") (py "Ciudad C") (py "Ciudad D") (py "2024-03-03") 1 [] ] in
  mkPrograma ps vs [] [] (map nombre ps) [] (map numero vs) [] [].

End Basico.

(** A flight of the first version later in a session: the seats taken from
    the capacity are the entries added to the list. *)
Definition avanza (v v' : Basico.Vuelo) : Prop :=
  Basico.numero v' = Basico.numero v
  /\ (Basico.capacidad v' + Z.of_nat (length (Basico.reservas v'))
      = Basico.capacidad v + Z.of_nat (length (Basico.reservas v)))%Z
  /\ (Basico.capacidad v' <= Basico.capacidad v)%Z
  /\ (0 <= Basico.capacidad v -> 0 <= Basico.capacidad v')%Z
  /\ Basico.reservas v `prefix_of` Basico.reservas v'.

(** * Proofs *)

Local Open Scope N_scope.

(** ** Strings and patterns *)

Section Cadenas.
Context {R : PyRuntime}.

Lemma lstrip_app s : exists ws, s = ws ++ lstrip s.
Proof.
  induction s as [|c s [ws IH]]; simpl.
  - exists []. reflexivity.
  - destruct (isspace c).
    + exists (c :: ws). simpl. now rewrite <- IH.
    + exists []. reflexivity.
Qed.

Lemma lstrip_head s c : head (lstrip s) = Some c -> isspace c = false.
Proof.
  induction s as [|d s IH]; simpl; [discriminate|].
  destruct (isspace d) eqn:E; [exact IH|].
  simpl. intros [= <-]. exact E.
Qed.

Lemma lstrip_fix s :
  (forall c, head s = Some c -> isspace c = false) -> lstrip s = s.
Proof.
  destruct s as [|c s]; simpl; [reflexivity|].
  intros H. now rewrite (H c eq_refl).
Qed.

Lemma rstrip_app s : exists ws, s = rstrip s ++ ws.
Proof.
  unfold rstrip. destruct (lstrip_app (reverse s)) as [ws H].
  exists (reverse ws).
  rewrite <- reverse_app, <- H. symmetry. apply reverse_involutive.
Qed.

Lemma rstrip_last s c : last (rstrip s) = Some c -> isspace c = false.
Proof. unfold rstrip. rewrite last_reverse. apply lstrip_head. Qed.

Lemma rstrip_fix s :
  (forall c, last s = Some c -> isspace c = false) -> rstrip s = s.
Proof.
  intros H. unfold rstrip. rewrite lstrip_fix.
  - apply reverse_involutive.
  - intros c. rewrite head_reverse. apply H.
Qed.

Lemma strip_last s c : last (strip s) = Some c -> isspace c = false.
Proof. apply rstrip_last. Qed.

Lemma strip_head s c : head (strip s) = Some c -> isspace c = false.
Proof.
  unfold strip. intros H. apply (lstrip_head s).
  destruct (rstrip_app (lstrip s)) as [ws E]. rewrite E.
  destruct (rstrip (lstrip s)); [discriminate|exact H].
Qed.

Lemma strip_fix s :
  (forall c, head s = Some c -> isspace c = false) ->
  (forall c, last s = Some c -> isspace c = false) ->
  strip s = s.
Proof.
  intros Hh Hl. unfold strip. rewrite (lstrip_fix s Hh). now apply rstrip_fix.
Qed.

Lemma strip_idem s : strip (strip s) = strip s.
Proof. apply strip_fix; [apply strip_head | apply strip_last]. Qed.

Lemma forallb_igual {A} (f g : A -> bool) l :
  (forall x, f x = g x) -> forallb f l = forallb g l.
Proof. intros E. induction l as [|x l IH]; simpl; [reflexivity|]. now rewrite E, IH. Qed.

Lemma forallb_implica {A} (f g : A -> bool) l :
  (forall x, f x = true -> g x = true) -> forallb f l = true -> forallb g l = true.
Proof.
  intros E. induction l as [|x l IH]; simpl; [reflexivity|].
  intros H. apply andb_true_iff in H. destruct H as [H1 H2].
  now rewrite (E x H1), IH.
Qed.

Lemma vacia_true (s : str) : vacia s = true <-> s = [].
Proof. destruct s; simpl; split; congruence. Qed.

Lemma fin_dolar_true s : fin_dolar s = true <-> s = [] \/ s = [10].
Proof.
  destruct s as [|c [|d s]]; simpl.
  - tauto.
  - rewrite N.eqb_eq. split; [intros ->; now right|intros [?|[= ->]]; congruence].
  - split; [discriminate|intros [?|?]; discriminate].
Qed.

Lemma re_match_cons p ps s :
  re_match (p :: ps) s = true <->
  exists n, (rmin p <= n)%nat /\ (n <= length s)%nat
    /\ (forall m, rmax p = Some m -> (n <= m)%nat)
    /\ forallb (en_clase (clase p)) (take n s) = true
    /\ re_match ps (drop n s) = true.
Proof.
  simpl. rewrite existsb_exists. unfold cuentas. split.
  - intros (n & Hin & H). apply in_seq in Hin. apply andb_true_iff in H.
    exists n. destruct (rmax p) as [m|]; repeat split; try tauto; try lia.
    + intros ? [= <-]. lia.
    + discriminate.
  - intros (n & H1 & H2 & H3 & H4 & H5). exists n. split.
    + apply in_seq. destruct (rmax p) as [m|]; [specialize (H3 m eq_refl)|]; lia.
    + now rewrite H4, H5.
Qed.

(** Last piece of a pattern, on a subject that does not end in a newline:
    the piece takes the whole subject. *)
Lemma re_match_last p s :
  last s <> Some 10 ->
  re_match [p] s = true <->
  (rmin p <= length s)%nat /\ (forall m, rmax p = Some m -> (length s <= m)%nat)
  /\ forallb (en_clase (clase p)) s = true.
Proof.
  intros Hl. rewrite re_match_cons. split.
  - intros (n & H1 & H2 & H3 & H4 & H5). simpl in H5.
    apply fin_dolar_true in H5. destruct H5 as [H5|H5].
    + assert (n = length s).
      { apply (f_equal length) in H5. rewrite length_drop in H5. simpl in H5. lia. }
      subst n. rewrite firstn_all in H4. auto.
    + exfalso. apply Hl. rewrite <- (take_drop n s), H5. apply last_snoc.
  - intros (H1 & H2 & H3). exists (length s).
    rewrite firstn_all, drop_all. simpl. auto.
Qed.

Lemma stripped_no_newline s : last (strip s) <> Some 10.
Proof.
  intros H. apply strip_last in H. rewrite isspace_newline in H. discriminate.
Qed.

Lemma en_clase_nombre c :
  en_clase (clase (Pieza (Rango 97 122 :: Rango 65 90
     :: map Lit (py "áéíóúÁÉÍÓÚñÑ") ++ [ClaseS]) 1 None)) c
  = letra_admitida c || isspace c.
Proof.
  replace (py "áéíóúÁÉÍÓÚñÑ")
    with [225; 233; 237; 243; 250; 193; 201; 205; 211; 218; 241; 209]
    by (vm_compute; reflexivity).
  unfold letra_admitida, en_clase. cbn [clase map app existsb en_cset].
  destruct ((97 <=? c) && (c <=? 122)), ((65 <=? c) && (c <=? 90)); simpl; auto.
  repeat (rewrite orb_false_r || rewrite orb_assoc). reflexivity.
Qed.

Lemma re_match_nombre t :
  last t <> Some 10 ->
  re_match patron_nombre t = true <->
  (1 <= length t)%nat /\ forallb (fun c => letra_admitida c || isspace c) t = true.
Proof.
  intros Hl. unfold patron_nombre. rewrite (re_match_last _ _ Hl).
  rewrite (forallb_igual _ _ _ en_clase_nombre). simpl.
  split; [tauto|]. intros [? ?]. repeat split; auto. discriminate.
Qed.

Lemma re_match_documento t :
  last t <> Some 10 ->
  re_match patron_documento t = true <->
  (5 <= length t)%nat /\ (length t <= 12)%nat /\ forallb isdecimal t = true.
Proof.
  intros Hl. unfold patron_documento. rewrite (re_match_last _ _ Hl). simpl.
  assert (E : forall x, en_clase [ClaseD] x = isdecimal x).
  { intros x. unfold en_clase. simpl. apply orb_false_r. }
  rewrite (forallb_igual _ _ _ E).
  split.
  - intros (H1 & H2 & H3). specialize (H2 _ eq_refl). auto.
  - intros (H1 & H2 & H3). repeat split; auto. intros ? [= <-]. exact H2.
Qed.

End Cadenas.

Local Close Scope N_scope.

(** ** Passengers and flights as values *)

Section Entidades.
Context {R : PyRuntime}.

Lemma strip_nil : strip [] = [].
Proof. reflexivity. Qed.

Lemma validar_nombre_ok n :
  nombre_valido n = true -> _validar_nombre n = Ok (title (strip n)).
Proof.
  unfold nombre_valido, _validar_nombre. intros H.
  apply andb_true_iff in H. destruct H as [Hlen Hall].
  apply Nat.leb_le in Hlen.
  assert (Hn : vacia n = false).
  { destruct n; [|reflexivity]. rewrite strip_nil in Hlen. simpl in Hlen. lia. }
  assert (Hs : vacia (strip n) = false).
  { destruct (strip n); [simpl in Hlen; lia|reflexivity]. }
  rewrite Hn, Hs. cbn [orb].
  assert (E1 : (length (strip n) <? 2)%nat = false) by (apply Nat.ltb_ge; lia).
  assert (E2 : re_match patron_nombre (strip n) = true).
  { apply re_match_nombre; [apply stripped_no_newline|]. split; [lia|exact Hall]. }
  rewrite E1, E2. reflexivity.
Qed.

Lemma validar_nombre_error n :
  nombre_valido n = false -> exists msg, _validar_nombre n = Raise (ValueError msg).
Proof.
  unfold nombre_valido, _validar_nombre. intros H.
  destruct (vacia n || vacia (strip n)); [eauto|].
  destruct (length (strip n) <? 2)%nat eqn:Hlen; [eauto|].
  destruct (re_match patron_nombre (strip n)) eqn:Hm; simpl; [|eauto].
  apply re_match_nombre in Hm; [|apply stripped_no_newline].
  destruct Hm as [_ Hall]. apply Nat.ltb_ge in Hlen.
  rewrite Hall, andb_true_r in H. apply Nat.leb_gt in H. lia.
Qed.

Lemma validar_documento_ok d :
  documento_valido d = true -> _validar_documento d = Ok (strip d).
Proof.
  unfold documento_valido, _validar_documento. intros H.
  apply andb_true_iff in H. destruct H as [H Hall].
  apply andb_true_iff in H. destruct H as [Hlo Hhi].
  apply Nat.leb_le in Hlo, Hhi.
  assert (Hn : vacia d = false).
  { destruct d; [|reflexivity]. rewrite strip_nil in Hlo. simpl in Hlo. lia. }
  assert (Hs : vacia (strip d) = false).
  { destruct (strip d); [simpl in Hlo; lia|reflexivity]. }
  rewrite Hn, Hs. cbn [orb].
  assert (E : re_match patron_documento (strip d) = true).
  { apply re_match_documento; [apply stripped_no_newline|]. auto. }
  rewrite E. reflexivity.
Qed.

Lemma validar_documento_error d :
  documento_valido d = false ->
  exists msg, _validar_documento d = Raise (ValueError msg).
Proof.
  unfold documento_valido, _validar_documento. intros H.
  destruct (vacia d || vacia (strip d)); [eauto|].
  destruct (re_match patron_documento (strip d)) eqn:Hm; simpl; [|eauto].
  apply re_match_documento in Hm; [|apply stripped_no_newline].
  destruct Hm as (Hlo & Hhi & Hall).
  apply Nat.leb_le in Hlo, Hhi. rewrite Hlo, Hhi, Hall in H. discriminate.
Qed.

(** A validated document is a fixed point of its own validation. *)
Lemma validar_documento_idem d0 d :
  _validar_documento d0 = Ok d -> _validar_documento d = Ok d.
Proof.
  unfold _validar_documento.
  destruct (vacia d0 || vacia (strip d0)) eqn:Hv; [discriminate|].
  destruct (re_match patron_documento (strip d0)) eqn:Hm; cbn [negb]; [|discriminate].
  intros [= <-]. rewrite strip_idem.
  apply orb_false_iff in Hv. destruct Hv as [_ Hv]. rewrite Hv, Hm. reflexivity.
Qed.

Lemma en_clase_AZ x : en_clase [Rango 65 90] x = es_AZ x.
Proof. unfold en_clase, es_AZ. simpl. apply orb_false_r. Qed.

Lemma en_clase_D x : en_clase [ClaseD] x = isdecimal x.
Proof. unfold en_clase. simpl. apply orb_false_r. Qed.

(** What a validated flight number looks like. *)
Lemma re_match_numero k :
  last k <> Some 10%N ->
  re_match patron_numero k = true ->
  exists a b, k = a ++ b /\ a <> [] /\ b <> []
    /\ forallb es_AZ a = true /\ forallb isdecimal b = true.
Proof.
  intros Hl Hm. unfold patron_numero in Hm.
  apply re_match_cons in Hm. destruct Hm as (n & H1 & H2 & _ & H4 & H5).
  simpl in H1. cbn [clase] in H4.
  assert (Hk : k = take n k ++ drop n k) by (symmetry; apply take_drop).
  assert (Hd : last (drop n k) <> Some 10%N).
  { intros E. apply Hl. rewrite Hk, last_app, E. reflexivity. }
  apply (re_match_last _ _ Hd) in H5. destruct H5 as (H5 & _ & H6).
  simpl in H5. cbn [clase] in H6.
  rewrite (forallb_igual _ _ _ en_clase_AZ) in H4.
  rewrite (forallb_igual _ _ _ en_clase_D) in H6.
  exists (take n k), (drop n k). repeat split; auto.
  - intros E. apply (f_equal length) in E. rewrite length_take in E. simpl in E. lia.
  - intros E. rewrite E in H5. simpl in H5. lia.
Qed.

(** A validated flight number is a fixed point of its own validation. *)
Lemma validar_numero_idem n0 k :
  _validar_numero_vuelo n0 = Ok k -> _validar_numero_vuelo k = Ok k.
Proof.
  unfold _validar_numero_vuelo.
  destruct (vacia n0 || vacia (strip n0)) eqn:Hv; [discriminate|].
  destruct (re_match patron_numero (upper (strip n0))) eqn:Hm; cbn [negb];
    [|discriminate].
  intros [= E]. rewrite E in Hm.
  assert (Hl : last k <> Some 10%N).
  { rewrite <- E. intros H. apply upper_newline in H.
    exact (stripped_no_newline _ H). }
  destruct (re_match_numero k Hl Hm) as (a & b & Hk & Ha & Hb & HA & HB).
  assert (Hs : strip k = k).
  { apply strip_fix; intros c Hc.
    - destruct a as [|x a]; [congruence|]. rewrite Hk in Hc. simpl in Hc.
      injection Hc as <-. simpl in HA. apply andb_true_iff in HA.
      apply isspace_AZ. tauto.
    - rewrite Hk, last_app in Hc.
      destruct (last b) as [y|] eqn:Hy; [|apply last_None in Hy; congruence].
      injection Hc as <-. apply isdecimal_not_space.
      apply last_Some in Hy. destruct Hy as [b' ->].
      rewrite forallb_app in HB. simpl in HB.
      apply andb_true_iff in HB. destruct HB as [_ HB].
      apply andb_true_iff in HB. tauto. }
  assert (Hu : upper k = k).
  { apply upper_fixed. rewrite Hk, forallb_app. apply andb_true_iff. split.
    - revert HA. apply forallb_implica. intros x ->. reflexivity.
    - revert HB. apply forallb_implica. intros x ->. apply orb_true_r. }
  rewrite Hs, Hu, Hm.
  destruct k; [destruct a; simpl in Hk; congruence|]. reflexivity.
Qed.

Lemma validador_solo_ValueError :
  (forall n e, _validar_nombre n = Raise e -> exists msg, e = ValueError msg)
  /\ (forall d e, _validar_documento d = Raise e -> exists msg, e = ValueError msg).
Proof.
  unfold _validar_nombre, _validar_documento.
  split; intros x e H; repeat case_match; simplify_eq; eauto.
Qed.

Lemma Pasajero_init_solo_ValueError n a d e :
  Pasajero_init n a d = Raise e -> exists msg, e = ValueError msg.
Proof.
  destruct validador_solo_ValueError as [Hn Hd]. unfold Pasajero_init.
  destruct (_validar_nombre n) eqn:E1; [|intros [= <-]; eauto].
  destruct (_validar_nombre a) eqn:E2; [|intros [= <-]; eauto].
  destruct (_validar_documento d) eqn:E3; [discriminate|intros [= <-]; eauto].
Qed.

(** C6 (as amended).  A triple is valid when both names, once trimmed, have
    at least two characters, all of them among a-z, A-Z, the twelve letters
    á é í ó ú Á É Í Ó Ú ñ Ñ and whitespace, and the document, once trimmed,
    is 5 to 12 decimal digits.  For a valid triple [Pasajero(...)] holds the
    trimmed, title-cased names and the trimmed document; for any other triple
    it raises [ValueError] and there is no passenger. *)
Theorem Pasajero_init_normaliza (n a d : str) :
  (nombre_valido n && nombre_valido a && documento_valido d = true ->
   Pasajero_init n a d
   = Ok (mkPasajero (title (strip n)) (title (strip a)) (strip d)))
  /\ (nombre_valido n && nombre_valido a && documento_valido d = false ->
      exists msg, Pasajero_init n a d = Raise (ValueError msg)).
Proof.
  unfold Pasajero_init. split.
  - intros H. apply andb_true_iff in H. destruct H as [H Hd].
    apply andb_true_iff in H. destruct H as [Hn Ha].
    rewrite (validar_nombre_ok n Hn), (validar_nombre_ok a Ha),
      (validar_documento_ok d Hd). reflexivity.
  - intros H.
    destruct (nombre_valido n) eqn:Hn.
    + rewrite (validar_nombre_ok n Hn).
      destruct (nombre_valido a) eqn:Ha.
      * rewrite (validar_nombre_ok a Ha). simpl in H.
        destruct (validar_documento_error d H) as [msg ->]. eauto.
      * destruct (validar_nombre_error a Ha) as [msg ->]. eauto.
    + destruct (validar_nombre_error n Hn) as [msg ->]. eauto.
Qed.

(** C8.  Two passengers are equal exactly when their documents are, whatever
    their names; two flights are equal exactly when their numbers are. *)
Theorem eq_es_clave :
  (forall p q : Pasajero,
     Pasajero_eq p (OPasajero q) = true <-> documento p = documento q)
  /\ (forall n a n' a' d d',
        Pasajero_eq (mkPasajero n a d) (OPasajero (mkPasajero n' a' d')) = true
        <-> d = d')
  /\ (forall f g : Vuelo, Vuelo_eq f (OVuelo g) = true <-> numero f = numero g).
Proof.
  unfold Pasajero_eq, Vuelo_eq, str_eqb. simpl.
  repeat split; intros H;
    try (apply bool_decide_eq_true in H; exact H);
    apply bool_decide_eq_true; exact H.
Qed.

End Entidades.

(** ** The store *)

Lemma bind_Some {A B} (m : M A) (k : A -> M B) w o w' :
  bind m k w = Some (o, w') <->
  (exists e, m w = Some (Raise e, w') /\ o = Raise e)
  \/ (exists a w1, m w = Some (Ok a, w1) /\ k a w1 = Some (o, w')).
Proof.
  unfold bind. destruct (m w) as [[[a|e] w1]|]; split.
  - intros H. right. eauto.
  - intros [(e & [=] & _)|(a' & w2 & [= <- <-] & H)]. exact H.
  - intros [= <- <-]. left. eauto.
  - intros [(e' & [= <- <-] & ->)|(a' & w2 & [=] & _)]. reflexivity.
  - discriminate.
  - intros [(e & [=] & _)|(a' & w2 & [=] & _)].
Qed.

Lemma leer_Some {A} (f : Mundo -> option A) w o w' :
  leer f w = Some (o, w') <-> exists a, f w = Some a /\ o = Ok a /\ w' = w.
Proof.
  unfold leer. destruct (f w) as [a|]; split.
  - intros [= <- <-]. eauto.
  - intros (a' & [= <-] & -> & ->). reflexivity.
  - discriminate.
  - intros (a' & [=] & _).
Qed.

Lemma bind_leer {A B} (f : Mundo -> option A) (k : A -> M B) w :
  bind (leer f) k w = match f w with Some a => k a w | None => None end.
Proof. unfold bind, leer. destruct (f w); reflexivity. Qed.

Lemma bind_modificar {B} (f : Mundo -> Mundo) (k : unit -> M B) w :
  bind (modificar f) k w = k tt (f w).
Proof. reflexivity. Qed.

Lemma bind_raise {A B} e (k : A -> M B) w :
  bind (raise e) k w = Some (Raise e, w).
Proof. reflexivity. Qed.

Lemma para_cada_prop {A} (P : Mundo -> Prop) (f : A -> M unit) (l : list A) :
  (forall x w o w', P w -> f x w = Some (o, w') -> P w') ->
  forall w o w', P w -> para_cada f l w = Some (o, w') -> P w'.
Proof.
  intros Hf. induction l as [|x l IH]; intros w o w' Hw H; simpl in H.
  - unfold ret in H. simplify_eq. exact Hw.
  - apply bind_Some in H. destruct H as [(e & H & _)|(a & w1 & H & H')].
    + eapply Hf; eauto.
    + eapply IH; [|exact H']. eapply Hf; eauto.
Qed.

Lemma salvo_ValueError_prop (P : Mundo -> Prop) (m : M unit) :
  (forall w o w', P w -> m w = Some (o, w') -> P w') ->
  forall w o w', P w -> salvo_ValueError m w = Some (o, w') -> P w'.
Proof.
  intros Hm w o w' Hw H. unfold salvo_ValueError in H.
  destruct (m w) as [[[[]|[msg|msg]] w1]|] eqn:E; simplify_eq; eauto.
Qed.

Section Almacen.

Implicit Types (h : list Reserva) (l : list ref) (r : ref).

Lemma es_activa_Some h r x :
  h !! r = Some x -> es_activa h r = estado_eqb (estado x) ACTIVA.
Proof. unfold es_activa. now intros ->. Qed.

Lemma estado_eqb_eq a b : estado_eqb a b = true <-> a = b.
Proof. destruct a, b; simpl; split; congruence. Qed.

Lemma es_activa_true h r :
  es_activa h r = true <-> exists x, h !! r = Some x /\ estado x = ACTIVA.
Proof.
  unfold es_activa. destruct (h !! r) as [x|]; split.
  - intros H. apply estado_eqb_eq in H. eauto.
  - intros (x' & [= <-] & H). now apply estado_eqb_eq.
  - discriminate.
  - intros (x' & [=] & _).
Qed.

Lemma es_activa_nuevo h x r : r < length h -> es_activa (h ++ [x]) r = es_activa h r.
Proof. intros H. unfold es_activa. now rewrite lookup_app_l. Qed.

Lemma pasajero_de_nuevo h x r :
  r < length h -> pasajero_de (h ++ [x]) r = pasajero_de h r.
Proof. intros H. unfold pasajero_de. now rewrite lookup_app_l. Qed.

Lemma activas_nuevo h x l :
  Forall (fun r => r < length h) l -> activas (h ++ [x]) l = activas h l.
Proof.
  unfold activas. induction 1 as [|r l Hr _ IH]; [reflexivity|].
  rewrite !filter_cons, IH, (es_activa_nuevo h x r Hr). reflexivity.
Qed.

Lemma activas_snoc h l r :
  activas h (l ++ [r]) = activas h l ++ (if es_activa h r then [r] else []).
Proof.
  unfold activas. rewrite filter_app. f_equal.
  rewrite filter_cons, filter_nil. destruct (es_activa h r); reflexivity.
Qed.

Lemma activas_en_rango h l r : r ∈ activas h l -> r < length h.
Proof.
  unfold activas. rewrite list_elem_of_filter. intros [H _].
  apply es_activa_true in H. destruct H as (x & H & _).
  eapply lookup_lt_Some, H.
Qed.

Lemma reservas_activas_total h l :
  Forall (fun r => r < length h) l -> reservas_activas h l = Some (activas h l).
Proof.
  unfold activas. induction 1 as [|r l Hr _ IH]; [reflexivity|].
  cbn [reservas_activas]. destruct (lookup_lt_is_Some_2 h r Hr) as [x Hx].
  rewrite Hx, IH. cbn [mbind option_bind]. rewrite filter_cons.
  rewrite (es_activa_Some h r x Hx).
  destruct (estado_eqb (estado x) ACTIVA); reflexivity.
Qed.

Lemma reservas_activas_Some h l a :
  reservas_activas h l = Some a ->
  a = activas h l /\ Forall (fun r => r < length h) l.
Proof.
  revert a. induction l as [|r l IH]; cbn [reservas_activas]; intros a.
  - intros [= <-]. split; [reflexivity|constructor].
  - destruct (h !! r) as [x|] eqn:Hx; [|discriminate]. cbn [mbind option_bind].
    destruct (reservas_activas h l) as [a'|]; [|discriminate].
    cbn [mbind option_bind].
    intros [= <-]. destruct (IH a' eq_refl) as [-> Hl]. split.
    + unfold activas. rewrite filter_cons, (es_activa_Some h r x Hx).
      destruct (estado_eqb (estado x) ACTIVA); reflexivity.
    + constructor; [eapply lookup_lt_Some, Hx|exact Hl].
Qed.

Lemma filtro_sublista {A} (P Q : A -> Prop)
    `{!forall x, Decision (P x)} `{!forall x, Decision (Q x)} (l : list A) :
  (forall x, P x -> Q x) -> filter P l `sublist_of` filter Q l.
Proof.
  intros HPQ. induction l as [|x l IH]; [constructor|].
  rewrite !filter_cons.
  destruct (decide (P x)) as [HP|HP].
  - rewrite decide_True by auto. now constructor.
  - destruct (decide (Q x)); [now constructor|exact IH].
Qed.

(** Overwriting a reservation with one that is active only if the old one
    was, and that names the same passenger. *)
Lemma activas_insert h r x x' l :
  h !! r = Some x ->
  (estado x' = ACTIVA -> estado x = ACTIVA) ->
  activas (<[r := x']> h) l `sublist_of` activas h l.
Proof.
  intros Hx Hest. apply filtro_sublista. intros r'.
  rewrite !es_activa_true. intros (y & Hy & Ha).
  destruct (decide (r = r')) as [<-|Hne].
  - rewrite list_lookup_insert_eq in Hy by (eapply lookup_lt_Some, Hx).
    injection Hy as <-. eauto.
  - rewrite list_lookup_insert_ne in Hy by exact Hne. eauto.
Qed.

Lemma pasajero_de_insert h r x x' r' :
  h !! r = Some x -> pasajero x' = pasajero x ->
  pasajero_de (<[r := x']> h) r' = pasajero_de h r'.
Proof.
  intros Hx Hp. unfold pasajero_de.
  destruct (decide (r = r')) as [<-|Hne].
  - rewrite list_lookup_insert_eq by (eapply lookup_lt_Some, Hx).
    rewrite Hx. simpl. now rewrite Hp.
  - now rewrite list_lookup_insert_ne.
Qed.

End Almacen.

(** ** The invariant is kept by every change of the store *)

Ltac medir :=
  cbv beta in *; rewrite ?length_app, ?length_insert; simpl length; lia.

Section Preservacion.
Context {R : PyRuntime}.

Implicit Types (h : list Reserva) (v : Vuelo) (w : Mundo).

Lemma vuelo_ok_nuevo h x v :
  Forall (fun r => r < length h) (reservas v) ->
  vuelo_ok h v -> vuelo_ok (h ++ [x]) v.
Proof.
  intros Hl [Hc Hu Hn]. constructor; rewrite ?activas_nuevo by exact Hl; auto.
  erewrite list_fmap_ext; [exact Hu|].
  intros i r Hr. apply pasajero_de_nuevo.
  eapply activas_en_rango, list_elem_of_lookup_2, Hr.
Qed.

Lemma vuelo_ok_insert h r x x' v :
  h !! r = Some x -> pasajero x' = pasajero x ->
  (estado x' = ACTIVA -> estado x = ACTIVA) ->
  vuelo_ok h v -> vuelo_ok (<[r := x']> h) v.
Proof.
  intros Hx Hp He [Hc Hu Hn].
  pose proof (activas_insert h r x x' (reservas v) Hx He) as Hs.
  constructor; auto.
  - apply sublist_length in Hs. lia.
  - erewrite list_fmap_ext.
    + eapply sublist_NoDup; [exact Hu|]. apply fmap_sublist, Hs.
    + intros i r' _. eapply pasajero_de_insert; eauto.
Qed.

Lemma vuelo_ok_agregar h v r :
  vuelo_ok h v ->
  (Z.of_nat (length (activas h (reservas v))) < capacidad_total v)%Z ->
  (es_activa h r = true ->
   pasajero_de h r ∉ pasajero_de h <$> activas h (reservas v)) ->
  vuelo_ok h (con_reservas v (reservas v ++ [r])).
Proof.
  intros [Hc Hu Hn] Hlt Hnew. constructor; simpl; auto.
  - rewrite activas_snoc, length_app.
    destruct (es_activa h r); simpl; lia.
  - rewrite activas_snoc, fmap_app. destruct (es_activa h r).
    + simpl. apply NoDup_app. repeat split; auto.
      * intros y Hy Hin. apply list_elem_of_singleton in Hin. subst y.
        now apply Hnew.
      * apply NoDup_singleton.
    + simpl. now rewrite app_nil_r.
Qed.

Lemma validar_capacidad_Ok c c' :
  _validar_capacidad c = Ok c' -> c' = c /\ (1 <= c <= 1000)%Z.
Proof.
  unfold _validar_capacidad.
  destruct (Z.leb_spec c 0); [discriminate|].
  destruct (c >? 1000)%Z eqn:E; [discriminate|].
  intros [= <-]. split; [reflexivity|]. rewrite Z.gtb_ltb in E.
  apply Z.ltb_ge in E. lia.
Qed.

Lemma Vuelo_init_Ok n o d f c v :
  Vuelo_init n o d f c = Ok v ->
  reservas v = [] /\ capacidad_total v = c /\ (1 <= c <= 1000)%Z
  /\ _validar_numero_vuelo (numero v) = Ok (numero v).
Proof.
  unfold Vuelo_init.
  destruct (_validar_numero_vuelo n) as [n'|] eqn:Hn; [|discriminate].
  destruct (_validar_ciudad o) as [o'|]; [|discriminate].
  destruct (_validar_ciudad d) as [d'|]; [|discriminate].
  destruct (_validar_fecha f) as [f'|]; [|discriminate].
  destruct (_validar_capacidad c) as [c'|] eqn:Hc; [|discriminate].
  intros [= <-]. simpl. apply validar_capacidad_Ok in Hc. destruct Hc as [-> Hc].
  repeat split; try lia. eapply validar_numero_idem, Hn.
Qed.

Lemma Vuelo_init_vuelo_ok n o d f c v h :
  Vuelo_init n o d f c = Ok v -> vuelo_ok h v.
Proof.
  intros H. apply Vuelo_init_Ok in H. destruct H as (Hr & Hc & Hrange & Hn).
  constructor; auto; rewrite Hr; simpl.
  - lia.
  - constructor.
Qed.

Lemma Pasajero_init_Ok n a d p :
  Pasajero_init n a d = Ok p ->
  _validar_nombre n = Ok (nombre p) /\ _validar_nombre a = Ok (apellido p)
  /\ _validar_documento d = Ok (documento p).
Proof.
  unfold Pasajero_init.
  destruct (_validar_nombre n) as [n'|]; [|discriminate].
  destruct (_validar_nombre a) as [a'|]; [|discriminate].
  destruct (_validar_documento d) as [d'|]; [|discriminate].
  intros [= <-]. auto.
Qed.

Lemma Pasajero_init_pasajero_ok n a d p :
  Pasajero_init n a d = Ok p -> pasajero_ok p.
Proof.
  intros H. apply Pasajero_init_Ok in H. destruct H as (_ & _ & H).
  eapply validar_documento_idem, H.
Qed.

Lemma inv_nuevo_pasajero w p :
  invariante w -> pasajero_ok p ->
  invariante (set_pasajeros_obj (pasajeros_obj w ++ [p]) w).
Proof.
  intros [[H1 H2 H3 H4 H5] Hv Hp] Hok.
  constructor; [constructor|..]; simpl; auto.
  - eapply Forall_impl; [exact H2|]. intros x [? ?]. medir.
  - eapply Forall_impl; [exact H3|]. intros r ?. medir.
  - apply Forall_app. split; [exact Hp|]. now apply Forall_singleton.
Qed.

Lemma inv_cambia_pasajero w i p :
  invariante w -> pasajero_ok p ->
  invariante (set_pasajeros_obj (<[i := p]> (pasajeros_obj w)) w).
Proof.
  intros [[H1 H2 H3 H4 H5] Hv Hp] Hok.
  constructor; [constructor|..]; simpl; auto.
  - eapply Forall_impl; [exact H2|]. intros x [? ?]. medir.
  - eapply Forall_impl; [exact H3|]. intros r ?. medir.
  - now apply Forall_insert.
Qed.

Lemma inv_nuevo_vuelo w v :
  invariante w -> reservas v = [] -> vuelo_ok (reservas_obj w) v ->
  invariante (set_vuelos_obj (vuelos_obj w ++ [v]) w).
Proof.
  intros [[H1 H2 H3 H4 H5] Hv Hp] Hr Hok.
  constructor; [constructor|..]; simpl; auto.
  - apply Forall_app. split; [exact H1|]. apply Forall_singleton.
    rewrite Hr. constructor.
  - eapply Forall_impl; [exact H2|]. intros x [? ?]. medir.
  - eapply Forall_impl; [exact H4|]. intros r ?. medir.
  - apply Forall_app. split; [exact Hv|]. now apply Forall_singleton.
Qed.

Lemma inv_nueva_reserva w x :
  invariante w ->
  vuelo x < length (vuelos_obj w) -> pasajero x < length (pasajeros_obj w) ->
  invariante (set_reservas_obj (reservas_obj w ++ [x]) w).
Proof.
  intros [[H1 H2 H3 H4 H5] Hv Hp] Hxv Hxp.
  constructor; [constructor|..]; simpl; auto.
  - eapply Forall_impl; [exact H1|]. intros v Hl.
    eapply Forall_impl; [exact Hl|]. intros r ?. medir.
  - apply Forall_app. split; [exact H2|]. now apply Forall_singleton.
  - eapply Forall_impl; [exact H5|]. intros r ?. medir.
  - apply Forall_lookup. intros i v Hi. apply vuelo_ok_nuevo.
    + eapply (Forall_lookup_1 _ _ _ _ H1 Hi).
    + eapply (Forall_lookup_1 _ _ _ _ Hv Hi).
Qed.

Lemma inv_cambia_reserva w r x x' :
  invariante w ->
  reservas_obj w !! r = Some x ->
  vuelo x' = vuelo x -> pasajero x' = pasajero x ->
  (estado x' = ACTIVA -> estado x = ACTIVA) ->
  invariante (set_reservas_obj (<[r := x']> (reservas_obj w)) w).
Proof.
  intros [[H1 H2 H3 H4 H5] Hv Hp] Hx Hxv Hxp He.
  constructor; [constructor|..]; simpl; auto.
  - eapply Forall_impl; [exact H1|]. intros v Hl.
    eapply Forall_impl; [exact Hl|]. intros r' ?. medir.
  - apply Forall_insert; [exact H2|]. rewrite Hxv, Hxp.
    eapply (Forall_lookup_1 _ _ _ _ H2 Hx).
  - eapply Forall_impl; [exact H5|]. intros r' ?. medir.
  - eapply Forall_impl; [exact Hv|]. intros v. now apply vuelo_ok_insert with x.
Qed.

Lemma inv_agrega_a_vuelo w f v r :
  invariante w ->
  vuelos_obj w !! f = Some v ->
  r < length (reservas_obj w) ->
  (Z.of_nat (length (activas (reservas_obj w) (reservas v))) < capacidad_total v)%Z ->
  (es_activa (reservas_obj w) r = true ->
   pasajero_de (reservas_obj w) r
     ∉ pasajero_de (reservas_obj w) <$> activas (reservas_obj w) (reservas v)) ->
  invariante (set_vuelos_obj
    (<[f := con_reservas v (reservas v ++ [r])]> (vuelos_obj w)) w).
Proof.
  intros [[H1 H2 H3 H4 H5] Hv Hp] Hf Hr Hc Hu.
  constructor; [constructor|..]; simpl; auto.
  - apply Forall_insert; [exact H1|]. simpl. apply Forall_app. split.
    + eapply (Forall_lookup_1 _ _ _ _ H1 Hf).
    + now apply Forall_singleton.
  - eapply Forall_impl; [exact H2|]. intros x [? ?]. medir.
  - eapply Forall_impl; [exact H4|]. intros r' ?. medir.
  - apply Forall_insert; [exact Hv|]. apply vuelo_ok_agregar; auto.
    eapply (Forall_lookup_1 _ _ _ _ Hv Hf).
Qed.

Lemma inv_gestor w g :
  invariante w ->
  Forall (fun r => r < length (pasajeros_obj w)) (_pasajeros g) ->
  Forall (fun r => r < length (vuelos_obj w)) (_vuelos g) ->
  Forall (fun r => r < length (reservas_obj w)) (_reservas g) ->
  invariante (set_gestor g w).
Proof.
  intros [[H1 H2 H3 H4 H5] Hv Hp] Hgp Hgv Hgr.
  constructor; [constructor|..]; simpl; auto.
Qed.

Lemma inv_registrar_pasajero w r :
  invariante w -> r < length (pasajeros_obj w) -> invariante (registrar_pasajero r w).
Proof.
  intros Hw Hr. pose proof (inv_bf _ Hw) as [H1 H2 H3 H4 H5].
  apply inv_gestor; simpl; auto.
  apply Forall_app. split; [exact H3|]. now apply Forall_singleton.
Qed.

Lemma inv_registrar_vuelo w r :
  invariante w -> r < length (vuelos_obj w) -> invariante (registrar_vuelo r w).
Proof.
  intros Hw Hr. pose proof (inv_bf _ Hw) as [H1 H2 H3 H4 H5].
  apply inv_gestor; simpl; auto.
  apply Forall_app. split; [exact H4|]. now apply Forall_singleton.
Qed.

Lemma inv_registrar_reserva w r :
  invariante w -> r < length (reservas_obj w) -> invariante (registrar_reserva r w).
Proof.
  intros Hw Hr. pose proof (inv_bf _ Hw) as [H1 H2 H3 H4 H5].
  apply inv_gestor; simpl; auto.
  apply Forall_app. split; [exact H5|]. now apply Forall_singleton.
Qed.

Lemma inv_inicio : invariante mundo_vacio.
Proof. repeat constructor. Qed.

End Preservacion.

(** ** The loops *)

Section Bucles.

Implicit Types (w : Mundo) (l : list ref).

Lemma str_eqb_true (a b : str) : str_eqb a b = true <-> a = b.
Proof. unfold str_eqb. apply bool_decide_eq_true. Qed.

Lemma str_eqb_false (a b : str) : str_eqb a b = false <-> a <> b.
Proof. unfold str_eqb. apply bool_decide_eq_false. Qed.

Lemma buscar_primero_None {A} (h : list A) clave l k :
  buscar_primero h clave l k = Some None <-> Forall (sin_clave h clave k) l.
Proof.
  induction l as [|r l IH]; cbn [buscar_primero].
  - split; [constructor|reflexivity].
  - rewrite Forall_cons. unfold sin_clave at 1.
    destruct (h !! r) as [x|]; cbn [mbind option_bind].
    + destruct (str_eqb (clave x) k) eqn:E.
      * apply str_eqb_true in E. split; [discriminate|].
        intros [(x' & [= <-] & Hne) _]. contradiction.
      * apply str_eqb_false in E. rewrite IH. split; [eauto|tauto].
    + split; [discriminate|]. intros [(x' & [=] & _) _].
Qed.

Lemma buscar_primero_Some {A} (h : list A) clave l k r :
  buscar_primero h clave l k = Some (Some r) <->
  exists l1 l2 x, l = l1 ++ r :: l2 /\ h !! r = Some x /\ clave x = k
    /\ Forall (sin_clave h clave k) l1.
Proof.
  revert r. induction l as [|r0 l IH]; intros r; cbn [buscar_primero].
  - split; [discriminate|]. intros (l1 & l2 & x & E & _).
    destruct l1; discriminate.
  - destruct (h !! r0) as [x0|] eqn:H0; cbn [mbind option_bind].
    + destruct (str_eqb (clave x0) k) eqn:E.
      * apply str_eqb_true in E. split.
        -- intros [= <-]. exists [], l, x0. repeat split; auto.
        -- intros (l1 & l2 & x & El & Hx & Hk & Hl1).
           destruct l1 as [|r1 l1]; simpl in El.
           ++ injection El as <- _. reflexivity.
           ++ injection El as <- _. apply Forall_cons in Hl1.
              destruct Hl1 as [(x' & Hx' & Hne) _]. congruence.
      * apply str_eqb_false in E. rewrite IH. split.
        -- intros (l1 & l2 & x & -> & Hx & Hk & Hl1).
           exists (r0 :: l1), l2, x. repeat split; auto.
           constructor; [exists x0; auto|exact Hl1].
        -- intros (l1 & l2 & x & El & Hx & Hk & Hl1).
           destruct l1 as [|r1 l1]; simpl in El.
           ++ injection El as <- _. congruence.
           ++ injection El as <- ->. apply Forall_cons in Hl1.
              exists l1, l2, x. tauto.
    + split; [discriminate|]. intros (l1 & l2 & x & El & Hx & Hk & Hl1).
      destruct l1 as [|r1 l1]; simpl in El.
      * injection El as <- _. congruence.
      * injection El as <- _. apply Forall_cons in Hl1.
        destruct Hl1 as [(x' & Hx' & _) _]. congruence.
Qed.

Lemma buscar_primero_total {A} (h : list A) clave l k :
  Forall (fun r => r < length h) l -> is_Some (buscar_primero h clave l k).
Proof.
  induction 1 as [|r l Hr _ IH]; cbn [buscar_primero]; [eauto|].
  destruct (lookup_lt_is_Some_2 h r Hr) as [x ->]. cbn [mbind option_bind].
  destruct (str_eqb (clave x) k); eauto.
Qed.

Lemma buscar_primero_en_rango {A} (h : list A) clave l k r :
  buscar_primero h clave l k = Some (Some r) -> r < length h /\ r ∈ l.
Proof.
  intros H. apply buscar_primero_Some in H.
  destruct H as (l1 & l2 & x & -> & Hx & _). split.
  - eapply lookup_lt_Some, Hx.
  - apply elem_of_app. right. constructor.
Qed.

Lemma ya_reservado_true w l p :
  ya_reservado w l p = Some true -> exists r, r ∈ l /\ misma_persona w p r.
Proof.
  induction l as [|r l IH]; cbn [ya_reservado]; [discriminate|].
  destruct (reservas_obj w !! r) as [x|] eqn:Hx; [|discriminate].
  cbn [mbind option_bind].
  destruct (pasajeros_obj w !! pasajero x) as [q|] eqn:Hq; [|discriminate].
  cbn [mbind option_bind].
  destruct (Pasajero_eq q (OPasajero p) && estado_eqb (estado x) ACTIVA) eqn:E.
  - intros _. apply andb_true_iff in E. destruct E as [E1 E2].
    apply str_eqb_true in E1. apply estado_eqb_eq in E2.
    exists r. split; [constructor|]. exists x, q. auto.
  - intros H. destruct (IH H) as (r' & Hin & Hr'). exists r'.
    split; [now constructor|exact Hr'].
Qed.

Lemma ya_reservado_false w l p :
  ya_reservado w l p = Some false -> forall r, r ∈ l -> ~ misma_persona w p r.
Proof.
  induction l as [|r l IH]; cbn [ya_reservado].
  - intros _ r Hin. inversion Hin.
  - destruct (reservas_obj w !! r) as [x|] eqn:Hx; [|discriminate].
    cbn [mbind option_bind].
    destruct (pasajeros_obj w !! pasajero x) as [q|] eqn:Hq; [|discriminate].
    cbn [mbind option_bind].
    destruct (Pasajero_eq q (OPasajero p) && estado_eqb (estado x) ACTIVA) eqn:E;
      [discriminate|].
    intros H r' Hin. apply elem_of_cons in Hin. destruct Hin as [->|Hin].
    + intros (x' & q' & Hx' & He & Hq' & Hd).
      rewrite Hx in Hx'. injection Hx' as <-.
      rewrite Hq in Hq'. injection Hq' as <-.
      apply andb_false_iff in E. destruct E as [E|E].
      * apply str_eqb_false in E. contradiction.
      * rewrite He in E. discriminate.
    + now apply IH.
Qed.

Lemma ya_reservado_total w l p :
  Forall (fun x => pasajero x < length (pasajeros_obj w)) (reservas_obj w) ->
  Forall (fun r => r < length (reservas_obj w)) l ->
  is_Some (ya_reservado w l p).
Proof.
  intros Hw. induction 1 as [|r l Hr _ IH]; cbn [ya_reservado]; [eauto|].
  destruct (lookup_lt_is_Some_2 _ r Hr) as [x Hx]. rewrite Hx.
  cbn [mbind option_bind].
  pose proof (Forall_lookup_1 _ _ _ _ Hw Hx) as Hp. simpl in Hp.
  destruct (lookup_lt_is_Some_2 _ _ Hp) as [q ->]. cbn [mbind option_bind].
  destruct (Pasajero_eq q (OPasajero p) && estado_eqb (estado x) ACTIVA); eauto.
Qed.

Lemma ya_reservado_ext w w' l p :
  pasajeros_obj w = pasajeros_obj w' ->
  (forall r, r ∈ l -> reservas_obj w !! r = reservas_obj w' !! r) ->
  ya_reservado w l p = ya_reservado w' l p.
Proof.
  intros Hp. induction l as [|r l IH]; intros Hl; cbn [ya_reservado];
    [reflexivity|].
  rewrite <- (Hl r) by constructor. rewrite <- Hp.
  rewrite IH by (intros r' Hr'; apply Hl; now constructor). reflexivity.
Qed.

Lemma ya_reservado_app w l1 l2 p :
  ya_reservado w (l1 ++ l2) p =
  match ya_reservado w l1 p with
  | Some false => ya_reservado w l2 p
  | o => o
  end.
Proof.
  induction l1 as [|r l1 IH]; cbn [ya_reservado app]; [reflexivity|].
  destruct (reservas_obj w !! r) as [x|]; [|reflexivity].
  cbn [mbind option_bind].
  destruct (pasajeros_obj w !! pasajero x) as [q|]; [|reflexivity].
  cbn [mbind option_bind].
  destruct (Pasajero_eq q (OPasajero p) && estado_eqb (estado x) ACTIVA);
    [reflexivity|exact IH].
Qed.

Lemma activas_ext (h h' : list Reserva) l :
  (forall r, r ∈ l -> h !! r = h' !! r) -> activas h l = activas h' l.
Proof.
  unfold activas. induction l as [|r l IH]; intros Hl; [reflexivity|].
  assert (E : es_activa h r = es_activa h' r).
  { unfold es_activa. rewrite (Hl r) by constructor. reflexivity. }
  rewrite !filter_cons, E.
  rewrite IH by (intros r' Hr'; apply Hl; now constructor). reflexivity.
Qed.

Lemma buscar_primero_ext {A} (h h' : list A) clave l k :
  clave <$> h = clave <$> h' ->
  buscar_primero h clave l k = buscar_primero h' clave l k.
Proof.
  intros E. induction l as [|r l IH]; cbn [buscar_primero]; [reflexivity|].
  assert (Hr : clave <$> h !! r = clave <$> h' !! r)
    by (rewrite <- !list_lookup_fmap; now rewrite E).
  destruct (h !! r) as [x|], (h' !! r) as [x'|]; simpl in Hr; try discriminate;
    cbn [mbind option_bind]; [|reflexivity].
  injection Hr as ->. now rewrite IH.
Qed.

End Bucles.

(** ** The methods, unfolded *)

Section Operaciones.
Context {R : PyRuntime}.

Implicit Types (w : Mundo).

Lemma Pasajero_new_eq n a d w :
  Pasajero_new n a d w =
  match Pasajero_init n a d with
  | Raise e => Some (Raise e, w)
  | Ok p => Some (Ok (length (pasajeros_obj w)),
                  set_pasajeros_obj (pasajeros_obj w ++ [p]) w)
  end.
Proof. unfold Pasajero_new. destruct (Pasajero_init n a d); reflexivity. Qed.

Lemma Vuelo_new_eq n o d f c w :
  Vuelo_new n o d f c w =
  match Vuelo_init n o d f c with
  | Raise e => Some (Raise e, w)
  | Ok v => Some (Ok (length (vuelos_obj w)),
                  set_vuelos_obj (vuelos_obj w ++ [v]) w)
  end.
Proof. unfold Vuelo_new. destruct (Vuelo_init n o d f c); reflexivity. Qed.

Lemma Reserva_new_eq v p t w :
  Reserva_new v p t w =
  match vuelos_obj w !! v, pasajeros_obj w !! p with
  | Some _, Some _ =>
      Some (Ok (length (reservas_obj w)),
            set_reservas_obj (reservas_obj w ++ [mkReserva v p ACTIVA t]) w)
  | _, _ => None
  end.
Proof.
  unfold Reserva_new. rewrite bind_leer.
  destruct (vuelos_obj w !! v); [|reflexivity]. rewrite bind_leer.
  destruct (pasajeros_obj w !! p); reflexivity.
Qed.

Lemma en_reserva_eq f r w :
  en_reserva f r w =
  match reservas_obj w !! r with
  | None => None
  | Some x =>
      match f x with
      | Raise e => Some (Raise e, w)
      | Ok x' => Some (Ok tt, set_reservas_obj (<[r := x']> (reservas_obj w)) w)
      end
  end.
Proof.
  unfold en_reserva. rewrite bind_leer.
  destruct (reservas_obj w !! r) as [x|]; [|reflexivity].
  destruct (f x); reflexivity.
Qed.

Lemma agregar_reserva_eq f r w :
  agregar_reserva f r w =
  match capacidad_disponible f w with
  | None => None
  | Some c =>
      if (c <=? 0)%Z then
        Some (Raise (ReservaException "No hay capacidad disponible en este vuelo"), w)
      else
        match vuelos_obj w !! f with
        | None => None
        | Some v =>
        match reservas_obj w !! r with
        | None => None
        | Some x =>
        match pasajeros_obj w !! pasajero x with
        | None => None
        | Some p =>
        match ya_reservado w (reservas v) p with
        | None => None
        | Some true =>
            Some (Raise (ReservaException
              "Este pasajero ya tiene una reserva activa en este vuelo"), w)
        | Some false =>
            Some (Ok tt, set_vuelos_obj
              (<[f := con_reservas v (reservas v ++ [r])]> (vuelos_obj w)) w)
        end end end end
  end.
Proof.
  unfold agregar_reserva. rewrite bind_leer.
  destruct (capacidad_disponible f w) as [c|]; [|reflexivity].
  destruct (c <=? 0)%Z; [reflexivity|]. rewrite bind_leer.
  destruct (vuelos_obj w !! f) as [v|]; [|reflexivity]. rewrite bind_leer.
  destruct (reservas_obj w !! r) as [x|]; [|reflexivity]. rewrite bind_leer.
  destruct (pasajeros_obj w !! pasajero x) as [p|]; [|reflexivity].
  rewrite bind_leer.
  destruct (ya_reservado w (reservas v) p) as [[|]|]; reflexivity.
Qed.

Lemma agregar_pasajero_eq n a d w :
  agregar_pasajero n a d w =
  match buscar_pasajero_por_documento d w with
  | None => None
  | Some (Some _) =>
      Some (Raise (ReservaException "Ya existe un pasajero con ese documento"), w)
  | Some None =>
      match Pasajero_init n a d with
      | Raise e => Some (Raise e, w)
      | Ok p =>
          Some (Ok (length (pasajeros_obj w)),
                registrar_pasajero (length (pasajeros_obj w))
                  (set_pasajeros_obj (pasajeros_obj w ++ [p]) w))
      end
  end.
Proof.
  unfold agregar_pasajero. rewrite bind_leer.
  destruct (buscar_pasajero_por_documento d w) as [[r|]|]; try reflexivity.
  all: unfold bind at 1; rewrite Pasajero_new_eq.
  all: destruct (Pasajero_init n a d); reflexivity.
Qed.

Lemma crear_reserva_eq nv dp t w :
  crear_reserva nv dp t w =
  match buscar_pasajero_por_documento dp w with
  | None => None
  | Some None => Some (Raise (ReservaException "Pasajero no encontrado"), w)
  | Some (Some p) =>
      match buscar_vuelo_por_numero nv w with
      | None => None
      | Some None => Some (Raise (ReservaException "Vuelo no encontrado"), w)
      | Some (Some v) =>
          match Reserva_new v p t w with
          | None => None
          | Some (Raise e, w1) => Some (Raise e, w1)
          | Some (Ok r, w1) =>
              match agregar_reserva v r w1 with
              | None => None
              | Some (Raise e, w2) => Some (Raise e, w2)
              | Some (Ok _, w2) => Some (Ok r, registrar_reserva r w2)
              end
          end
      end
  end.
Proof.
  unfold crear_reserva. rewrite bind_leer.
  destruct (buscar_pasajero_por_documento dp w) as [[p|]|]; try reflexivity.
  all: rewrite bind_leer.
  all: destruct (buscar_vuelo_por_numero nv w) as [[v|]|]; try reflexivity.
  all: unfold bind at 1.
  all: destruct (Reserva_new v p t w) as [[[r|e] w1]|]; try reflexivity.
  all: unfold bind at 1.
  all: destruct (agregar_reserva v r w1) as [[[[]|e] w2]|]; reflexivity.
Qed.

Lemma capacidad_disponible_eq f w v :
  vuelos_obj w !! f = Some v ->
  Forall (fun r => r < length (reservas_obj w)) (reservas v) ->
  capacidad_disponible f w
  = Some (capacidad_total v
          - Z.of_nat (length (activas (reservas_obj w) (reservas v))))%Z.
Proof.
  intros Hv Hl. unfold capacidad_disponible. rewrite Hv.
  cbn [mbind option_bind]. rewrite (reservas_activas_total _ _ Hl). reflexivity.
Qed.

Lemma capacidad_disponible_Some f w c :
  capacidad_disponible f w = Some c ->
  exists v, vuelos_obj w !! f = Some v
    /\ Forall (fun r => r < length (reservas_obj w)) (reservas v)
    /\ c = (capacidad_total v
            - Z.of_nat (length (activas (reservas_obj w) (reservas v))))%Z.
Proof.
  unfold capacidad_disponible.
  destruct (vuelos_obj w !! f) as [v|]; [|discriminate]. cbn [mbind option_bind].
  destruct (reservas_activas (reservas_obj w) (reservas v)) as [a|] eqn:Ha;
    [|discriminate].
  cbn [mbind option_bind]. intros [= <-].
  apply reservas_activas_Some in Ha. destruct Ha as [-> Hl]. eauto.
Qed.

End Operaciones.

(** ** Every call keeps the invariant *)

Section Conservacion.
Context {R : PyRuntime}.

Implicit Types (w : Mundo).

Lemma Pasajero_new_conserva n a d w o w' :
  invariante w -> Pasajero_new n a d w = Some (o, w') ->
  invariante w' /\ forall r, o = Ok r -> r < length (pasajeros_obj w').
Proof.
  intros Hw H. rewrite Pasajero_new_eq in H.
  destruct (Pasajero_init n a d) as [p|e] eqn:Hp; simplify_eq.
  - split.
    + apply inv_nuevo_pasajero; [exact Hw|].
      eapply Pasajero_init_pasajero_ok, Hp.
    + intros r [= <-]. simpl. medir.
  - split; [exact Hw|discriminate].
Qed.

Lemma Vuelo_new_conserva n o d f c w res w' :
  invariante w -> Vuelo_new n o d f c w = Some (res, w') ->
  invariante w' /\ forall r, res = Ok r -> r < length (vuelos_obj w').
Proof.
  intros Hw H. rewrite Vuelo_new_eq in H.
  destruct (Vuelo_init n o d f c) as [v|e] eqn:Hv; simplify_eq.
  - split.
    + apply inv_nuevo_vuelo; [exact Hw| |eapply Vuelo_init_vuelo_ok, Hv].
      apply Vuelo_init_Ok in Hv. tauto.
    + intros r [= <-]. simpl. medir.
  - split; [exact Hw|discriminate].
Qed.

Lemma setter_conserva (valida : str -> result str)
    (pone : Pasajero -> str -> Pasajero) self valor w o w' :
  (forall p s, valida valor = Ok s -> pasajero_ok p -> pasajero_ok (pone p s)) ->
  invariante w ->
  (p <- leer (fun w => pasajeros_obj w !! self);;
   match valida valor with
   | Raise e => raise e
   | Ok s => modificar (fun w => set_pasajeros_obj
               (<[self := pone p s]> (pasajeros_obj w)) w)
   end)%M w = Some (o, w') ->
  invariante w'.
Proof.
  intros Hpone Hw H. rewrite bind_leer in H.
  destruct (pasajeros_obj w !! self) as [p|] eqn:Hp; [|discriminate].
  destruct (valida valor) as [s|e] eqn:Hs; unfold raise, modificar in H;
    simplify_eq; [|exact Hw].
  apply inv_cambia_pasajero; [exact Hw|]. apply Hpone; [reflexivity|].
  eapply (Forall_lookup_1 _ _ _ _ (inv_pasajeros _ Hw) Hp).
Qed.

Lemma Reserva_new_conserva v p t w o w' :
  invariante w -> Reserva_new v p t w = Some (o, w') ->
  invariante w' /\ forall r, o = Ok r -> r < length (reservas_obj w').
Proof.
  intros Hw H. rewrite Reserva_new_eq in H.
  destruct (vuelos_obj w !! v) eqn:Hv; [|discriminate].
  destruct (pasajeros_obj w !! p) eqn:Hp; [|discriminate].
  simplify_eq. split.
  - apply inv_nueva_reserva; [exact Hw|..]; simpl.
    + eapply lookup_lt_Some, Hv.
    + eapply lookup_lt_Some, Hp.
  - intros r [= <-]. simpl. medir.
Qed.

Lemma en_reserva_conserva f r w o w' :
  (forall x x', f x = Ok x' ->
     vuelo x' = vuelo x /\ pasajero x' = pasajero x
     /\ (estado x' = ACTIVA -> estado x = ACTIVA)) ->
  invariante w -> en_reserva f r w = Some (o, w') -> invariante w'.
Proof.
  intros Hf Hw H. rewrite en_reserva_eq in H.
  destruct (reservas_obj w !! r) as [x|] eqn:Hx; [|discriminate].
  destruct (f x) as [x'|e] eqn:Hfx; simplify_eq; [|exact Hw].
  destruct (Hf _ _ Hfx) as (H1 & H2 & H3).
  now apply inv_cambia_reserva with x.
Qed.

Lemma Reserva_cancelar_Ok x x' :
  Reserva_cancelar x = Ok x' ->
  estado x = ACTIVA
  /\ x' = mkReserva (vuelo x) (pasajero x) CANCELADA (fecha_reserva x).
Proof.
  unfold Reserva_cancelar. destruct (estado x); simpl; [|discriminate..].
  intros [= <-]. auto.
Qed.

Lemma Reserva_completar_Ok x x' :
  Reserva_completar x = Ok x' ->
  estado x = ACTIVA
  /\ x' = mkReserva (vuelo x) (pasajero x) COMPLETADA (fecha_reserva x).
Proof.
  unfold Reserva_completar. destruct (estado x); simpl; [|discriminate..].
  intros [= <-]. auto.
Qed.

Lemma cancelar_conserva r w o w' :
  invariante w -> cancelar r w = Some (o, w') -> invariante w'.
Proof.
  apply en_reserva_conserva. intros x x' H.
  apply Reserva_cancelar_Ok in H. destruct H as [H ->]. simpl. auto.
Qed.

Lemma completar_conserva r w o w' :
  invariante w -> completar r w = Some (o, w') -> invariante w'.
Proof.
  apply en_reserva_conserva. intros x x' H.
  apply Reserva_completar_Ok in H. destruct H as [H ->]. simpl. auto.
Qed.

(** The reservation that passes both checks of [agregar_reserva] names a
    passenger none of the active entries names. *)
Lemma pasajero_nuevo_en_vuelo w l r x p :
  reservas_obj w !! r = Some x ->
  pasajeros_obj w !! pasajero x = Some p ->
  ya_reservado w l p = Some false ->
  pasajero_de (reservas_obj w) r
    ∉ pasajero_de (reservas_obj w) <$> activas (reservas_obj w) l.
Proof.
  intros Hx Hp Hya Hin.
  apply list_elem_of_fmap in Hin. destruct Hin as (r' & E & Hr').
  unfold activas in Hr'. apply list_elem_of_filter in Hr'.
  destruct Hr' as [Ha Hl]. apply es_activa_true in Ha.
  destruct Ha as (x' & Hx' & Hact).
  unfold pasajero_de in E. rewrite Hx, Hx' in E. simpl in E. injection E as E.
  apply (ya_reservado_false _ _ _ Hya r' Hl).
  exists x', p. rewrite <- E. auto.
Qed.

Lemma agregar_reserva_conserva f r w o w' :
  invariante w -> agregar_reserva f r w = Some (o, w') -> invariante w'.
Proof.
  intros Hw H. rewrite agregar_reserva_eq in H.
  destruct (capacidad_disponible f w) as [c|] eqn:Hc; [|discriminate].
  destruct (Z.leb_spec c 0); [simplify_eq; exact Hw|].
  apply capacidad_disponible_Some in Hc. destruct Hc as (v & Hv & Hl & ->).
  rewrite Hv in H.
  destruct (reservas_obj w !! r) as [x|] eqn:Hx; [|discriminate].
  destruct (pasajeros_obj w !! pasajero x) as [p|] eqn:Hp; [|discriminate].
  destruct (ya_reservado w (reservas v) p) as [[|]|] eqn:Hya; simplify_eq;
    [exact Hw|].
  apply inv_agrega_a_vuelo; auto.
  - eapply lookup_lt_Some, Hx.
  - lia.
  - intros _. eapply pasajero_nuevo_en_vuelo; eauto.
Qed.

Lemma agregar_pasajero_conserva n a d w o w' :
  invariante w -> agregar_pasajero n a d w = Some (o, w') -> invariante w'.
Proof.
  intros Hw H. rewrite agregar_pasajero_eq in H.
  destruct (buscar_pasajero_por_documento d w) as [[r|]|]; simplify_eq;
    [exact Hw|].
  destruct (Pasajero_init n a d) as [p|e] eqn:Hp; simplify_eq; [|exact Hw].
  apply inv_registrar_pasajero.
  - apply inv_nuevo_pasajero; [exact Hw|]. eapply Pasajero_init_pasajero_ok, Hp.
  - simpl. medir.
Qed.

Lemma crear_reserva_conserva nv dp t w o w' :
  invariante w -> crear_reserva nv dp t w = Some (o, w') -> invariante w'.
Proof.
  intros Hw H. rewrite crear_reserva_eq in H.
  destruct (buscar_pasajero_por_documento dp w) as [[p|]|]; simplify_eq;
    [|exact Hw].
  destruct (buscar_vuelo_por_numero nv w) as [[v|]|]; simplify_eq; [|exact Hw].
  destruct (Reserva_new v p t w) as [[[r|e] w1]|] eqn:H1; simplify_eq.
  - destruct (Reserva_new_conserva _ _ _ _ _ _ Hw H1) as [Hw1 Hr].
    specialize (Hr r eq_refl).
    destruct (agregar_reserva v r w1) as [[[[]|e] w2]|] eqn:H2; simplify_eq.
    + pose proof (agregar_reserva_conserva _ _ _ _ _ Hw1 H2) as Hw2.
      apply inv_registrar_reserva; [exact Hw2|].
      rewrite agregar_reserva_eq in H2. repeat case_match; simplify_eq.
      simpl. exact Hr.
    + eapply agregar_reserva_conserva; eauto.
  - eapply Reserva_new_conserva; eauto.
Qed.

Lemma inicializar_datos_conserva w o w' :
  invariante w -> _inicializar_datos w = Some (o, w') -> invariante w'.
Proof.
  intros Hw H. unfold _inicializar_datos in H.
  apply bind_Some in H. destruct H as [(e & H & _)|(a & w1 & H & H')].
  - revert H. apply (para_cada_prop invariante); [|exact Hw].
    intros [[n ap] d]. apply (salvo_ValueError_prop invariante).
    intros w2 o2 w2' Hw2 H2.
    apply bind_Some in H2. destruct H2 as [(e2 & H2 & _)|(r & w3 & H2 & H3)].
    + eapply Pasajero_new_conserva; eauto.
    + destruct (Pasajero_new_conserva _ _ _ _ _ _ Hw2 H2) as [Hw3 Hr].
      unfold modificar in H3. simplify_eq.
      apply inv_registrar_pasajero; auto.
  - assert (Hw1 : invariante w1).
    { revert H. apply (para_cada_prop invariante); [|exact Hw].
      intros [[n ap] d]. apply (salvo_ValueError_prop invariante).
      intros w2 o2 w2' Hw2 H2.
      apply bind_Some in H2. destruct H2 as [(e2 & H2 & _)|(r & w3 & H2 & H3)].
      + eapply Pasajero_new_conserva; eauto.
      + destruct (Pasajero_new_conserva _ _ _ _ _ _ Hw2 H2) as [Hw3 Hr].
        unfold modificar in H3. simplify_eq.
        apply inv_registrar_pasajero; auto. }
    revert H'. apply (para_cada_prop invariante); [|exact Hw1].
    intros [[[[n og] ds] fe] c]. apply (salvo_ValueError_prop invariante).
    intros w2 o2 w2' Hw2 H2.
    apply bind_Some in H2. destruct H2 as [(e2 & H2 & _)|(r & w3 & H2 & H3)].
    + eapply Vuelo_new_conserva; eauto.
    + destruct (Vuelo_new_conserva _ _ _ _ _ _ _ _ Hw2 H2) as [Hw3 Hr].
      unfold modificar in H3. simplify_eq.
      apply inv_registrar_vuelo; auto.
Qed.

Lemma GestorReservas_new_conserva w o w' :
  invariante w -> GestorReservas_new w = Some (o, w') -> invariante w'.
Proof.
  intros Hw H. unfold GestorReservas_new in H.
  destruct (_initialized (gestor w)); [simplify_eq; exact Hw|].
  rewrite bind_modificar in H.
  apply bind_Some in H. destruct H as [(e & H & _)|([] & w1 & H & H')].
  - revert H. apply inicializar_datos_conserva.
    apply inv_gestor; simpl; auto.
  - unfold modificar in H'. simplify_eq.
    assert (Hw1 : invariante w1).
    { revert H. apply inicializar_datos_conserva. apply inv_gestor; simpl; auto. }
    pose proof (inv_bf _ Hw1) as [H1 H2 H3 H4 H5].
    apply inv_gestor; simpl; auto.
Qed.

Lemma ejecutar_conserva c w w' :
  invariante w -> ejecutar c w = Some w' -> invariante w'.
Proof.
  intros Hw. destruct c; simpl; unfold efecto;
    match goal with |- context [match ?m w with _ => _ end] =>
      destruct (m w) as [[o w1]|] eqn:E; [|discriminate]
    end; intros [= <-].
  - eapply Pasajero_new_conserva; eauto.
  - revert E. apply (setter_conserva _validar_nombre
      (fun q s => mkPasajero s (apellido q) (documento q))); auto.
  - revert E. apply (setter_conserva _validar_nombre
      (fun q s => mkPasajero (nombre q) s (documento q))); auto.
  - revert E. apply (setter_conserva _validar_documento
      (fun q s => mkPasajero (nombre q) (apellido q) s)); auto.
    intros q s Hs _. unfold pasajero_ok. simpl.
    eapply validar_documento_idem, Hs.
  - eapply Vuelo_new_conserva; eauto.
  - eapply Reserva_new_conserva; eauto.
  - eapply agregar_reserva_conserva; eauto.
  - eapply cancelar_conserva; eauto.
  - eapply completar_conserva; eauto.
  - eapply GestorReservas_new_conserva; eauto.
  - eapply agregar_pasajero_conserva; eauto.
  - eapply crear_reserva_conserva; eauto.
Qed.

Lemma alcanzable_invariante w : alcanzable w -> invariante w.
Proof.
  induction 1 as [|w c w' _ IH H]; [apply inv_inicio|].
  eapply ejecutar_conserva; eauto.
Qed.

End Conservacion.

(** ** The claims about the registry *)

Section Registro.
Context {R : PyRuntime}.

Implicit Types (w : Mundo).

Lemma correr_alcanzable cs w w' :
  alcanzable w -> correr cs w = Some w' -> alcanzable w'.
Proof.
  revert w. induction cs as [|c cs IH]; intros w Hw; simpl.
  - intros [= <-]. exact Hw.
  - destruct (ejecutar c w) as [w1|] eqn:E; [|discriminate].
    apply IH. eapply alc_paso; eauto.
Qed.

(** C2.  In every world the public calls can reach, the available capacity
    of every flight is its total capacity minus the number of entries of its
    list that are active, and it is not negative.  It is a function of the
    list and of the states of the reservations: [Vuelo] has no counter. *)
Theorem capacidad_disponible_invariante w f v :
  alcanzable w -> vuelos_obj w !! f = Some v ->
  capacidad_disponible f w
  = Some (capacidad_total v
          - Z.of_nat (length (activas (reservas_obj w) (reservas v))))%Z
  /\ (0 <= capacidad_total v
          - Z.of_nat (length (activas (reservas_obj w) (reservas v))))%Z.
Proof.
  intros Hw Hv. apply alcanzable_invariante in Hw.
  pose proof (Forall_lookup_1 _ _ _ _ (bf_vuelos _ (inv_bf _ Hw)) Hv) as Hl.
  pose proof (Forall_lookup_1 _ _ _ _ (inv_vuelos _ Hw) Hv) as [Hc _ _].
  split; [now apply capacidad_disponible_eq|lia].
Qed.

(** C10.  Both lookups compare the argument as it is with the stored keys
    and return the first match in insertion order; the stored keys being
    normalised, an argument that needs trimming or upper-casing to become
    its normal form finds nothing. *)
Theorem busqueda_literal :
  (forall w d r,
      buscar_pasajero_por_documento d w = Some (Some r) <->
      exists l1 l2 p, _pasajeros (gestor w) = l1 ++ r :: l2
        /\ pasajeros_obj w !! r = Some p /\ documento p = d
        /\ Forall (sin_clave (pasajeros_obj w) documento d) l1)
  /\ (forall w n r,
      buscar_vuelo_por_numero n w = Some (Some r) <->
      exists l1 l2 v, _vuelos (gestor w) = l1 ++ r :: l2
        /\ vuelos_obj w !! r = Some v /\ numero v = n
        /\ Forall (sin_clave (vuelos_obj w) numero n) l1)
  /\ (forall w q k,
      alcanzable w -> _validar_documento q = Ok k -> q <> k ->
      buscar_pasajero_por_documento q w = Some None)
  /\ (forall w q k,
      alcanzable w -> _validar_numero_vuelo q = Ok k -> q <> k ->
      buscar_vuelo_por_numero q w = Some None).
Proof.
  split; [|split; [|split]].
  - intros w d r. apply buscar_primero_Some.
  - intros w n r. apply buscar_primero_Some.
  - intros w q k Hw Hq Hne. apply alcanzable_invariante in Hw.
    apply buscar_primero_None.
    eapply Forall_impl; [exact (bf_gestor_pasajeros _ (inv_bf _ Hw))|].
    intros r Hr. destruct (lookup_lt_is_Some_2 _ _ Hr) as [p Hp].
    exists p. split; [exact Hp|]. intros E.
    pose proof (Forall_lookup_1 _ _ _ _ (inv_pasajeros _ Hw) Hp) as Hok.
    unfold pasajero_ok in Hok. rewrite E in Hok. congruence.
  - intros w q k Hw Hq Hne. apply alcanzable_invariante in Hw.
    apply buscar_primero_None.
    eapply Forall_impl; [exact (bf_gestor_vuelos _ (inv_bf _ Hw))|].
    intros r Hr. destruct (lookup_lt_is_Some_2 _ _ Hr) as [v Hv].
    exists v. split; [exact Hv|]. intros E.
    pose proof (Forall_lookup_1 _ _ _ _ (inv_vuelos _ Hw) Hv) as [_ _ Hok].
    rewrite E in Hok. congruence.
Qed.


Lemma validar_documento_Ok d k : _validar_documento d = Ok k -> k = strip d.
Proof.
  unfold _validar_documento. repeat case_match; intros; simplify_eq. reflexivity.
Qed.

(** The check of [agregar_pasajero] does keep the documents of the registry
    distinct when the document it is given needs no trimming. *)
Lemma agregar_pasajero_recortado w n a d o w' :
  Forall (fun r => r < length (pasajeros_obj w)) (_pasajeros (gestor w)) ->
  documento_unico w -> strip d = d ->
  agregar_pasajero n a d w = Some (o, w') -> documento_unico w'.
Proof.
  intros Hbf Hu Hd H. rewrite agregar_pasajero_eq in H.
  unfold buscar_pasajero_por_documento in H.
  destruct (buscar_primero (pasajeros_obj w) documento (_pasajeros (gestor w)) d)
    as [[r|]|] eqn:Hb; simplify_eq; [exact Hu|].
  destruct (Pasajero_init n a d) as [p|e] eqn:Hp; simplify_eq; [|exact Hu].
  apply buscar_primero_None in Hb.
  apply Pasajero_init_Ok in Hp. destruct Hp as (_ & _ & Hp).
  apply validar_documento_Ok in Hp. rewrite Hd in Hp.
  assert (Hviejo : forall r q, r ∈ _pasajeros (gestor w) ->
            (pasajeros_obj w ++ [p]) !! r = Some q ->
            pasajeros_obj w !! r = Some q /\ documento q <> d).
  { intros r q Hr Hq.
    pose proof (proj1 (Forall_forall _ _) Hbf r Hr) as Hlt. cbv beta in Hlt.
    rewrite lookup_app_l in Hq by exact Hlt. split; [exact Hq|].
    destruct (proj1 (Forall_forall _ _) Hb r Hr) as (q' & Hq' & Hne). congruence. }
  assert (Hnuevo : forall r q, r ∈ [length (pasajeros_obj w)] ->
            (pasajeros_obj w ++ [p]) !! r = Some q ->
            r = length (pasajeros_obj w) /\ documento q = d).
  { intros r q Hr Hq. apply list_elem_of_singleton in Hr. subst r.
    rewrite (list_lookup_middle _ [] _ _ eq_refl) in Hq. injection Hq as <-. auto. }
  intros r1 r2 p1 p2. simpl. rewrite !elem_of_app.
  intros [H1|H1] [H2|H2] Hp1 Hp2 E.
  - destruct (Hviejo _ _ H1 Hp1) as [Hq1 _]. destruct (Hviejo _ _ H2 Hp2) as [Hq2 _].
    eapply Hu; eauto.
  - destruct (Hviejo _ _ H1 Hp1) as [_ Hne]. destruct (Hnuevo _ _ H2 Hp2) as [_ He].
    congruence.
  - destruct (Hnuevo _ _ H1 Hp1) as [_ He]. destruct (Hviejo _ _ H2 Hp2) as [_ Hne].
    congruence.
  - destruct (Hnuevo _ _ H1 Hp1) as [-> _]. destruct (Hnuevo _ _ H2 Hp2) as [-> _].
    reflexivity.
Qed.

End Registro.

(** ** Booking *)

Section Reservar.
Context {R : PyRuntime}.

Implicit Types (w : Mundo).

Lemma bf_pasajeros_de_reservas w :
  bien_formado w ->
  Forall (fun x => pasajero x < length (pasajeros_obj w)) (reservas_obj w).
Proof.
  intros Hw. eapply Forall_impl; [exact (bf_reservas _ Hw)|]. intros x [_ H].
  exact H.
Qed.

(** A fresh reservation for flight [f] and passenger [p], and its insertion
    in the list of [f], in terms of the world before. *)
Lemma reservar_nuevo w f p v q t :
  bien_formado w -> vuelos_obj w !! f = Some v -> pasajeros_obj w !! p = Some q ->
  let h := reservas_obj w in
  let w1 := set_reservas_obj (h ++ [mkReserva f p ACTIVA t]) w in
  exists b, ya_reservado w (reservas v) q = Some b
    /\ Reserva_new f p t w = Some (Ok (length h), w1)
    /\ agregar_reserva f (length h) w1 =
       if (capacidad_total v - Z.of_nat (length (activas h (reservas v))) <=? 0)%Z
       then Some (Raise sin_capacidad, w1)
       else if b then Some (Raise ya_tiene_reserva, w1)
       else Some (Ok tt, set_vuelos_obj
              (<[f := con_reservas v (reservas v ++ [length h])]> (vuelos_obj w)) w1).
Proof.
  intros Hw Hv Hq h w1.
  pose proof (Forall_lookup_1 _ _ _ _ (bf_vuelos _ Hw) Hv) as Hl.
  assert (Hv1 : vuelos_obj w1 !! f = Some v) by exact Hv.
  assert (Hl1 : Forall (fun r => r < length (reservas_obj w1)) (reservas v)).
  { eapply Forall_impl; [exact Hl|]. intros r Hr. subst w1 h. simpl. medir. }
  destruct (ya_reservado_total w (reservas v) q (bf_pasajeros_de_reservas _ Hw) Hl)
    as [b Hb].
  exists b. split; [exact Hb|]. split.
  - rewrite Reserva_new_eq, Hv, Hq. reflexivity.
  - rewrite agregar_reserva_eq.
    rewrite (capacidad_disponible_eq f w1 v Hv1 Hl1). subst w1 h.
    cbn [reservas_obj vuelos_obj pasajeros_obj set_reservas_obj].
    rewrite (activas_nuevo _ _ _ Hl).
    destruct (_ <=? 0)%Z; [reflexivity|].
    rewrite Hv, (list_lookup_middle (reservas_obj w) [] _ _ eq_refl).
    cbn [pasajero]. rewrite Hq.
    rewrite (ya_reservado_ext _ w (reservas v) q).
    + rewrite Hb. destruct b; reflexivity.
    + reflexivity.
    + intros r Hr. simpl. apply lookup_app_l.
      eapply (proj1 (Forall_forall _ _) Hl), Hr.
Qed.


(** C9.  [agregar_reserva] on flight [f] with a reservation made for another
    flight [g] looks at the capacity of [f] and at the active entries of [f]
    for an equal passenger, and at nothing else; when both checks pass the
    reservation joins the list of [f], and an active one takes a seat of
    [f]. *)
Theorem agregar_reserva_ignora_vuelo w f g r x v p :
  bien_formado w -> f <> g ->
  vuelos_obj w !! f = Some v -> reservas_obj w !! r = Some x -> vuelo x = g ->
  pasajeros_obj w !! pasajero x = Some p ->
  let c := (capacidad_total v
            - Z.of_nat (length (activas (reservas_obj w) (reservas v))))%Z in
  let w' := set_vuelos_obj
              (<[f := con_reservas v (reservas v ++ [r])]> (vuelos_obj w)) w in
  ((c <= 0)%Z /\ agregar_reserva f r w = Some (Raise sin_capacidad, w))
  \/ ((0 < c)%Z /\ (exists r', r' ∈ reservas v /\ misma_persona w p r')
      /\ agregar_reserva f r w = Some (Raise ya_tiene_reserva, w))
  \/ ((0 < c)%Z /\ (forall r', r' ∈ reservas v -> ~ misma_persona w p r')
      /\ agregar_reserva f r w = Some (Ok tt, w')
      /\ capacidad_disponible f w'
         = Some (c - (if estado_eqb (estado x) ACTIVA then 1 else 0))%Z).
Proof.
  intros Hw _ Hv Hx _ Hp c w'.
  pose proof (Forall_lookup_1 _ _ _ _ (bf_vuelos _ Hw) Hv) as Hl.
  rewrite agregar_reserva_eq, (capacidad_disponible_eq f w v Hv Hl). fold c.
  destruct (Z.leb_spec c 0) as [Hc|Hc]; [left; auto|right].
  rewrite Hv, Hx, Hp.
  destruct (ya_reservado_total w (reservas v) p (bf_pasajeros_de_reservas _ Hw) Hl)
    as [b Hb].
  rewrite Hb. destruct b.
  - left. split; [exact Hc|]. split; [|reflexivity].
    now apply ya_reservado_true.
  - right. split; [exact Hc|]. split; [now apply ya_reservado_false|].
    split; [reflexivity|].
    assert (Hf : f < length (vuelos_obj w)) by (eapply lookup_lt_Some, Hv).
    rewrite (capacidad_disponible_eq f w' (con_reservas v (reservas v ++ [r]))).
    + subst w' c. simpl. rewrite activas_snoc, length_app.
      rewrite (es_activa_Some _ _ _ Hx).
      destruct (estado_eqb (estado x) ACTIVA); simpl; f_equal; lia.
    + subst w'. simpl. now apply list_lookup_insert_eq.
    + subst w'. simpl. apply Forall_app. split; [exact Hl|].
      apply Forall_singleton. eapply lookup_lt_Some, Hx.
Qed.

End Reservar.

(** ** The life of a reservation *)

Section Historia.
Context {R : PyRuntime}.

Implicit Types (w : Mundo) (h : list Reserva).

Lemma historia_refl h : historia h h.
Proof. intros r x Hx. exists x. repeat split; auto. Qed.

Lemma historia_trans h1 h2 h3 : historia h1 h2 -> historia h2 h3 -> historia h1 h3.
Proof.
  intros H12 H23 r x Hx.
  destruct (H12 r x Hx) as (x2 & Hx2 & Hv2 & Hp2 & Hf2 & He2).
  destruct (H23 r x2 Hx2) as (x3 & Hx3 & Hv3 & Hp3 & Hf3 & He3).
  exists x3. repeat split; try congruence.
  destruct He2 as [He2|He2]; [|now right].
  destruct He3 as [He3|He3]; [left|right]; congruence.
Qed.

Lemma historia_nuevo h x : historia h (h ++ [x]).
Proof.
  intros r y Hy. exists y. rewrite lookup_app_l_Some with (x := y) by exact Hy.
  repeat split; auto.
Qed.

Lemma historia_igual h h' : h' = h -> historia h h'.
Proof. intros ->. apply historia_refl. Qed.

Lemma en_reserva_historia f r w o w' :
  (forall x x', f x = Ok x' ->
     estado x = ACTIVA /\ vuelo x' = vuelo x /\ pasajero x' = pasajero x
     /\ fecha_reserva x' = fecha_reserva x) ->
  en_reserva f r w = Some (o, w') -> historia (reservas_obj w) (reservas_obj w').
Proof.
  intros Hf H. rewrite en_reserva_eq in H.
  destruct (reservas_obj w !! r) as [x|] eqn:Hx; [|discriminate].
  destruct (f x) as [x'|e] eqn:Hfx; simplify_eq; [|apply historia_refl].
  destruct (Hf _ _ Hfx) as (H1 & H2 & H3 & H4).
  intros r' y Hy. simpl. destruct (decide (r = r')) as [<-|Hne].
  - exists x'. rewrite list_lookup_insert_eq by (eapply lookup_lt_Some, Hx).
    rewrite Hx in Hy. injection Hy as <-. repeat split; auto.
  - exists y. rewrite list_lookup_insert_ne by exact Hne. repeat split; auto.
Qed.

Lemma agregar_reserva_reservas f r w o w' :
  agregar_reserva f r w = Some (o, w') -> reservas_obj w' = reservas_obj w.
Proof.
  intros H. rewrite agregar_reserva_eq in H.
  repeat case_match; simplify_eq; reflexivity.
Qed.

Lemma Reserva_new_historia v p t w o w' :
  Reserva_new v p t w = Some (o, w') -> historia (reservas_obj w) (reservas_obj w').
Proof.
  intros H. rewrite Reserva_new_eq in H.
  repeat case_match; simplify_eq. apply historia_nuevo.
Qed.

Lemma GestorReservas_new_reservas w o w' :
  GestorReservas_new w = Some (o, w') -> reservas_obj w' = reservas_obj w.
Proof.
  unfold GestorReservas_new.
  destruct (_initialized (gestor w)); [intros; simplify_eq; reflexivity|].
  rewrite bind_modificar. set (P := fun w1 => reservas_obj w1 = reservas_obj w).
  assert (Hdatos : forall w0 o0 w0', P w0 ->
            _inicializar_datos w0 = Some (o0, w0') -> P w0').
  { intros w0 o0 w0' H0 H. unfold _inicializar_datos in H.
    assert (Hpas : forall w1 o1 w1', P w1 ->
      para_cada (fun '(nombre, apellido, documento) =>
        salvo_ValueError (bind (Pasajero_new nombre apellido documento)
          (fun pasajero => modificar (registrar_pasajero pasajero))))
        pasajeros_data w1 = Some (o1, w1') -> P w1').
    { apply para_cada_prop. intros [[n a] d]. apply salvo_ValueError_prop.
      intros w2 o2 w2' H2 E. unfold bind in E. rewrite Pasajero_new_eq in E.
      destruct (Pasajero_init n a d); unfold modificar in E; simplify_eq;
        exact H2. }
    assert (Hvue : forall w1 o1 w1', P w1 ->
      para_cada (fun '(numero, origen, destino, fecha, capacidad) =>
        salvo_ValueError (bind (Vuelo_new numero origen destino fecha capacidad)
          (fun vuelo => modificar (registrar_vuelo vuelo))))
        vuelos_data w1 = Some (o1, w1') -> P w1').
    { apply para_cada_prop. intros [[[[n og] ds] fe] c].
      apply salvo_ValueError_prop.
      intros w2 o2 w2' H2 E. unfold bind in E. rewrite Vuelo_new_eq in E.
      destruct (Vuelo_init n og ds fe c); unfold modificar in E; simplify_eq;
        exact H2. }
    apply bind_Some in H. destruct H as [(e & H & _)|(a & w1 & H & H')]; eauto. }
  intros H. apply bind_Some in H.
  destruct H as [(e & H & _)|([] & w1 & H & H')].
  - eapply Hdatos; [|exact H]. reflexivity.
  - unfold modificar in H'. simplify_eq. simpl.
    eapply Hdatos; [|exact H]. reflexivity.
Qed.

Lemma setter_reservas (valida : str -> result str)
    (pone : Pasajero -> str -> Pasajero) self valor w o w' :
  (p <- leer (fun w => pasajeros_obj w !! self);;
   match valida valor with
   | Raise e => raise e
   | Ok s => modificar (fun w => set_pasajeros_obj
               (<[self := pone p s]> (pasajeros_obj w)) w)
   end)%M w = Some (o, w') ->
  reservas_obj w' = reservas_obj w.
Proof.
  intros H. rewrite bind_leer in H.
  destruct (pasajeros_obj w !! self) as [p|]; [|discriminate].
  destruct (valida valor); unfold raise, modificar in H; simplify_eq; reflexivity.
Qed.

Lemma crear_reserva_historia nv dp t w o w' :
  crear_reserva nv dp t w = Some (o, w') ->
  historia (reservas_obj w) (reservas_obj w').
Proof.
  intros H. rewrite crear_reserva_eq in H.
  destruct (buscar_pasajero_por_documento dp w) as [[p|]|]; simplify_eq;
    [|apply historia_refl].
  destruct (buscar_vuelo_por_numero nv w) as [[v|]|]; simplify_eq;
    [|apply historia_refl].
  destruct (Reserva_new v p t w) as [[[r|e] w1]|] eqn:H1; simplify_eq.
  - pose proof (Reserva_new_historia _ _ _ _ _ _ H1) as Hh.
    destruct (agregar_reserva v r w1) as [[[[]|e] w2]|] eqn:H2; simplify_eq;
      apply agregar_reserva_reservas in H2; simpl; now rewrite H2.
  - eapply Reserva_new_historia; eauto.
Qed.

Lemma ejecutar_historia c w w' :
  ejecutar c w = Some w' -> historia (reservas_obj w) (reservas_obj w').
Proof.
  destruct c; simpl; unfold efecto;
    match goal with |- context [match ?m w with _ => _ end] =>
      destruct (m w) as [[o w1]|] eqn:E; [|discriminate]
    end; intros [= <-].
  - rewrite Pasajero_new_eq in E. apply historia_igual.
    repeat case_match; simplify_eq; reflexivity.
  - apply historia_igual. revert E. apply setter_reservas.
  - apply historia_igual. revert E. apply setter_reservas.
  - apply historia_igual. revert E. apply setter_reservas.
  - rewrite Vuelo_new_eq in E. apply historia_igual.
    repeat case_match; simplify_eq; reflexivity.
  - eapply Reserva_new_historia; eauto.
  - apply historia_igual. eapply agregar_reserva_reservas; eauto.
  - revert E. apply en_reserva_historia. intros x x' H.
    apply Reserva_cancelar_Ok in H. destruct H as [H ->]. auto.
  - revert E. apply en_reserva_historia. intros x x' H.
    apply Reserva_completar_Ok in H. destruct H as [H ->]. auto.
  - apply historia_igual. eapply GestorReservas_new_reservas; eauto.
  - rewrite agregar_pasajero_eq in E. apply historia_igual.
    repeat case_match; simplify_eq; reflexivity.
  - eapply crear_reserva_historia; eauto.
Qed.

Lemma correr_historia cs w w' :
  correr cs w = Some w' -> historia (reservas_obj w) (reservas_obj w').
Proof.
  revert w. induction cs as [|c cs IH]; intros w; simpl.
  - intros [= <-]. apply historia_refl.
  - destruct (ejecutar c w) as [w1|] eqn:E; [|discriminate]. intros H.
    eapply historia_trans; [eapply ejecutar_historia, E|apply IH, H].
Qed.

Lemma cancelar_eq r w x :
  reservas_obj w !! r = Some x ->
  cancelar r w =
  if estado_eqb (estado x) ACTIVA then
    Some (Ok tt, set_reservas_obj
      (<[r := mkReserva (vuelo x) (pasajero x) CANCELADA (fecha_reserva x)]>
         (reservas_obj w)) w)
  else Some (Raise (ReservaException "Solo se pueden cancelar reservas activas"), w).
Proof.
  intros Hx. unfold cancelar. rewrite en_reserva_eq, Hx.
  unfold Reserva_cancelar. destruct (estado_eqb (estado x) ACTIVA); reflexivity.
Qed.

Lemma completar_eq r w x :
  reservas_obj w !! r = Some x ->
  completar r w =
  if estado_eqb (estado x) ACTIVA then
    Some (Ok tt, set_reservas_obj
      (<[r := mkReserva (vuelo x) (pasajero x) COMPLETADA (fecha_reserva x)]>
         (reservas_obj w)) w)
  else Some (Raise (ReservaException "Solo se pueden completar reservas activas"), w).
Proof.
  intros Hx. unfold completar. rewrite en_reserva_eq, Hx.
  unfold Reserva_completar. destruct (estado_eqb (estado x) ACTIVA); reflexivity.
Qed.

(** C5.  A reservation is born [ACTIVA]; from [ACTIVA], [cancelar] leads to
    [CANCELADA] and [completar] to [COMPLETADA]; on a reservation in another
    state both raise and change nothing; whatever calls follow, a
    reservation that is not [ACTIVA] keeps its state, so that after one of
    the two has succeeded neither succeeds again. *)
Theorem reserva_maquina_de_estados :
  (forall v p t w r w',
      Reserva_new v p t w = Some (Ok r, w') ->
      estado <$> reservas_obj w' !! r = Some ACTIVA)
  /\ (forall r w x,
      reservas_obj w !! r = Some x -> estado x = ACTIVA ->
      (exists w', cancelar r w = Some (Ok tt, w')
                  /\ estado <$> reservas_obj w' !! r = Some CANCELADA)
      /\ (exists w', completar r w = Some (Ok tt, w')
                     /\ estado <$> reservas_obj w' !! r = Some COMPLETADA))
  /\ (forall r w x,
      reservas_obj w !! r = Some x -> estado x <> ACTIVA ->
      cancelar r w
      = Some (Raise (ReservaException "Solo se pueden cancelar reservas activas"), w)
      /\ completar r w
         = Some (Raise (ReservaException "Solo se pueden completar reservas activas"), w))
  /\ (forall r w x cs w',
      reservas_obj w !! r = Some x -> estado x <> ACTIVA ->
      correr cs w = Some w' ->
      estado <$> reservas_obj w' !! r = Some (estado x))
  /\ (forall r w w1 cs w2,
      cancelar r w = Some (Ok tt, w1) \/ completar r w = Some (Ok tt, w1) ->
      correr cs w1 = Some w2 ->
      (exists e, cancelar r w2 = Some (Raise e, w2))
      /\ (exists e, completar r w2 = Some (Raise e, w2))).
Proof.
  assert (Hnace : forall v p t w r w',
      Reserva_new v p t w = Some (Ok r, w') ->
      estado <$> reservas_obj w' !! r = Some ACTIVA).
  { intros v p t w r w' H. rewrite Reserva_new_eq in H.
    repeat case_match; simplify_eq. simpl.
    rewrite (list_lookup_middle _ [] _ _ eq_refl). reflexivity. }
  assert (Hsale : forall r w x,
      reservas_obj w !! r = Some x -> estado x <> ACTIVA ->
      cancelar r w
      = Some (Raise (ReservaException "Solo se pueden cancelar reservas activas"), w)
      /\ completar r w
         = Some (Raise (ReservaException "Solo se pueden completar reservas activas"), w)).
  { intros r w x Hx He. rewrite (cancelar_eq r w x Hx), (completar_eq r w x Hx).
    destruct (estado x); try contradiction; auto. }
  assert (Hqueda : forall r w x cs w',
      reservas_obj w !! r = Some x -> estado x <> ACTIVA ->
      correr cs w = Some w' ->
      estado <$> reservas_obj w' !! r = Some (estado x)).
  { intros r w x cs w' Hx He H. apply correr_historia in H.
    destruct (H r x Hx) as (x' & -> & _ & _ & _ & [E|E]); [|contradiction].
    simpl. now rewrite E. }
  split; [exact Hnace|]. split; [|split; [exact Hsale|split; [exact Hqueda|]]].
  - intros r w x Hx He.
    rewrite (cancelar_eq r w x Hx), (completar_eq r w x Hx), He. simpl.
    split; eexists; (split; [reflexivity|]); simpl;
      rewrite list_lookup_insert_eq by (eapply lookup_lt_Some, Hx); reflexivity.
  - intros r w w1 cs w2 Hprimero Hcs.
    assert (H1 : exists x1, reservas_obj w1 !! r = Some x1 /\ estado x1 <> ACTIVA).
    { destruct Hprimero as [H|H]; unfold cancelar, completar in H;
        rewrite en_reserva_eq in H;
        destruct (reservas_obj w !! r) as [x|] eqn:Hx; try discriminate.
      - destruct (Reserva_cancelar x) as [x'|] eqn:Hc; simplify_eq.
        apply Reserva_cancelar_Ok in Hc. destruct Hc as [_ ->].
        eexists. simpl.
        rewrite list_lookup_insert_eq by (eapply lookup_lt_Some, Hx).
        split; [reflexivity|]. simpl. discriminate.
      - destruct (Reserva_completar x) as [x'|] eqn:Hc; simplify_eq.
        apply Reserva_completar_Ok in Hc. destruct Hc as [_ ->].
        eexists. simpl.
        rewrite list_lookup_insert_eq by (eapply lookup_lt_Some, Hx).
        split; [reflexivity|]. simpl. discriminate. }
    destruct H1 as (x1 & Hx1 & He1).
    pose proof (Hqueda r w1 x1 cs w2 Hx1 He1 Hcs) as H2.
    destruct (reservas_obj w2 !! r) as [x2|] eqn:Hx2; [|discriminate].
    simpl in H2. injection H2 as H2.
    destruct (Hsale r w2 x2 Hx2) as [Ha Hb]; [congruence|].
    split; eexists; eauto.
Qed.

End Historia.

(** ** One active reservation per document *)

Section PorDocumento.
Context {R : PyRuntime}.

Implicit Types (w : Mundo).

Lemma sublista_estricta {A} (l k : list A) x :
  l `sublist_of` k -> x ∈ k -> x ∉ l -> length l < length k.
Proof.
  induction 1 as [|y l k Hs IH|y l k Hs IH]; intros Hin Hno.
  - inversion Hin.
  - simpl. apply elem_of_cons in Hin. destruct Hin as [->|Hin].
    + exfalso. apply Hno. now left.
    + apply Nat.succ_lt_mono in IH; [exact IH|exact Hin|].
      intros Hc. apply Hno. now right.
  - simpl. apply sublist_length in Hs. lia.
Qed.

Lemma un_activo_inicio : un_activo_por_documento mundo_vacio.
Proof. constructor. Qed.

(** Worlds that agree on the flights, on the reservations of [w] and on
    the documents of the passengers of [w]. *)
Lemma un_activo_mismo w w' :
  bien_formado w ->
  vuelos_obj w' = vuelos_obj w ->
  (forall r, r < length (reservas_obj w) ->
     reservas_obj w' !! r = reservas_obj w !! r) ->
  (forall i, i < length (pasajeros_obj w) ->
     documento <$> pasajeros_obj w' !! i = documento <$> pasajeros_obj w !! i) ->
  un_activo_por_documento w -> un_activo_por_documento w'.
Proof.
  intros Hbf Hv Hr Hp HK. unfold un_activo_por_documento in *. rewrite Hv.
  apply Forall_forall. intros v Hin.
  pose proof (proj1 (Forall_forall _ _) HK v Hin) as Hnd.
  pose proof (proj1 (Forall_forall _ _) (bf_vuelos _ Hbf) v Hin) as Hl.
  cbv beta in Hnd, Hl.
  assert (E : activas (reservas_obj w') (reservas v)
              = activas (reservas_obj w) (reservas v)).
  { apply activas_ext. intros r Hr'. apply Hr.
    exact (proj1 (Forall_forall _ _) Hl r Hr'). }
  rewrite E.
  rewrite (list_fmap_ext (documento_de w') (documento_de w)); [exact Hnd|].
  intros i r Hi. apply list_elem_of_lookup_2 in Hi.
  unfold activas in Hi. apply list_elem_of_filter in Hi. destruct Hi as [_ Hi].
  pose proof (proj1 (Forall_forall _ _) Hl r Hi) as Hlt. cbv beta in Hlt.
  unfold documento_de. rewrite (Hr r Hlt).
  destruct (reservas_obj w !! r) as [x|] eqn:Hx; [|reflexivity].
  cbn [mbind option_bind]. apply Hp.
  exact (proj2 (Forall_lookup_1 _ _ _ _ (bf_reservas _ Hbf) Hx)).
Qed.

Lemma un_activo_nuevo_vuelo w v :
  reservas v = [] ->
  un_activo_por_documento w ->
  un_activo_por_documento (set_vuelos_obj (vuelos_obj w ++ [v]) w).
Proof.
  intros Hv HK. unfold un_activo_por_documento. simpl.
  apply Forall_app. split; [exact HK|].
  constructor; [|constructor]. rewrite Hv. constructor.
Qed.

Lemma un_activo_cambia_reserva w r x x' :
  reservas_obj w !! r = Some x -> pasajero x' = pasajero x ->
  (estado x' = ACTIVA -> estado x = ACTIVA) ->
  un_activo_por_documento w ->
  un_activo_por_documento (set_reservas_obj (<[r := x']> (reservas_obj w)) w).
Proof.
  intros Hx Hp He HK. unfold un_activo_por_documento in *. simpl.
  eapply Forall_impl; [exact HK|]. intros v Hnd. cbv beta in Hnd |- *.
  set (w' := set_reservas_obj (<[r := x']> (reservas_obj w)) w).
  rewrite (list_fmap_ext (documento_de w') (documento_de w)).
  - eapply sublist_NoDup; [exact Hnd|].
    apply fmap_sublist. now apply activas_insert with x.
  - intros _ r' _. unfold documento_de. subst w'. simpl.
    destruct (decide (r = r')) as [<-|Hne].
    + rewrite list_lookup_insert_eq by (eapply lookup_lt_Some, Hx).
      rewrite Hx. cbn [mbind option_bind]. now rewrite Hp.
    + now rewrite list_lookup_insert_ne by exact Hne.
Qed.

(** The reservation that passes both checks of [agregar_reserva] carries
    a document none of the active entries carries. *)
Lemma un_activo_agrega w f v r x p :
  vuelos_obj w !! f = Some v ->
  reservas_obj w !! r = Some x ->
  pasajeros_obj w !! pasajero x = Some p ->
  ya_reservado w (reservas v) p = Some false ->
  un_activo_por_documento w ->
  un_activo_por_documento
    (set_vuelos_obj (<[f := con_reservas v (reservas v ++ [r])]> (vuelos_obj w)) w).
Proof.
  intros Hv Hx Hp Hya HK. unfold un_activo_por_documento in *. simpl.
  apply Forall_insert; [exact HK|].
  pose proof (Forall_lookup_1 _ _ _ _ HK Hv) as Hnd. cbv beta in Hnd.
  cbn [reservas con_reservas]. rewrite activas_snoc, fmap_app.
  change (documento_de (set_vuelos_obj _ w)) with (documento_de w).
  apply NoDup_app. split; [exact Hnd|]. split.
  - intros d Hd Hd'.
    destruct (es_activa (reservas_obj w) r); [|inversion Hd'].
    apply list_elem_of_singleton in Hd'. subst d.
    apply list_elem_of_fmap in Hd. destruct Hd as (r' & E & Hr').
    unfold activas in Hr'. apply list_elem_of_filter in Hr'.
    destruct Hr' as [Ha Hl]. apply es_activa_true in Ha.
    destruct Ha as (x' & Hx' & Hact).
    unfold documento_de in E. rewrite Hx, Hx' in E. cbn [mbind option_bind] in E.
    rewrite Hp in E.
    destruct (pasajeros_obj w !! pasajero x') as [q'|] eqn:Hq'; [|discriminate E].
    injection E as E.
    apply (ya_reservado_false _ _ _ Hya r' Hl).
    exists x', q'. auto.
  - destruct (es_activa (reservas_obj w) r); [apply NoDup_singleton|constructor].
Qed.

Lemma Pasajero_new_documentos n a d w o w' :
  invariante w /\ un_activo_por_documento w ->
  Pasajero_new n a d w = Some (o, w') ->
  invariante w' /\ un_activo_por_documento w'.
Proof.
  intros [Hw HK] H. split; [eapply Pasajero_new_conserva; eauto|].
  rewrite Pasajero_new_eq in H.
  destruct (Pasajero_init n a d) as [p|e]; simplify_eq; [|exact HK].
  apply (un_activo_mismo w); [apply Hw|reflexivity|reflexivity| |exact HK].
  intros i Hi. simpl. now rewrite lookup_app_l.
Qed.

Lemma Vuelo_new_documentos n o d f c w res w' :
  invariante w /\ un_activo_por_documento w ->
  Vuelo_new n o d f c w = Some (res, w') ->
  invariante w' /\ un_activo_por_documento w'.
Proof.
  intros [Hw HK] H. split; [eapply Vuelo_new_conserva; eauto|].
  rewrite Vuelo_new_eq in H.
  destruct (Vuelo_init n o d f c) as [v|e] eqn:Hv; simplify_eq; [|exact HK].
  apply un_activo_nuevo_vuelo; [|exact HK]. apply Vuelo_init_Ok in Hv. tauto.
Qed.

Lemma setter_documentos (valida : str -> result str)
    (pone : Pasajero -> str -> Pasajero) self valor w o w' :
  (forall p s, documento (pone p s) = documento p) ->
  bien_formado w -> un_activo_por_documento w ->
  (p <- leer (fun w => pasajeros_obj w !! self);;
   match valida valor with
   | Raise e => raise e
   | Ok s => modificar (fun w => set_pasajeros_obj
               (<[self := pone p s]> (pasajeros_obj w)) w)
   end)%M w = Some (o, w') ->
  un_activo_por_documento w'.
Proof.
  intros Hpone Hw HK H. rewrite bind_leer in H.
  destruct (pasajeros_obj w !! self) as [p|] eqn:Hp; [|discriminate].
  destruct (valida valor) as [s|e] eqn:Hs; unfold raise, modificar in H;
    simplify_eq; [|exact HK].
  apply (un_activo_mismo w); [exact Hw|reflexivity|reflexivity| |exact HK].
  intros i Hi. simpl. destruct (decide (self = i)) as [<-|Hne].
  - rewrite list_lookup_insert_eq by exact Hi. rewrite Hp. simpl.
    now rewrite Hpone.
  - now rewrite list_lookup_insert_ne by exact Hne.
Qed.

Lemma Reserva_new_documentos v p t w o w' :
  invariante w /\ un_activo_por_documento w ->
  Reserva_new v p t w = Some (o, w') ->
  invariante w' /\ un_activo_por_documento w'.
Proof.
  intros [Hw HK] H. split; [eapply Reserva_new_conserva; eauto|].
  rewrite Reserva_new_eq in H.
  destruct (vuelos_obj w !! v); [|discriminate].
  destruct (pasajeros_obj w !! p); [|discriminate]. simplify_eq.
  apply (un_activo_mismo w); [apply Hw|reflexivity| |reflexivity|exact HK].
  intros r Hr. simpl. now rewrite lookup_app_l.
Qed.

Lemma en_reserva_documentos f r w o w' :
  (forall x x', f x = Ok x' ->
     pasajero x' = pasajero x /\ (estado x' = ACTIVA -> estado x = ACTIVA)) ->
  un_activo_por_documento w -> en_reserva f r w = Some (o, w') ->
  un_activo_por_documento w'.
Proof.
  intros Hf HK H. rewrite en_reserva_eq in H.
  destruct (reservas_obj w !! r) as [x|] eqn:Hx; [|discriminate].
  destruct (f x) as [x'|e] eqn:Hfx; simplify_eq; [|exact HK].
  destruct (Hf _ _ Hfx) as (H1 & H2).
  now apply un_activo_cambia_reserva with x.
Qed.

Lemma agregar_reserva_documentos f r w o w' :
  invariante w /\ un_activo_por_documento w ->
  agregar_reserva f r w = Some (o, w') ->
  invariante w' /\ un_activo_por_documento w'.
Proof.
  intros [Hw HK] H. split; [eapply agregar_reserva_conserva; eauto|].
  rewrite agregar_reserva_eq in H.
  destruct (capacidad_disponible f w) as [c|] eqn:Hc; [|discriminate].
  destruct (Z.leb_spec c 0); [simplify_eq; exact HK|].
  apply capacidad_disponible_Some in Hc. destruct Hc as (v & Hv & Hl & ->).
  rewrite Hv in H.
  destruct (reservas_obj w !! r) as [x|] eqn:Hx; [|discriminate].
  destruct (pasajeros_obj w !! pasajero x) as [p|] eqn:Hp; [|discriminate].
  destruct (ya_reservado w (reservas v) p) as [[|]|] eqn:Hya; simplify_eq;
    [exact HK|].
  now apply un_activo_agrega with x p.
Qed.

Lemma agregar_pasajero_documentos n a d w o w' :
  invariante w /\ un_activo_por_documento w ->
  agregar_pasajero n a d w = Some (o, w') ->
  invariante w' /\ un_activo_por_documento w'.
Proof.
  intros [Hw HK] H. split; [eapply agregar_pasajero_conserva; eauto|].
  rewrite agregar_pasajero_eq in H.
  destruct (buscar_pasajero_por_documento d w) as [[r|]|]; simplify_eq;
    [exact HK|].
  destruct (Pasajero_init n a d) as [p|e]; simplify_eq; [|exact HK].
  apply (un_activo_mismo w); [apply Hw|reflexivity|reflexivity| |exact HK].
  intros i Hi. simpl. now rewrite lookup_app_l.
Qed.

Lemma crear_reserva_documentos nv dp t w o w' :
  invariante w /\ un_activo_por_documento w ->
  crear_reserva nv dp t w = Some (o, w') ->
  invariante w' /\ un_activo_por_documento w'.
Proof.
  intros HP H. split; [eapply crear_reserva_conserva; [apply HP|exact H]|].
  rewrite crear_reserva_eq in H.
  destruct (buscar_pasajero_por_documento dp w) as [[p|]|]; simplify_eq;
    [|apply HP].
  destruct (buscar_vuelo_por_numero nv w) as [[v|]|]; simplify_eq; [|apply HP].
  destruct (Reserva_new v p t w) as [[[r|e] w1]|] eqn:H1; simplify_eq.
  - pose proof (Reserva_new_documentos _ _ _ _ _ _ HP H1) as HP1.
    destruct (agregar_reserva v r w1) as [[[[]|e] w2]|] eqn:H2; simplify_eq.
    + exact (proj2 (agregar_reserva_documentos _ _ _ _ _ HP1 H2)).
    + exact (proj2 (agregar_reserva_documentos _ _ _ _ _ HP1 H2)).
  - exact (proj2 (Reserva_new_documentos _ _ _ _ _ _ HP H1)).
Qed.

Lemma inicializar_datos_documentos w o w' :
  invariante w /\ un_activo_por_documento w ->
  _inicializar_datos w = Some (o, w') ->
  invariante w' /\ un_activo_por_documento w'.
Proof.
  set (P := fun w => invariante w /\ un_activo_por_documento w).
  assert (Hpas : forall w o w',
    P w -> para_cada (fun '(n, ap, d) => salvo_ValueError
             (r <- Pasajero_new n ap d;; modificar (registrar_pasajero r))%M)
           pasajeros_data w = Some (o, w') -> P w').
  { apply (para_cada_prop P). intros [[n ap] d].
    apply (salvo_ValueError_prop P). intros w2 o2 w2' Hw2 H2.
    apply bind_Some in H2. destruct H2 as [(e2 & H2 & _)|(r & w3 & H2 & H3)].
    - eapply Pasajero_new_documentos; eauto.
    - pose proof (Pasajero_new_documentos _ _ _ _ _ _ Hw2 H2) as [Hw3 HK3].
      destruct (Pasajero_new_conserva _ _ _ _ _ _ (proj1 Hw2) H2) as [_ Hr].
      unfold modificar in H3. simplify_eq.
      split; [apply inv_registrar_pasajero; auto|exact HK3]. }
  assert (Hvue : forall w o w',
    P w -> para_cada (fun '(n, og, ds, fe, c) => salvo_ValueError
             (r <- Vuelo_new n og ds fe c;; modificar (registrar_vuelo r))%M)
           vuelos_data w = Some (o, w') -> P w').
  { apply (para_cada_prop P). intros [[[[n og] ds] fe] c].
    apply (salvo_ValueError_prop P). intros w2 o2 w2' Hw2 H2.
    apply bind_Some in H2. destruct H2 as [(e2 & H2 & _)|(r & w3 & H2 & H3)].
    - eapply Vuelo_new_documentos; eauto.
    - pose proof (Vuelo_new_documentos _ _ _ _ _ _ _ _ Hw2 H2) as [Hw3 HK3].
      destruct (Vuelo_new_conserva _ _ _ _ _ _ _ _ (proj1 Hw2) H2) as [_ Hr].
      unfold modificar in H3. simplify_eq.
      split; [apply inv_registrar_vuelo; auto|exact HK3]. }
  intros Hw H. unfold _inicializar_datos in H.
  apply bind_Some in H. destruct H as [(e & H & _)|(a & w1 & H & H')].
  - exact (Hpas _ _ _ Hw H).
  - exact (Hvue _ _ _ (Hpas _ _ _ Hw H) H').
Qed.

Lemma GestorReservas_new_documentos w o w' :
  invariante w /\ un_activo_por_documento w ->
  GestorReservas_new w = Some (o, w') ->
  invariante w' /\ un_activo_por_documento w'.
Proof.
  intros HP H. split; [eapply GestorReservas_new_conserva; [apply HP|exact H]|].
  destruct HP as [Hw HK]. unfold GestorReservas_new in H.
  destruct (_initialized (gestor w)); [simplify_eq; exact HK|].
  rewrite bind_modificar in H.
  apply bind_Some in H. destruct H as [(e & H & _)|([] & w1 & H & H')].
  - refine (proj2 (inicializar_datos_documentos _ _ _ _ H)).
    split; [apply inv_gestor; simpl; auto|exact HK].
  - unfold modificar in H'. simplify_eq.
    refine (proj2 (inicializar_datos_documentos _ _ _ _ H)).
    split; [apply inv_gestor; simpl; auto|exact HK].
Qed.

(** Every call but the assignment to [documento] keeps the documents of
    the active entries of every list apart. *)
Lemma ejecutar_documentos c w w' :
  cambia_documento c = false ->
  invariante w /\ un_activo_por_documento w ->
  ejecutar c w = Some w' ->
  invariante w' /\ un_activo_por_documento w'.
Proof.
  intros Hc HP H. split; [eapply ejecutar_conserva; [apply HP|exact H]|].
  revert H.
  destruct c as [n a d|q s|q s|q s|n og ds fe cp|fv fp t|fv fr|fr|fr|
                 |n a d|nv dp t]; [| | |discriminate Hc|..];
    simpl; unfold efecto;
    match goal with |- context [match ?m w with _ => _ end] =>
      destruct (m w) as [[o w1]|] eqn:E; [|discriminate]
    end; intros [= <-].
  - exact (proj2 (Pasajero_new_documentos _ _ _ _ _ _ HP E)).
  - revert E. apply (setter_documentos _validar_nombre
      (fun q s => mkPasajero s (apellido q) (documento q)));
      [reflexivity|apply HP|apply HP].
  - revert E. apply (setter_documentos _validar_nombre
      (fun q s => mkPasajero (nombre q) s (documento q)));
      [reflexivity|apply HP|apply HP].
  - exact (proj2 (Vuelo_new_documentos _ _ _ _ _ _ _ _ HP E)).
  - exact (proj2 (Reserva_new_documentos _ _ _ _ _ _ HP E)).
  - exact (proj2 (agregar_reserva_documentos _ _ _ _ _ HP E)).
  - revert E. apply en_reserva_documentos; [|apply HP]. intros x x' H.
    apply Reserva_cancelar_Ok in H. destruct H as [H ->]. simpl. auto.
  - revert E. apply en_reserva_documentos; [|apply HP]. intros x x' H.
    apply Reserva_completar_Ok in H. destruct H as [H ->]. simpl. auto.
  - exact (proj2 (GestorReservas_new_documentos _ _ _ HP E)).
  - exact (proj2 (agregar_pasajero_documentos _ _ _ _ _ _ HP E)).
  - exact (proj2 (crear_reserva_documentos _ _ _ _ _ _ HP E)).
Qed.

Lemma correr_documentos cs w w' :
  forallb (fun c => negb (cambia_documento c)) cs = true ->
  invariante w /\ un_activo_por_documento w ->
  correr cs w = Some w' ->
  invariante w' /\ un_activo_por_documento w'.
Proof.
  revert w. induction cs as [|c cs IH]; intros w Hcs HP; simpl.
  - intros [= <-]. exact HP.
  - simpl in Hcs. apply andb_prop in Hcs. destruct Hcs as [Hc Hcs].
    apply negb_true_iff in Hc.
    destruct (ejecutar c w) as [w1|] eqn:E; [|discriminate].
    apply IH; [exact Hcs|]. eapply ejecutar_documentos; eauto.
Qed.

End PorDocumento.

(** ** Booking the same pair twice *)

Section Duplicados.
Context {R : PyRuntime}.

Implicit Types (w : Mundo).

Lemma repetida_falla w nv dp t p f v q :
  bien_formado w ->
  buscar_pasajero_por_documento dp w = Some (Some p) ->
  buscar_vuelo_por_numero nv w = Some (Some f) ->
  vuelos_obj w !! f = Some v -> pasajeros_obj w !! p = Some q ->
  (exists r, r ∈ reservas v /\ misma_persona w q r) ->
  crear_reserva nv dp t w
  = Some (Raise (if (capacidad_total v
                     - Z.of_nat (length (activas (reservas_obj w) (reservas v)))
                     <=? 0)%Z
                 then sin_capacidad else ya_tiene_reserva),
          set_reservas_obj (reservas_obj w ++ [mkReserva f p ACTIVA t]) w).
Proof.
  intros Hw Hop Hov Hv Hq (r & Hr & Hmisma).
  rewrite crear_reserva_eq, Hop, Hov.
  destruct (reservar_nuevo w f p v q t Hw Hv Hq) as (b & Hb & -> & ->).
  destruct (_ <=? 0)%Z; [reflexivity|].
  destruct b; [reflexivity|].
  exfalso. exact (ya_reservado_false _ _ _ Hb r Hr Hmisma).
Qed.

Lemma numero_con_reservas (l : list Vuelo) f v rs :
  l !! f = Some v -> numero <$> <[f := con_reservas v rs]> l = numero <$> l.
Proof.
  intros Hv. rewrite list_fmap_insert. simpl. apply list_insert_id.
  rewrite list_lookup_fmap, Hv. reflexivity.
Qed.

(** The world after a successful [crear_reserva], written out. *)
Lemma crear_reserva_Ok w nv dp t r1 w1 :
  bien_formado w ->
  crear_reserva nv dp t w = Some (Ok r1, w1) ->
  exists p f v q,
    buscar_pasajero_por_documento dp w = Some (Some p)
    /\ buscar_vuelo_por_numero nv w = Some (Some f)
    /\ vuelos_obj w !! f = Some v /\ pasajeros_obj w !! p = Some q
    /\ (0 < capacidad_total v
            - Z.of_nat (length (activas (reservas_obj w) (reservas v))))%Z
    /\ ya_reservado w (reservas v) q = Some false
    /\ r1 = length (reservas_obj w)
    /\ w1 = registrar_reserva r1
              (set_vuelos_obj
                 (<[f := con_reservas v (reservas v ++ [r1])]> (vuelos_obj w))
                 (set_reservas_obj (reservas_obj w ++ [mkReserva f p ACTIVA t]) w)).
Proof.
  intros Hw H. rewrite crear_reserva_eq in H.
  destruct (buscar_pasajero_por_documento dp w) as [[p|]|] eqn:Hop; simplify_eq.
  destruct (buscar_vuelo_por_numero nv w) as [[f|]|] eqn:Hov; simplify_eq.
  destruct (buscar_primero_en_rango _ _ _ _ _ Hop) as [Hp _].
  destruct (buscar_primero_en_rango _ _ _ _ _ Hov) as [Hf _].
  destruct (lookup_lt_is_Some_2 _ _ Hp) as [q Hq].
  destruct (lookup_lt_is_Some_2 _ _ Hf) as [v Hv].
  destruct (reservar_nuevo w f p v q t Hw Hv Hq) as (b & Hb & HR & HA).
  rewrite HR, HA in H.
  destruct (Z.leb_spec (capacidad_total v
    - Z.of_nat (length (activas (reservas_obj w) (reservas v)))) 0);
    [discriminate|].
  destruct b; [discriminate|]. simplify_eq.
  exists p, f, v, q. repeat split; auto.
Qed.

(** C4 (as amended).  Six facts about booking a pair again.
    (1) While an active reservation of a passenger with the same document
    is in the flight's list, the booking fails and changes neither the
    registry, nor any flight, passenger or earlier reservation: with the
    duplicate-booking error if the flight has a free seat, with the
    capacity error if it has none.
    (2) With a free seat and no such entry in the list, the booking
    succeeds.
    (3) After a booking has succeeded, booking the same pair at once fails
    in the way of (1); once the first reservation is cancelled, booking the
    pair succeeds.
    (4) In any reachable world, cancelling an active reservation of the
    passenger in the flight's list succeeds, and booking the pair then
    succeeds if no other active entry of the list has a passenger with the
    same document; a free seat is then certain.
    (5) In every reachable world the active entries of a flight's list name
    pairwise distinct passenger objects.
    (6) After calls none of which assigns to [documento], they carry
    pairwise distinct documents. *)
Theorem reserva_duplicada :
  (forall w nv dp t p f v q,
      alcanzable w ->
      buscar_pasajero_por_documento dp w = Some (Some p) ->
      buscar_vuelo_por_numero nv w = Some (Some f) ->
      vuelos_obj w !! f = Some v -> pasajeros_obj w !! p = Some q ->
      (exists r, r ∈ reservas v /\ misma_persona w q r) ->
      exists w',
        crear_reserva nv dp t w
        = Some (Raise (if (capacidad_total v
                           - Z.of_nat (length (activas (reservas_obj w) (reservas v)))
                           <=? 0)%Z
                       then sin_capacidad else ya_tiene_reserva), w')
        /\ gestor w' = gestor w /\ vuelos_obj w' = vuelos_obj w
        /\ pasajeros_obj w' = pasajeros_obj w
        /\ reservas_obj w `prefix_of` reservas_obj w')
  /\ (forall w nv dp t p f v q,
      alcanzable w ->
      buscar_pasajero_por_documento dp w = Some (Some p) ->
      buscar_vuelo_por_numero nv w = Some (Some f) ->
      vuelos_obj w !! f = Some v -> pasajeros_obj w !! p = Some q ->
      (0 < capacidad_total v
           - Z.of_nat (length (activas (reservas_obj w) (reservas v))))%Z ->
      (forall r, r ∈ reservas v -> ~ misma_persona w q r) ->
      exists r w', crear_reserva nv dp t w = Some (Ok r, w'))
  /\ (forall w nv dp t1 t2 r1 w1,
      alcanzable w ->
      crear_reserva nv dp t1 w = Some (Ok r1, w1) ->
      (exists e w1',
          crear_reserva nv dp t2 w1 = Some (Raise e, w1')
          /\ (e = sin_capacidad \/ e = ya_tiene_reserva)
          /\ gestor w1' = gestor w1 /\ vuelos_obj w1' = vuelos_obj w1)
      /\ (exists w2, cancelar r1 w1 = Some (Ok tt, w2)
            /\ exists r2 w3, crear_reserva nv dp t2 w2 = Some (Ok r2, w3)))
  /\ (forall w nv dp t p f v q r1 x1,
      alcanzable w ->
      buscar_pasajero_por_documento dp w = Some (Some p) ->
      buscar_vuelo_por_numero nv w = Some (Some f) ->
      vuelos_obj w !! f = Some v -> pasajeros_obj w !! p = Some q ->
      r1 ∈ reservas v -> reservas_obj w !! r1 = Some x1 ->
      estado x1 = ACTIVA -> pasajero x1 = p ->
      exists w2,
        cancelar r1 w = Some (Ok tt, w2)
        /\ (0 < capacidad_total v
                - Z.of_nat (length (activas (reservas_obj w2) (reservas v))))%Z
        /\ ((forall r, r ∈ reservas v -> r <> r1 -> ~ misma_persona w q r) ->
            exists r2 w3, crear_reserva nv dp t w2 = Some (Ok r2, w3)))
  /\ (forall w f v,
      alcanzable w -> vuelos_obj w !! f = Some v ->
      NoDup (pasajero_de (reservas_obj w)
               <$> activas (reservas_obj w) (reservas v)))
  /\ (forall cs w f v,
      correr cs mundo_vacio = Some w ->
      forallb (fun c => negb (cambia_documento c)) cs = true ->
      vuelos_obj w !! f = Some v ->
      NoDup (documento_de w <$> activas (reservas_obj w) (reservas v))).
Proof.
  split; [|split; [|split; [|split; [|split]]]].
  - intros w nv dp t p f v q Hw Hop Hov Hv Hq Hex.
    apply alcanzable_invariante, inv_bf in Hw.
    eexists. split; [eapply repetida_falla; eauto|].
    simpl. repeat split; auto. now apply prefix_app_r.
  - intros w nv dp t p f v q Hw Hop Hov Hv Hq Hc Hno.
    apply alcanzable_invariante, inv_bf in Hw.
    rewrite crear_reserva_eq, Hop, Hov.
    destruct (reservar_nuevo w f p v q t Hw Hv Hq) as (b & Hb & -> & ->).
    destruct (Z.leb_spec (capacidad_total v
      - Z.of_nat (length (activas (reservas_obj w) (reservas v)))) 0);
      [lia|].
    destruct b; [|eauto].
    exfalso. destruct (ya_reservado_true _ _ _ Hb) as (r & Hr & Hm).
    exact (Hno r Hr Hm).
  - intros w nv dp t1 t2 r1 w1 Hw H1.
    assert (Hw1 : alcanzable w1).
    { eapply alc_paso with (c := LCrearReserva nv dp t1); [exact Hw|].
      simpl. unfold efecto. now rewrite H1. }
    pose proof (inv_bf _ (alcanzable_invariante _ Hw)) as Hbf.
    pose proof (inv_bf _ (alcanzable_invariante _ Hw1)) as Hbf1.
    destruct (crear_reserva_Ok _ _ _ _ _ _ Hbf H1)
      as (p & f & v & q & Hop & Hov & Hv & Hq & Hc & Hya & Hr1 & E1).
    pose proof (Forall_lookup_1 _ _ _ _ (bf_vuelos _ Hbf) Hv) as Hl.
    assert (Hf : f < length (vuelos_obj w)) by (eapply lookup_lt_Some, Hv).
    set (x1 := mkReserva f p ACTIVA t1) in *.
    set (v1 := con_reservas v (reservas v ++ [r1])) in *.
    assert (Hop1 : buscar_pasajero_por_documento dp w1 = Some (Some p)).
    { rewrite E1. exact Hop. }
    assert (Hov1 : buscar_vuelo_por_numero nv w1 = Some (Some f)).
    { rewrite E1. unfold buscar_vuelo_por_numero. simpl.
      rewrite (buscar_primero_ext _ (vuelos_obj w)); [exact Hov|].
      now apply numero_con_reservas. }
    assert (Hv1 : vuelos_obj w1 !! f = Some v1).
    { rewrite E1. simpl. now apply list_lookup_insert_eq. }
    assert (Hq1 : pasajeros_obj w1 !! p = Some q) by (rewrite E1; exact Hq).
    assert (Hx1 : reservas_obj w1 !! r1 = Some x1).
    { rewrite E1, Hr1. simpl. now apply list_lookup_middle. }
    split.
    + assert (Hex : exists r, r ∈ reservas v1 /\ misma_persona w1 q r).
      { exists r1. split.
        - subst v1. simpl. apply elem_of_app. right. constructor.
        - exists x1, q. auto. }
      rewrite (repetida_falla w1 nv dp t2 p f v1 q Hbf1 Hop1 Hov1 Hv1 Hq1 Hex).
      eexists _, _. split; [reflexivity|]. split; [|split; reflexivity].
      destruct (_ <=? 0)%Z; auto.
    + rewrite (cancelar_eq r1 w1 x1 Hx1). simpl.
      eexists. split; [reflexivity|].
      set (xc := mkReserva f p CANCELADA t1).
      set (w2 := set_reservas_obj (<[r1 := xc]> (reservas_obj w1)) w1).
      assert (Hw2 : alcanzable w2).
      { eapply alc_paso with (c := LCancelar r1); [exact Hw1|].
        simpl. unfold efecto. now rewrite (cancelar_eq r1 w1 x1 Hx1). }
      pose proof (inv_bf _ (alcanzable_invariante _ Hw2)) as Hbf2.
      assert (Hv2 : vuelos_obj w2 !! f = Some v1) by exact Hv1.
      assert (Hq2 : pasajeros_obj w2 !! p = Some q) by exact Hq1.
      assert (Hr1l : r1 < length (reservas_obj w1))
        by (eapply lookup_lt_Some, Hx1).
      assert (Hxc : reservas_obj w2 !! r1 = Some xc).
      { subst w2. simpl. now apply list_lookup_insert_eq. }
      assert (Hviejas : forall r, r ∈ reservas v ->
                reservas_obj w2 !! r = reservas_obj w !! r).
      { intros r Hr. pose proof (proj1 (Forall_forall _ _) Hl r Hr) as Hlt.
        cbv beta in Hlt.
        subst w2. simpl. rewrite list_lookup_insert_ne by lia.
        rewrite E1. simpl. now apply lookup_app_l. }
      rewrite crear_reserva_eq.
      change (buscar_pasajero_por_documento dp w2)
        with (buscar_pasajero_por_documento dp w1).
      change (buscar_vuelo_por_numero nv w2) with (buscar_vuelo_por_numero nv w1).
      rewrite Hop1, Hov1.
      destruct (reservar_nuevo w2 f p v1 q t2 Hbf2 Hv2 Hq2) as (b & Hb & -> & ->).
      assert (Hact : activas (reservas_obj w2) (reservas v1)
                     = activas (reservas_obj w) (reservas v)).
      { subst v1. cbn [reservas con_reservas]. rewrite activas_snoc.
        rewrite (es_activa_Some _ _ _ Hxc). cbn [estado xc estado_eqb].
        rewrite app_nil_r. apply activas_ext. exact Hviejas. }
      rewrite Hact. change (capacidad_total v1) with (capacidad_total v).
      destruct (Z.leb_spec (capacidad_total v
        - Z.of_nat (length (activas (reservas_obj w) (reservas v)))) 0);
        [lia|].
      assert (Eb : b = false).
      { subst v1. cbn [reservas con_reservas] in Hb.
        rewrite ya_reservado_app in Hb.
        rewrite (ya_reservado_ext w2 w (reservas v) q) in Hb;
          [|subst w2; rewrite E1; reflexivity|exact Hviejas].
        rewrite Hya in Hb. cbn [ya_reservado] in Hb. rewrite Hxc in Hb.
        cbn [mbind option_bind pasajero xc] in Hb. rewrite Hq2 in Hb.
        cbn [mbind option_bind estado estado_eqb] in Hb.
        rewrite andb_false_r in Hb. congruence. }
      rewrite Eb. eauto.
  - intros w nv dp t p f v q r1 x1 Hw Hop Hov Hv Hq Hr1 Hx1 Ha1 Hp1.
    pose proof (alcanzable_invariante _ Hw) as Hinv.
    set (xc := mkReserva (vuelo x1) (pasajero x1) CANCELADA (fecha_reserva x1)).
    set (w2 := set_reservas_obj (<[r1 := xc]> (reservas_obj w)) w).
    assert (Hcan : cancelar r1 w = Some (Ok tt, w2)).
    { rewrite (cancelar_eq r1 w x1 Hx1), Ha1. reflexivity. }
    assert (Hr1l : r1 < length (reservas_obj w))
      by (eapply lookup_lt_Some, Hx1).
    assert (Hxc : reservas_obj w2 !! r1 = Some xc).
    { subst w2. simpl. now apply list_lookup_insert_eq. }
    assert (Hlt : length (activas (reservas_obj w2) (reservas v))
                  < length (activas (reservas_obj w) (reservas v))).
    { apply sublista_estricta with r1.
      - apply activas_insert with x1; [exact Hx1|]. simpl. discriminate.
      - unfold activas. apply list_elem_of_filter.
        split; [|exact Hr1]. apply es_activa_true. eauto.
      - intros Hc. unfold activas in Hc. apply list_elem_of_filter in Hc.
        destruct Hc as [Hc _]. apply es_activa_true in Hc.
        destruct Hc as (y & Hy & Hay). rewrite Hxc in Hy.
        injection Hy as <-. discriminate Hay. }
    pose proof (vo_capacidad _ _
      (Forall_lookup_1 _ _ _ _ (inv_vuelos _ Hinv) Hv)) as Hcap.
    exists w2. split; [exact Hcan|]. split; [lia|]. intros Hno.
    assert (Hw2 : alcanzable w2).
    { eapply alc_paso with (c := LCancelar r1); [exact Hw|].
      simpl. unfold efecto. now rewrite Hcan. }
    pose proof (inv_bf _ (alcanzable_invariante _ Hw2)) as Hbf2.
    rewrite crear_reserva_eq.
    change (buscar_pasajero_por_documento dp w2)
      with (buscar_pasajero_por_documento dp w).
    change (buscar_vuelo_por_numero nv w2) with (buscar_vuelo_por_numero nv w).
    rewrite Hop, Hov.
    destruct (reservar_nuevo w2 f p v q t Hbf2 Hv Hq) as (b & Hb & -> & ->).
    destruct (Z.leb_spec (capacidad_total v
      - Z.of_nat (length (activas (reservas_obj w2) (reservas v)))) 0);
      [lia|].
    destruct b; [|eauto].
    exfalso. destruct (ya_reservado_true _ _ _ Hb)
      as (r & Hr & x & q' & Hx & Hax & Hq' & Hd).
    destruct (decide (r = r1)) as [->|Hne].
    + rewrite Hxc in Hx. injection Hx as <-. discriminate Hax.
    + apply (Hno r Hr Hne). exists x, q'.
      subst w2. simpl in Hx. rewrite list_lookup_insert_ne in Hx by auto.
      auto.
  - intros w f v Hw Hv. apply alcanzable_invariante in Hw.
    apply (Forall_lookup_1 _ _ _ _ (inv_vuelos _ Hw) Hv).
  - intros cs w f v Hrun Hcs Hv.
    destruct (correr_documentos cs mundo_vacio w Hcs
                (conj inv_inicio un_activo_inicio) Hrun) as [_ HK].
    exact (Forall_lookup_1 _ _ _ _ HK Hv).
Qed.

End Duplicados.

(** ** The claims on the Latin-1 tables *)

Section Ejemplos.
Local Existing Instance latin1.

Lemma mundo_inicial_alcanzable : alcanzable mundo_inicial.
Proof.
  apply (correr_alcanzable [LGestor] mundo_vacio); [constructor|].
  vm_compute. reflexivity.
Qed.

Lemma mundo_reservado_alcanzable : alcanzable mundo_reservado.
Proof.
  apply (correr_alcanzable
           [LGestor; LCrearReserva (py "V001") (py "12345678") ahora] mundo_vacio);
    [constructor|].
  vm_compute. reflexivity.
Qed.

Example inicial_pasajeros :
  map documento (pasajeros_obj mundo_inicial) = map (fun '(_, _, d) => d) pasajeros_data
  /\ map numero (vuelos_obj mundo_inicial)
     = [py "V001"; py "V002"; py "V003"; py "AA1234"; py "IB5678"].
Proof. split; vm_compute; reflexivity. Qed.


Lemma capacidad_disponible_testigo :
  alcanzable mundo_reservado
  /\ capacidad_disponible 0 mundo_reservado = Some 149%Z.
Proof.
  split; [exact mundo_reservado_alcanzable|].
  destruct (vuelos_obj mundo_reservado !! 0) as [v|] eqn:Hv;
    [|vm_compute in Hv; discriminate].
  destruct (capacidad_disponible_invariante mundo_reservado 0 v
              mundo_reservado_alcanzable Hv) as [E _].
  rewrite E. vm_compute in Hv. injection Hv as <-. vm_compute. reflexivity.
Defined.


Lemma Pasajero_init_normaliza_testigo :
  Pasajero_init (py "  josé maRia ") (py "pérez") (py " 12345678 ")
  = Ok (mkPasajero (py "José Maria") (py "Pérez") (py "12345678"))
  /\ exists msg, Pasajero_init (py "Ana") (py "L0pez") (py "12345678")
                 = Raise (ValueError msg).
Proof.
  split.
  - rewrite (proj1 (Pasajero_init_normaliza (py "  josé maRia ") (py "pérez")
                      (py " 12345678 "))) by (vm_compute; reflexivity).
    vm_compute. reflexivity.
  - apply (proj2 (Pasajero_init_normaliza (py "Ana") (py "L0pez") (py "12345678"))).
    vm_compute. reflexivity.
Defined.

(** C6 as the specification words it: a name may hold any letter,
    "including accented Latin letters".  è is one, and the name is refused. *)
Lemma nombre_acentuado_rechazado :
  nombre_valido_spec (py "Michèle") = true
  /\ nombre_valido_spec (py "Perez") = true
  /\ documento_valido (py "12345678") = true
  /\ Pasajero_init (py "Michèle") (py "Perez") (py "12345678")
     = Raise (ValueError "El nombre solo puede contener letras y espacios").
Proof. repeat split; vm_compute; reflexivity. Qed.


(** C3 on the code.  In the registry as it starts, Juan Perez holds document
    12345678; [agregar_pasajero] with the same document after a space stores
    a second passenger with it. *)
Theorem documento_repetido_con_espacio :
  exists w',
    correr [LGestor; LAgregarPasajero (py "Ana") (py "Lopez") (py " 12345678")]
           mundo_vacio = Some w'
    /\ agregar_pasajero (py "Ana") (py "Lopez") (py " 12345678") mundo_inicial
       = Some (Ok 10, w')
    /\ _pasajeros (gestor w') = [0; 1; 2; 3; 4; 5; 6; 7; 8; 9; 10]
    /\ pasajeros_obj w' !! 0
       = Some (mkPasajero (py "Juan") (py "Perez") (py "12345678"))
    /\ pasajeros_obj w' !! 10
       = Some (mkPasajero (py "Ana") (py "Lopez") (py "12345678"))
    /\ ~ documento_unico w'.
Proof.
  eexists. split; [vm_compute; reflexivity|].
  split; [vm_compute; reflexivity|].
  split; [vm_compute; reflexivity|].
  split; [vm_compute; reflexivity|].
  split; [vm_compute; reflexivity|].
  intros H.
  specialize (H 0 10 (mkPasajero (py "Juan") (py "Perez") (py "12345678"))
                (mkPasajero (py "Ana") (py "Lopez") (py "12345678"))).
  assert (E : 0 = 10); [|discriminate E].
  apply H.
  - apply list_elem_of_lookup_2 with (i := 0). vm_compute. reflexivity.
  - apply list_elem_of_lookup_2 with (i := 10). vm_compute. reflexivity.
  - vm_compute. reflexivity.
  - vm_compute. reflexivity.
  - vm_compute. reflexivity.
Qed.

Lemma busqueda_literal_testigo :
  buscar_vuelo_por_numero (py "v001") mundo_inicial = Some None
  /\ buscar_vuelo_por_numero (py " V001") mundo_inicial = Some None
  /\ buscar_pasajero_por_documento (py "12345678 ") mundo_inicial = Some None
  /\ buscar_vuelo_por_numero (py "V001") mundo_inicial = Some (Some 0).
Proof.
  destruct busqueda_literal as (_ & _ & Hdoc & Hnum).
  split; [|split; [|split]].
  - apply (Hnum mundo_inicial (py "v001") (py "V001") mundo_inicial_alcanzable);
      [vm_compute; reflexivity|]. intros E. vm_compute in E. discriminate E.
  - apply (Hnum mundo_inicial (py " V001") (py "V001") mundo_inicial_alcanzable);
      [vm_compute; reflexivity|]. intros E. vm_compute in E. discriminate E.
  - apply (Hdoc mundo_inicial (py "12345678 ") (py "12345678")
             mundo_inicial_alcanzable);
      [vm_compute; reflexivity|]. intros E. vm_compute in E. discriminate E.
  - vm_compute. reflexivity.
Defined.

Lemma reserva_maquina_de_estados_testigo :
  (exists w', cancelar 0 mundo_reservado = Some (Ok tt, w')
              /\ estado <$> reservas_obj w' !! 0 = Some CANCELADA)
  /\ (exists w', completar 0 mundo_reservado = Some (Ok tt, w')
                 /\ estado <$> reservas_obj w' !! 0 = Some COMPLETADA).
Proof.
  destruct (reservas_obj mundo_reservado !! 0) as [x|] eqn:Hx;
    [|vm_compute in Hx; discriminate].
  apply (proj1 (proj2 reserva_maquina_de_estados) 0 mundo_reservado x Hx).
  vm_compute in Hx. injection Hx as <-. reflexivity.
Defined.

Lemma reserva_duplicada_testigo :
  let v := mkVuelo (py "V001") (py "Buenos Aires") (py "Madrid") (py "2024-03-15")
                   150 [0] in
  (exists r1 w1,
     crear_reserva (py "V001") (py "12345678") ahora mundo_inicial = Some (Ok r1, w1)
     /\ (exists e w1',
           crear_reserva (py "V001") (py "12345678") ahora w1 = Some (Raise e, w1')
           /\ (e = sin_capacidad \/ e = ya_tiene_reserva)
           /\ gestor w1' = gestor w1 /\ vuelos_obj w1' = vuelos_obj w1)
     /\ (exists w2, cancelar r1 w1 = Some (Ok tt, w2)
           /\ exists r2 w3,
                crear_reserva (py "V001") (py "12345678") ahora w2
                = Some (Ok r2, w3)))
  /\ (exists w',
        crear_reserva (py "V001") (py "12345678") ahora mundo_reservado
        = Some (Raise ya_tiene_reserva, w')
        /\ gestor w' = gestor mundo_reservado
        /\ vuelos_obj w' = vuelos_obj mundo_reservado
        /\ pasajeros_obj w' = pasajeros_obj mundo_reservado
        /\ reservas_obj mundo_reservado `prefix_of` reservas_obj w')
  /\ (exists r w',
        crear_reserva (py "V001") (py "87654321") ahora mundo_reservado
        = Some (Ok r, w'))
  /\ (exists w2,
        cancelar 0 mundo_reservado = Some (Ok tt, w2)
        /\ (0 < capacidad_total v
                - Z.of_nat (length (activas (reservas_obj w2) (reservas v))))%Z
        /\ exists r2 w3,
             crear_reserva (py "V001") (py "12345678") ahora w2 = Some (Ok r2, w3))
  /\ NoDup (pasajero_de (reservas_obj mundo_reservado)
              <$> activas (reservas_obj mundo_reservado) (reservas v))
  /\ NoDup (documento_de mundo_reservado
              <$> activas (reservas_obj mundo_reservado) (reservas v)).
Proof.
  cbv zeta.
  set (v := mkVuelo (py "V001") (py "Buenos Aires") (py "Madrid")
                    (py "2024-03-15") 150 [0]).
  set (juan := mkPasajero (py "Juan") (py "Perez") (py "12345678")).
  set (maria := mkPasajero (py "Maria") (py "Gomez") (py "87654321")).
  pose proof reserva_duplicada as (T1 & T2 & T3 & T4 & T5 & T6).
  assert (Hv : vuelos_obj mundo_reservado !! 0 = Some v)
    by (vm_compute; reflexivity).
  assert (Hjuan : pasajeros_obj mundo_reservado !! 0 = Some juan)
    by (vm_compute; reflexivity).
  assert (Hmaria : pasajeros_obj mundo_reservado !! 1 = Some maria)
    by (vm_compute; reflexivity).
  assert (Hx : reservas_obj mundo_reservado !! 0 = Some (mkReserva 0 0 ACTIVA ahora))
    by (vm_compute; reflexivity).
  assert (Hov : buscar_vuelo_por_numero (py "V001") mundo_reservado = Some (Some 0))
    by (vm_compute; reflexivity).
  assert (Hoj : buscar_pasajero_por_documento (py "12345678") mundo_reservado
                = Some (Some 0)) by (vm_compute; reflexivity).
  assert (Hom : buscar_pasajero_por_documento (py "87654321") mundo_reservado
                = Some (Some 1)) by (vm_compute; reflexivity).
  assert (Hin : 0 ∈ reservas v) by (left).
  split; [|split; [|split; [|split; [|split]]]].
  - destruct (crear_reserva (py "V001") (py "12345678") ahora mundo_inicial)
      as [[[r1|e] w1]|] eqn:E; [|vm_compute in E; discriminate E..].
    exists r1, w1. split; [reflexivity|].
    exact (T3 mundo_inicial (py "V001") (py "12345678") ahora ahora r1 w1
              mundo_inicial_alcanzable E).
  - refine (T1 mundo_reservado (py "V001") (py "12345678") ahora 0 0 v juan
              mundo_reservado_alcanzable Hoj Hov Hv Hjuan _).
    exists 0. split; [exact Hin|].
    exists (mkReserva 0 0 ACTIVA ahora), juan. auto.
  - refine (T2 mundo_reservado (py "V001") (py "87654321") ahora 1 0 v maria
              mundo_reservado_alcanzable Hom Hov Hv Hmaria _ _).
    + vm_compute. reflexivity.
    + intros r Hr (x & q & Hx' & _ & Hq & Hd).
      apply list_elem_of_singleton in Hr. subst r.
      rewrite Hx in Hx'. injection Hx' as <-.
      cbn [pasajero] in Hq. rewrite Hjuan in Hq. injection Hq as <-.
      vm_compute in Hd. discriminate Hd.
  - destruct (T4 mundo_reservado (py "V001") (py "12345678") ahora 0 0 v juan
                0 (mkReserva 0 0 ACTIVA ahora)
                mundo_reservado_alcanzable Hoj Hov Hv Hjuan Hin Hx
                eq_refl eq_refl) as (w2 & Hc & Hcap & Hre).
    exists w2. split; [exact Hc|]. split; [exact Hcap|].
    apply Hre. intros r Hr Hne.
    apply list_elem_of_singleton in Hr. contradiction.
  - exact (T5 mundo_reservado 0 v mundo_reservado_alcanzable Hv).
  - refine (T6 [LGestor; LCrearReserva (py "V001") (py "12345678") ahora]
              mundo_reservado 0 v _ eq_refl Hv).
    vm_compute. reflexivity.
Defined.

(** C4 as stated, in four runs of the public calls.
    (a) Eighty passengers fill flight IB5678; Juan Perez, who holds one of
    the eighty active reservations, books it again: the error is the one
    for capacity, not the one for a duplicate.
    (b) Juan Perez and Maria Gomez book flight V001, then Maria's document
    is set to Juan's: the list of V001 holds two active reservations of
    passengers that [Pasajero.__eq__] takes for equal; and once Juan's
    reservation is cancelled, booking V001 for his document fails as a
    duplicate, with 149 seats free.
    (c) Juan Perez books flight V001, a second [Reserva] is made for V001
    and Juan and added to the list of V002: two active reservations name
    the same flight and the same passenger.
    (d) A [Reserva] for V001 and Juan is made and added to no list: it is
    active, and booking V001 for Juan succeeds all the same. *)
Lemma duplicada_como_esta_escrita :
  (let v := mkVuelo (py "IB5678") (py "Madrid") (py "Barcelona") (py "2024-03-19")
                    80 (seq 0 80) in
   let q := mkPasajero (py "Juan") (py "Perez") (py "12345678") in
   correr llenar mundo_vacio = Some mundo_lleno
   /\ buscar_pasajero_por_documento (py "12345678") mundo_lleno = Some (Some 0)
   /\ buscar_vuelo_por_numero (py "IB5678") mundo_lleno = Some (Some 4)
   /\ vuelos_obj mundo_lleno !! 4 = Some v
   /\ pasajeros_obj mundo_lleno !! 0 = Some q
   /\ 0 ∈ reservas v /\ misma_persona mundo_lleno q 0
   /\ crear_reserva (py "IB5678") (py "12345678") ahora mundo_lleno
      = Some (Raise sin_capacidad,
              set_reservas_obj
                (reservas_obj mundo_lleno ++ [mkReserva 4 0 ACTIVA ahora])
                mundo_lleno)
   /\ sin_capacidad <> ya_tiene_reserva)
  /\ (let juan := mkPasajero (py "Juan") (py "Perez") (py "12345678") in
      let maria := mkPasajero (py "Maria") (py "Gomez") (py "12345678") in
      correr igualar mundo_vacio = Some mundo_igualado
      /\ reservas <$> vuelos_obj mundo_igualado !! 0 = Some [0; 1]
      /\ reservas_obj mundo_igualado
         = [mkReserva 0 0 ACTIVA ahora; mkReserva 0 1 ACTIVA ahora]
      /\ pasajeros_obj mundo_igualado !! 0 = Some juan
      /\ pasajeros_obj mundo_igualado !! 1 = Some maria
      /\ Pasajero_eq juan (OPasajero maria) = true
      /\ buscar_pasajero_por_documento (py "12345678") mundo_igualado
         = Some (Some 0)
      /\ exists w2 w3,
           cancelar 0 mundo_igualado = Some (Ok tt, w2)
           /\ capacidad_disponible 0 w2 = Some 149%Z
           /\ crear_reserva (py "V001") (py "12345678") ahora w2
              = Some (Raise ya_tiene_reserva, w3))
  /\ (correr cruzar mundo_vacio = Some mundo_cruzado
      /\ reservas_obj mundo_cruzado
         = [mkReserva 0 0 ACTIVA ahora; mkReserva 0 0 ACTIVA ahora]
      /\ reservas <$> vuelos_obj mundo_cruzado !! 0 = Some [0]
      /\ reservas <$> vuelos_obj mundo_cruzado !! 1 = Some [1])
  /\ (correr [LGestor; LReserva 0 0 ahora] mundo_vacio = Some mundo_suelto
      /\ reservas_obj mundo_suelto = [mkReserva 0 0 ACTIVA ahora]
      /\ buscar_pasajero_por_documento (py "12345678") mundo_suelto
         = Some (Some 0)
      /\ buscar_vuelo_por_numero (py "V001") mundo_suelto = Some (Some 0)
      /\ exists w',
           crear_reserva (py "V001") (py "12345678") ahora mundo_suelto
           = Some (Ok 1, w')
           /\ reservas_obj w'
              = [mkReserva 0 0 ACTIVA ahora; mkReserva 0 0 ACTIVA ahora]).
Proof.
  cbv zeta. split; [|split; [|split]].
  - split; [vm_compute; reflexivity|].
    split; [vm_compute; reflexivity|].
    split; [vm_compute; reflexivity|].
    split; [vm_compute; reflexivity|].
    split; [vm_compute; reflexivity|].
    split; [apply list_elem_of_lookup_2 with (i := 0); vm_compute; reflexivity|].
    split.
    { exists (mkReserva 4 0 ACTIVA ahora),
             (mkPasajero (py "Juan") (py "Perez") (py "12345678")).
      split; [vm_compute; reflexivity|].
      split; [reflexivity|].
      split; vm_compute; reflexivity. }
    split; [vm_compute; reflexivity|]. discriminate.
  - split; [vm_compute; reflexivity|].
    split; [vm_compute; reflexivity|].
    split; [vm_compute; reflexivity|].
    split; [vm_compute; reflexivity|].
    split; [vm_compute; reflexivity|].
    split; [vm_compute; reflexivity|].
    split; [vm_compute; reflexivity|].
    eexists _, _.
    split; [vm_compute; reflexivity|].
    split; vm_compute; reflexivity.
  - split; [vm_compute; reflexivity|].
    split; [vm_compute; reflexivity|].
    split; vm_compute; reflexivity.
  - split; [vm_compute; reflexivity|].
    split; [vm_compute; reflexivity|].
    split; [vm_compute; reflexivity|].
    split; [vm_compute; reflexivity|].
    eexists. split; vm_compute; reflexivity.
Qed.

Lemma agregar_reserva_ignora_vuelo_testigo :
  exists w',
    agregar_reserva 0 0 mundo_ajeno = Some (Ok tt, w')
    /\ vuelo <$> reservas_obj w' !! 0 = Some 1
    /\ reservas <$> vuelos_obj w' !! 0 = Some [0]
    /\ capacidad_disponible 0 mundo_ajeno = Some 150%Z
    /\ capacidad_disponible 0 w' = Some 149%Z.
Proof.
  assert (Hbf : bien_formado mundo_ajeno).
  { apply inv_bf, alcanzable_invariante.
    apply (correr_alcanzable [LGestor; LReserva 1 0 ahora] mundo_vacio);
      [constructor|]. vm_compute. reflexivity. }
  destruct (vuelos_obj mundo_ajeno !! 0) as [v|] eqn:Hv;
    [|vm_compute in Hv; discriminate].
  destruct (reservas_obj mundo_ajeno !! 0) as [x|] eqn:Hx;
    [|vm_compute in Hx; discriminate].
  destruct (pasajeros_obj mundo_ajeno !! pasajero x) as [p|] eqn:Hp;
    [|vm_compute in Hx; injection Hx as <-; vm_compute in Hp; discriminate].
  assert (Hg : vuelo x = 1)
    by (vm_compute in Hx; injection Hx as <-; reflexivity).
  destruct (agregar_reserva_ignora_vuelo mundo_ajeno 0 1 0 x v p Hbf
              ltac:(discriminate) Hv Hx Hg Hp)
    as [[Hc _]|[(_ & (r' & Hr' & _) & _)|(_ & _ & Hag & Hcap)]].
  - exfalso. vm_compute in Hv. injection Hv as <-. vm_compute in Hc.
    apply Hc. reflexivity.
  - exfalso. vm_compute in Hv. injection Hv as <-. simpl in Hr'.
    inversion Hr'.
  - eexists. split; [exact Hag|].
    vm_compute in Hv, Hx. injection Hv as <-. injection Hx as <-.
    repeat split; vm_compute; reflexivity.
Defined.

End Ejemplos.

(** * Further properties of the program *)

(** ** The constructors and setters *)

Section Constructores.
Context {R : PyRuntime}.

Lemma validar_nombre_Ok n x : _validar_nombre n = Ok x -> x = title (strip n).
Proof.
  unfold _validar_nombre. repeat case_match; intros; simplify_eq. reflexivity.
Qed.

Lemma upper_nil : upper [] = [].
Proof. apply upper_fixed. reflexivity. Qed.

Lemma forma_numero_true k :
  forma_numero k = true <->
  exists i, 1 <= i <= 3 /\ forallb es_AZ (take i k) = true
    /\ forallb isdecimal (drop i k) = true /\ 3 <= length (drop i k) <= 4.
Proof.
  unfold forma_numero. rewrite existsb_exists. split.
  - intros (i & Hi & H). repeat (apply andb_true_iff in H; destruct H as [H ?]).
    exists i. repeat split; auto; try (now apply Nat.leb_le).
    + simpl in Hi. lia.
    + simpl in Hi. lia.
  - intros (i & Hi & H1 & H2 & H3). exists i. split.
    + simpl. lia.
    + rewrite H1, H2. cbn [andb]. apply andb_true_iff.
      split; apply Nat.leb_le; lia.
Qed.

Lemma re_match_numero_forma k :
  last k <> Some 10%N -> re_match patron_numero k = forma_numero k.
Proof.
  intros Hl. apply eq_true_iff_eq. rewrite forma_numero_true.
  unfold patron_numero. rewrite re_match_cons. cbn [rmin rmax clase].
  assert (Hd : forall i, last (drop i k) <> Some 10%N).
  { intros i E. apply Hl. rewrite <- (take_drop i k), last_app, E. reflexivity. }
  split.
  - intros (i & H1 & H2 & H3 & H4 & H5). specialize (H3 3 eq_refl).
    apply (re_match_last _ _ (Hd i)) in H5. cbn [rmin rmax clase] in H5.
    destruct H5 as (H5 & H6 & H7). specialize (H6 4 eq_refl).
    rewrite (forallb_igual _ _ _ en_clase_AZ) in H4.
    rewrite (forallb_igual _ _ _ en_clase_D) in H7.
    exists i. repeat split; auto.
  - intros (i & Hi & H1 & H2 & H3). exists i.
    assert (Hlen : i <= length k).
    { rewrite length_drop in H3. lia. }
    split; [lia|]. split; [exact Hlen|]. split; [intros m [= <-]; lia|].
    split.
    + now rewrite (forallb_igual _ _ _ en_clase_AZ).
    + apply (re_match_last _ _ (Hd i)). cbn [rmin rmax clase].
      rewrite (forallb_igual _ _ _ en_clase_D).
      split; [lia|]. split; [intros m [= <-]; lia|exact H2].
Qed.

Lemma validar_numero_valido n :
  _validar_numero_vuelo n
  = if numero_valido n then Ok (upper (strip n))
    else if vacia n || vacia (strip n)
         then Raise (ValueError "El número de vuelo no puede estar vacío")
         else Raise (ValueError
                "Formato de número de vuelo inválido (ej: V001, AA1234)").
Proof.
  unfold _validar_numero_vuelo, numero_valido.
  assert (Hl : last (upper (strip n)) <> Some 10%N).
  { intros H. apply upper_newline in H. exact (stripped_no_newline _ H). }
  rewrite (re_match_numero_forma _ Hl).
  destruct (vacia n || vacia (strip n)) eqn:Hv.
  - assert (E : strip n = []).
    { apply orb_true_iff in Hv. destruct Hv as [Hv|Hv]; apply vacia_true in Hv.
      - subst n. reflexivity.
      - exact Hv. }
    rewrite E, upper_nil. reflexivity.
  - destruct (forma_numero (upper (strip n))); reflexivity.
Qed.

Lemma validar_ciudad_valida c :
  _validar_ciudad c
  = if ciudad_valida c then Ok (title (strip c))
    else if vacia c || vacia (strip c)
         then Raise (ValueError "La ciudad no puede estar vacía")
         else Raise (ValueError
                "El nombre de la ciudad debe tener al menos 2 caracteres").
Proof.
  unfold _validar_ciudad, ciudad_valida.
  destruct (vacia c || vacia (strip c)) eqn:Hv.
  - assert (E : strip c = []).
    { apply orb_true_iff in Hv. destruct Hv as [Hv|Hv]; apply vacia_true in Hv.
      - subst c. reflexivity.
      - exact Hv. }
    rewrite E. reflexivity.
  - destruct (Nat.leb_spec 2 (length (strip c))) as [H|H].
    + apply Nat.ltb_ge in H. now rewrite H.
    + apply Nat.ltb_lt in H. now rewrite H.
Qed.

Lemma validar_capacidad_valida c :
  _validar_capacidad c
  = if capacidad_valida c then Ok c
    else if (c <=? 0)%Z
         then Raise (ValueError "La capacidad debe ser un número entero positivo")
         else Raise (ValueError "La capacidad no puede exceder 1000 pasajeros").
Proof.
  unfold _validar_capacidad, capacidad_valida. rewrite Z.gtb_ltb.
  destruct (Z.leb_spec c 0), (Z.leb_spec 1 c), (Z.leb_spec c 1000),
    (Z.ltb_spec 1000 c); simpl; try reflexivity; lia.
Qed.

(** X1.  [Vuelo(...)] succeeds on valid arguments, and then holds the
    number trimmed and in upper case, the cities trimmed and title-cased,
    the date as given, the capacity, and no reservation; on any other
    arguments it raises [ValueError] and there is no flight.  The number is
    matched after the change to upper case, and cities are not checked for
    their characters. *)
Theorem Vuelo_init_normaliza (n o d f : str) (c : Z) :
  (vuelo_valido n o d f c = true ->
   Vuelo_init n o d f c
   = Ok (mkVuelo (upper (strip n)) (title (strip o)) (title (strip d)) f c []))
  /\ (vuelo_valido n o d f c = false ->
      exists msg, Vuelo_init n o d f c = Raise (ValueError msg)).
Proof.
  unfold Vuelo_init, vuelo_valido, _validar_fecha.
  rewrite (validar_numero_valido n), (validar_ciudad_valida o),
    (validar_ciudad_valida d), (validar_capacidad_valida c).
  destruct (numero_valido n); cbn [andb].
  2:{ split; [discriminate|]. intros _. destruct (vacia n || vacia (strip n)); eauto. }
  destruct (ciudad_valida o); cbn [andb].
  2:{ split; [discriminate|]. intros _. destruct (vacia o || vacia (strip o)); eauto. }
  destruct (ciudad_valida d); cbn [andb].
  2:{ split; [discriminate|]. intros _. destruct (vacia d || vacia (strip d)); eauto. }
  destruct (strptime_Ymd f); cbn [andb]; [|split; [discriminate|]; eauto].
  destruct (capacidad_valida c); [split; [reflexivity|discriminate]|].
  split; [discriminate|]. intros _. destruct (c <=? 0)%Z; eauto.
Qed.

Lemma Pasajero_set_nombre_eq self valor w :
  Pasajero_set_nombre self valor w =
  match pasajeros_obj w !! self with
  | None => None
  | Some p =>
      match _validar_nombre valor with
      | Raise e => Some (Raise e, w)
      | Ok n => Some (Ok tt, set_pasajeros_obj
                  (<[self := mkPasajero n (apellido p) (documento p)]>
                     (pasajeros_obj w)) w)
      end
  end.
Proof.
  unfold Pasajero_set_nombre. rewrite bind_leer.
  destruct (pasajeros_obj w !! self); [|reflexivity].
  destruct (_validar_nombre valor); reflexivity.
Qed.

Lemma Pasajero_set_apellido_eq self valor w :
  Pasajero_set_apellido self valor w =
  match pasajeros_obj w !! self with
  | None => None
  | Some p =>
      match _validar_nombre valor with
      | Raise e => Some (Raise e, w)
      | Ok a => Some (Ok tt, set_pasajeros_obj
                  (<[self := mkPasajero (nombre p) a (documento p)]>
                     (pasajeros_obj w)) w)
      end
  end.
Proof.
  unfold Pasajero_set_apellido. rewrite bind_leer.
  destruct (pasajeros_obj w !! self); [|reflexivity].
  destruct (_validar_nombre valor); reflexivity.
Qed.

Lemma Pasajero_set_documento_eq self valor w :
  Pasajero_set_documento self valor w =
  match pasajeros_obj w !! self with
  | None => None
  | Some p =>
      match _validar_documento valor with
      | Raise e => Some (Raise e, w)
      | Ok d => Some (Ok tt, set_pasajeros_obj
                  (<[self := mkPasajero (nombre p) (apellido p) d]>
                     (pasajeros_obj w)) w)
      end
  end.
Proof.
  unfold Pasajero_set_documento. rewrite bind_leer.
  destruct (pasajeros_obj w !! self); [|reflexivity].
  destruct (_validar_documento valor); reflexivity.
Qed.

(** X2.  The three setters of [Pasajero] apply the constructor's checks to
    the one value they are given: a valid value is stored normalized, in its
    own field of that object and nowhere else; on any other value the setter
    raises [ValueError] and the object keeps what it had. *)
Theorem setters_normalizan w self p valor :
  pasajeros_obj w !! self = Some p ->
  let pone q := set_pasajeros_obj (<[self := q]> (pasajeros_obj w)) w in
  (nombre_valido valor = true ->
   Pasajero_set_nombre self valor w
   = Some (Ok tt, pone (mkPasajero (title (strip valor)) (apellido p) (documento p)))
   /\ Pasajero_set_apellido self valor w
      = Some (Ok tt, pone (mkPasajero (nombre p) (title (strip valor)) (documento p))))
  /\ (nombre_valido valor = false ->
      (exists msg, Pasajero_set_nombre self valor w = Some (Raise (ValueError msg), w))
      /\ exists msg, Pasajero_set_apellido self valor w
                     = Some (Raise (ValueError msg), w))
  /\ (documento_valido valor = true ->
      Pasajero_set_documento self valor w
      = Some (Ok tt, pone (mkPasajero (nombre p) (apellido p) (strip valor))))
  /\ (documento_valido valor = false ->
      exists msg, Pasajero_set_documento self valor w
                  = Some (Raise (ValueError msg), w)).
Proof.
  intros Hp pone.
  rewrite Pasajero_set_nombre_eq, Pasajero_set_apellido_eq,
    Pasajero_set_documento_eq, Hp.
  split; [|split; [|split]].
  - intros H. rewrite (validar_nombre_ok _ H). split; reflexivity.
  - intros H. destruct (validar_nombre_error _ H) as [msg E]. rewrite E. eauto.
  - intros H. rewrite (validar_documento_ok _ H). reflexivity.
  - intros H. destruct (validar_documento_error _ H) as [msg E]. rewrite E. eauto.
Qed.

(** X3.  The setter of [documento] checks the form of the value and never
    the registry: in any reachable world with two registered passengers,
    giving the second the document of the first succeeds, and two registered
    passengers then share a document; the world so reached is reachable. *)
Theorem setter_documento_repite w r1 r2 p1 p2 :
  alcanzable w -> r1 <> r2 ->
  r1 ∈ _pasajeros (gestor w) -> r2 ∈ _pasajeros (gestor w) ->
  pasajeros_obj w !! r1 = Some p1 -> pasajeros_obj w !! r2 = Some p2 ->
  let w' := set_pasajeros_obj
              (<[r2 := mkPasajero (nombre p2) (apellido p2) (documento p1)]>
                 (pasajeros_obj w)) w in
  Pasajero_set_documento r2 (documento p1) w = Some (Ok tt, w')
  /\ alcanzable w' /\ ~ documento_unico w'.
Proof.
  intros Hw Hne H1 H2 Hp1 Hp2 w'.
  assert (Hok : pasajero_ok p1).
  { apply alcanzable_invariante in Hw. destruct Hw as [_ _ Hps].
    exact (Forall_lookup_1 _ _ _ _ Hps Hp1). }
  assert (E : Pasajero_set_documento r2 (documento p1) w = Some (Ok tt, w')).
  { rewrite Pasajero_set_documento_eq, Hp2. unfold pasajero_ok in Hok.
    rewrite Hok. reflexivity. }
  split; [exact E|]. split.
  - apply (alc_paso w (LSetDocumento r2 (documento p1))); [exact Hw|].
    simpl. unfold efecto. rewrite E. reflexivity.
  - intros Hu. apply Hne.
    apply (Hu r1 r2 p1 (mkPasajero (nombre p2) (apellido p2) (documento p1)));
      auto.
    + simpl. rewrite list_lookup_insert_ne by auto. exact Hp1.
    + simpl. apply list_lookup_insert_eq. eapply lookup_lt_Some; eauto.
Qed.

End Constructores.

(** ** The singleton *)

Section Singleton.
Context {R : PyRuntime}.

Lemma Vuelo_init_solo_ValueError n o d f c e :
  Vuelo_init n o d f c = Raise e -> exists msg, e = ValueError msg.
Proof.
  unfold Vuelo_init, _validar_fecha.
  rewrite (validar_numero_valido n), (validar_ciudad_valida o),
    (validar_ciudad_valida d), (validar_capacidad_valida c).
  repeat case_match; intros; simplify_eq; eauto.
Qed.

Lemma crece_refl w : crece w w.
Proof.
  split; try reflexivity; rewrite Nat.sub_diag; simpl; now rewrite app_nil_r.
Qed.

Lemma seq_tramo a b c :
  a <= b -> b <= c -> seq a (b - a) ++ seq b (c - b) = seq a (c - a).
Proof.
  intros Hab Hbc. replace (c - a) with ((b - a) + (c - b)) by lia.
  rewrite seq_app. do 2 f_equal. lia.
Qed.

Lemma crece_trans w1 w2 w3 : crece w1 w2 -> crece w2 w3 -> crece w1 w3.
Proof.
  intros [P1 V1 R1 GP1 GV1 GR1 I1] [P2 V2 R2 GP2 GV2 GR2 I2].
  pose proof (prefix_length _ _ P1). pose proof (prefix_length _ _ P2).
  pose proof (prefix_length _ _ V1). pose proof (prefix_length _ _ V2).
  split.
  - etrans; eauto.
  - etrans; eauto.
  - congruence.
  - rewrite GP2, GP1, <- app_assoc, seq_tramo by assumption. reflexivity.
  - rewrite GV2, GV1, <- app_assoc, seq_tramo by assumption. reflexivity.
  - congruence.
  - congruence.
Qed.

Lemma uno_mas (n : nat) : n + 1 - n = 1.
Proof. lia. Qed.

(** One turn of the first loop: the [except] clause catches whatever the
    constructor raises. *)
Lemma paso_pasajero n a d w :
  exists w',
    salvo_ValueError (bind (Pasajero_new n a d)
      (fun pasajero => modificar (registrar_pasajero pasajero))) w
    = Some (Ok tt, w')
    /\ crece w w'.
Proof.
  unfold salvo_ValueError, bind. rewrite Pasajero_new_eq.
  destruct (Pasajero_init n a d) as [p|e] eqn:E.
  - eexists. split; [reflexivity|].
    split; simpl; try reflexivity.
    + now apply prefix_app_r.
    + rewrite length_app. simpl. now rewrite uno_mas.
    + rewrite Nat.sub_diag. simpl. now rewrite app_nil_r.
  - destruct (Pasajero_init_solo_ValueError _ _ _ _ E) as [msg ->].
    eexists. split; [reflexivity|apply crece_refl].
Qed.

Lemma paso_vuelo n o d f c w :
  exists w',
    salvo_ValueError (bind (Vuelo_new n o d f c)
      (fun vuelo => modificar (registrar_vuelo vuelo))) w
    = Some (Ok tt, w')
    /\ crece w w'.
Proof.
  unfold salvo_ValueError, bind. rewrite Vuelo_new_eq.
  destruct (Vuelo_init n o d f c) as [v|e] eqn:E.
  - eexists. split; [reflexivity|].
    split; simpl; try reflexivity.
    + now apply prefix_app_r.
    + rewrite Nat.sub_diag. simpl. now rewrite app_nil_r.
    + rewrite length_app. simpl. now rewrite uno_mas.
  - destruct (Vuelo_init_solo_ValueError _ _ _ _ _ _ E) as [msg ->].
    eexists. split; [reflexivity|apply crece_refl].
Qed.

Lemma para_cada_crece {A} (f : A -> M unit) (l : list A) :
  (forall x w, exists w', f x w = Some (Ok tt, w') /\ crece w w') ->
  forall w, exists w', para_cada f l w = Some (Ok tt, w') /\ crece w w'.
Proof.
  intros Hf. induction l as [|x l IH]; intros w; simpl.
  - exists w. split; [reflexivity|apply crece_refl].
  - destruct (Hf x w) as (w1 & E1 & C1). destruct (IH w1) as (w2 & E2 & C2).
    exists w2. unfold bind. rewrite E1. split; [exact E2|].
    eapply crece_trans; eauto.
Qed.

Lemma inicializar_datos_crece w :
  exists w', _inicializar_datos w = Some (Ok tt, w') /\ crece w w'.
Proof.
  unfold _inicializar_datos.
  destruct (para_cada_crece
    (fun '(nombre, apellido, documento) =>
       salvo_ValueError (bind (Pasajero_new nombre apellido documento)
         (fun pasajero => modificar (registrar_pasajero pasajero))))
    pasajeros_data) with (w := w) as (w1 & E1 & C1).
  { intros [[n a] d]. apply paso_pasajero. }
  destruct (para_cada_crece
    (fun '(numero, origen, destino, fecha, capacidad) =>
       salvo_ValueError (bind (Vuelo_new numero origen destino fecha capacidad)
         (fun vuelo => modificar (registrar_vuelo vuelo))))
    vuelos_data) with (w := w1) as (w2 & E2 & C2).
  { intros [[[[n o] d] f] c]. apply paso_vuelo. }
  exists w2. unfold bind at 1. rewrite E1. split; [exact E2|].
  eapply crece_trans; eauto.
Qed.


(** X4.  [GestorReservas()] never raises, whatever the seed data are worth:
    what a constructor raises is a [ValueError], which the loops catch.  It
    leaves the flag set, so a second call changes nothing.  The first call
    keeps every object there was, touches no reservation, and the registry
    then lists exactly the passengers and flights this call created, in
    order, and no reservation. *)
Theorem GestorReservas_new_total w :
  exists w',
    GestorReservas_new w = Some (Ok tt, w')
    /\ _initialized (gestor w') = true
    /\ GestorReservas_new w' = Some (Ok tt, w')
    /\ pasajeros_obj w `prefix_of` pasajeros_obj w'
    /\ vuelos_obj w `prefix_of` vuelos_obj w'
    /\ reservas_obj w' = reservas_obj w
    /\ if _initialized (gestor w) then w' = w
       else _pasajeros (gestor w')
            = seq (length (pasajeros_obj w))
                  (length (pasajeros_obj w') - length (pasajeros_obj w))
            /\ _vuelos (gestor w')
               = seq (length (vuelos_obj w))
                     (length (vuelos_obj w') - length (vuelos_obj w))
            /\ _reservas (gestor w') = [].
Proof.
  unfold GestorReservas_new at 1.
  destruct (_initialized (gestor w)) eqn:Hi.
  - exists w. unfold GestorReservas_new. rewrite Hi. repeat split; reflexivity.
  - rewrite bind_modificar.
    destruct (inicializar_datos_crece (set_gestor (mkGestor [] [] [] false) w))
      as (w1 & E1 & [P V Rs GP GV GR I]).
    unfold bind at 1. rewrite E1. unfold modificar. simpl in *.
    eexists. split; [reflexivity|]. simpl.
    split; [reflexivity|]. split; [reflexivity|].
    split; [exact P|]. split; [exact V|]. split; [exact Rs|].
    split; [exact GP|]. split; [exact GV|exact GR].
Qed.

End Singleton.

(** ** Looking up what was registered *)

Section Busquedas.
Context {R : PyRuntime}.

Implicit Types (w : Mundo).

Lemma buscar_primero_ausente {A} (h : list A) clave l k :
  Forall (fun r => r < length h) l ->
  (forall r x, r ∈ l -> h !! r = Some x -> clave x <> k) ->
  buscar_primero h clave l k = Some None.
Proof.
  intros Hl Hno. apply buscar_primero_None. apply Forall_forall. intros r Hr.
  pose proof (proj1 (Forall_forall _ _) Hl r Hr) as Hlt. cbv beta in Hlt.
  destruct (lookup_lt_is_Some_2 _ _ Hlt) as [x Hx].
  exists x. split; [exact Hx|]. eapply Hno; eauto.
Qed.

Lemma buscar_primero_presente {A} (h : list A) clave l k :
  Forall (fun r => r < length h) l ->
  (exists r x, r ∈ l /\ h !! r = Some x /\ clave x = k) ->
  exists r x, buscar_primero h clave l k = Some (Some r)
    /\ r ∈ l /\ h !! r = Some x /\ clave x = k.
Proof.
  intros Hl (r & x & Hr & Hx & Hk).
  destruct (buscar_primero_total h clave l k Hl) as [[r'|] Ho].
  - pose proof Ho as Ho'. apply buscar_primero_Some in Ho'.
    destruct Ho' as (l1 & l2 & x' & El & Hx' & Hk' & _).
    exists r', x'. split; [exact Ho|]. split; [|auto].
    rewrite El. apply elem_of_app. right. constructor.
  - apply buscar_primero_None in Ho.
    destruct (proj1 (Forall_forall _ _) Ho r Hr) as (x' & Hx' & Hne). congruence.
Qed.

(** The loop over a registry that has one more object, created last. *)
Lemma buscar_primero_snoc {A} (h : list A) clave l k x :
  Forall (fun r => r < length h) l ->
  buscar_primero (h ++ [x]) clave (l ++ [length h]) k
  = match buscar_primero h clave l k with
    | Some None =>
        if str_eqb (clave x) k then Some (Some (length h)) else Some None
    | o => o
    end.
Proof.
  induction 1 as [|r l Hr Hl IH]; simpl.
  - rewrite (list_lookup_middle h [] x _ eq_refl). simpl.
    destruct (str_eqb (clave x) k); reflexivity.
  - rewrite lookup_app_l by exact Hr.
    destruct (h !! r) as [y|]; simpl; [|reflexivity].
    destruct (str_eqb (clave y) k); [reflexivity|]. exact IH.
Qed.

(** X5.  The two "not found" errors of [crear_reserva]: with no registered
    passenger of that document the call raises "Pasajero no encontrado",
    whatever the flight number; with such a passenger and no registered
    flight of that number it raises "Vuelo no encontrado".  In both cases
    the world is the same afterwards: no reservation object was made. *)
Theorem crear_reserva_no_encontrado w nv dp t :
  bien_formado w ->
  ((forall r p, r ∈ _pasajeros (gestor w) -> pasajeros_obj w !! r = Some p ->
      documento p <> dp) ->
   crear_reserva nv dp t w
   = Some (Raise (ReservaException "Pasajero no encontrado"), w))
  /\ ((exists r p, r ∈ _pasajeros (gestor w) /\ pasajeros_obj w !! r = Some p
         /\ documento p = dp) ->
      (forall f v, f ∈ _vuelos (gestor w) -> vuelos_obj w !! f = Some v ->
         numero v <> nv) ->
      crear_reserva nv dp t w
      = Some (Raise (ReservaException "Vuelo no encontrado"), w)).
Proof.
  intros Hbf. rewrite crear_reserva_eq.
  unfold buscar_pasajero_por_documento, buscar_vuelo_por_numero. split.
  - intros Hno.
    rewrite (buscar_primero_ausente _ _ _ _ (bf_gestor_pasajeros _ Hbf) Hno).
    reflexivity.
  - intros Hsi Hno.
    destruct (buscar_primero_presente _ _ _ _ (bf_gestor_pasajeros _ Hbf) Hsi)
      as (r & p & -> & _).
    rewrite (buscar_primero_ausente _ _ _ _ (bf_gestor_vuelos _ Hbf) Hno).
    reflexivity.
Qed.

(** X6.  After [agregar_pasajero] has returned a passenger, that passenger
    holds the normalized values, and a search by document gives what it gave
    before, except that a search for the trimmed document which found nobody
    now finds the new passenger.  So a search with the very argument of the
    call finds the new passenger when the argument needed no trimming, and
    nobody otherwise. *)
Theorem agregar_luego_buscar w n a d r w' :
  Forall (fun r => r < length (pasajeros_obj w)) (_pasajeros (gestor w)) ->
  agregar_pasajero n a d w = Some (Ok r, w') ->
  pasajeros_obj w' !! r
  = Some (mkPasajero (title (strip n)) (title (strip a)) (strip d))
  /\ (forall k,
        buscar_pasajero_por_documento k w'
        = match buscar_pasajero_por_documento k w with
          | Some None => if str_eqb (strip d) k then Some (Some r) else Some None
          | o => o
          end)
  /\ buscar_pasajero_por_documento d w'
     = if str_eqb (strip d) d then Some (Some r) else Some None.
Proof.
  intros Hbf H. rewrite agregar_pasajero_eq in H.
  destruct (buscar_pasajero_por_documento d w) as [[r0|]|] eqn:Hb; simplify_eq.
  destruct (Pasajero_init n a d) as [p|e] eqn:Hp; simplify_eq.
  apply Pasajero_init_Ok in Hp. destruct Hp as (Hn & Ha & Hd).
  apply validar_nombre_Ok in Hn. apply validar_nombre_Ok in Ha.
  apply validar_documento_Ok in Hd. destruct p as [pn pa pd]. simpl in *. subst.
  assert (Hk : forall k,
    buscar_pasajero_por_documento k
      (registrar_pasajero (length (pasajeros_obj w))
         (set_pasajeros_obj
            (pasajeros_obj w
             ++ [mkPasajero (title (strip n)) (title (strip a)) (strip d)]) w))
    = match buscar_pasajero_por_documento k w with
      | Some None =>
          if str_eqb (strip d) k then Some (Some (length (pasajeros_obj w)))
          else Some None
      | o => o
      end).
  { intros k. unfold buscar_pasajero_por_documento. simpl.
    rewrite buscar_primero_snoc by exact Hbf. reflexivity. }
  split; [|split].
  - simpl. apply (list_lookup_middle _ [] _ _ eq_refl).
  - exact Hk.
  - rewrite Hk, Hb. reflexivity.
Qed.

End Busquedas.

(** ** Seats taken and given back *)

Section Plazas.
Context {R : PyRuntime}.

Implicit Types (w : Mundo) (h : list Reserva) (l : list ref).

Lemma activas_baja h r x x' l :
  h !! r = Some x -> estado x' <> ACTIVA ->
  activas (<[r := x']> h) l = filter (fun r' => r' <> r) (activas h l).
Proof.
  intros Hx Hx'. unfold activas. induction l as [|r' l IH]; [reflexivity|].
  rewrite !filter_cons, IH.
  assert (Hlt : r < length h) by exact (lookup_lt_Some _ _ _ Hx).
  destruct (decide (r' = r)) as [->|Hne].
  - assert (E : es_activa (<[r := x']> h) r = false).
    { unfold es_activa. rewrite (list_lookup_insert_eq h r x' Hlt).
      destruct (estado_eqb (estado x') ACTIVA) eqn:E; [|reflexivity].
      apply estado_eqb_eq in E. contradiction. }
    rewrite E. destruct (decide (false = true)); [discriminate|].
    destruct (decide (es_activa h r = true)); [|reflexivity].
    rewrite filter_cons. destruct (decide (r <> r)); [contradiction|reflexivity].
  - assert (E : es_activa (<[r := x']> h) r' = es_activa h r').
    { unfold es_activa. rewrite list_lookup_insert_ne by auto. reflexivity. }
    rewrite E. destruct (decide (es_activa h r' = true)); [|reflexivity].
    rewrite filter_cons. destruct (decide (r' <> r)); [reflexivity|contradiction].
Qed.

Lemma filter_quita (l : list ref) r :
  NoDup l ->
  length (filter (fun r' => r' <> r) l) + (if bool_decide (r ∈ l) then 1 else 0)
  = length l.
Proof.
  induction 1 as [|r' l Hni Hnd IH]; [reflexivity|].
  rewrite filter_cons. destruct (decide (r' <> r)) as [Hne|He].
  - simpl. rewrite <- IH.
    destruct (bool_decide_reflect (r ∈ l)) as [Hin|Hno].
    + rewrite bool_decide_eq_true_2 by (now right). lia.
    + rewrite bool_decide_eq_false_2; [lia|].
      intros Hc. apply elem_of_cons in Hc. destruct Hc; [congruence|contradiction].
  - assert (r' = r) as -> by (destruct (decide (r' = r)); [auto|contradiction]).
    rewrite bool_decide_eq_true_2 by (now left).
    assert (E : filter (fun r' => r' <> r) l = l).
    { clear IH Hnd. induction l as [|y l IHl]; [reflexivity|].
      rewrite filter_cons. destruct (decide (y <> r)) as [_|Hy].
      - f_equal. apply IHl. intros Hc. apply Hni. now right.
      - exfalso. apply Hni. destruct (decide (y = r)) as [->|]; [now left|].
        contradiction. }
    rewrite E. simpl. lia.
Qed.

Lemma activas_sin_repetir h v :
  vuelo_ok h v -> NoDup (activas h (reservas v)).
Proof. intros Hv. eapply NoDup_fmap_1, (vo_unica _ _ Hv). Qed.

(** The seats of a flight after one entry of the store has left [ACTIVA]. *)
Lemma plazas_tras_baja w f v r x x' :
  invariante w -> vuelos_obj w !! f = Some v ->
  reservas_obj w !! r = Some x -> estado x = ACTIVA -> estado x' <> ACTIVA ->
  exists c, capacidad_disponible f w = Some c
    /\ capacidad_disponible f (set_reservas_obj (<[r := x']> (reservas_obj w)) w)
       = Some (c + (if bool_decide (r ∈ reservas v) then 1 else 0))%Z.
Proof.
  intros Hw Hv Hx Ha Hx'.
  pose proof (Forall_lookup_1 _ _ _ _ (bf_vuelos _ (inv_bf _ Hw)) Hv) as Hl.
  pose proof (Forall_lookup_1 _ _ _ _ (inv_vuelos _ Hw) Hv) as Hok.
  cbv beta in Hl. eexists. split; [apply capacidad_disponible_eq; eauto|].
  rewrite (capacidad_disponible_eq f _ v);
    [|exact Hv|simpl; rewrite length_insert; exact Hl].
  simpl. rewrite (activas_baja _ _ _ _ _ Hx Hx').
  pose proof (filter_quita _ r (activas_sin_repetir _ _ Hok)) as E.
  assert (Hin : bool_decide (r ∈ activas (reservas_obj w) (reservas v))
                = bool_decide (r ∈ reservas v)).
  { apply bool_decide_ext. unfold activas. rewrite list_elem_of_filter.
    split; [tauto|]. intros Hr. split; [|exact Hr].
    apply es_activa_true. eauto. }
  rewrite Hin in E. f_equal.
  destruct (bool_decide (r ∈ reservas v)); lia.
Qed.

(** X7.  Cancelling or completing a reservation gives back exactly one seat
    on every flight whose list holds it, and none on any other flight; the
    flight that the reservation itself names plays no part.  A completed
    reservation frees its seat like a cancelled one. *)
Theorem baja_libera_plaza w f v r w' :
  alcanzable w -> vuelos_obj w !! f = Some v ->
  cancelar r w = Some (Ok tt, w') \/ completar r w = Some (Ok tt, w') ->
  exists c, capacidad_disponible f w = Some c
    /\ capacidad_disponible f w'
       = Some (c + (if bool_decide (r ∈ reservas v) then 1 else 0))%Z.
Proof.
  intros Hw Hv H. apply alcanzable_invariante in Hw.
  unfold cancelar, completar in H. rewrite !en_reserva_eq in H.
  destruct (reservas_obj w !! r) as [x|] eqn:Hx; [|destruct H; discriminate].
  destruct H as [H|H].
  - destruct (Reserva_cancelar x) as [x'|e] eqn:E; simplify_eq.
    apply Reserva_cancelar_Ok in E. destruct E as [Ha ->].
    eapply plazas_tras_baja; eauto; discriminate.
  - destruct (Reserva_completar x) as [x'|e] eqn:E; simplify_eq.
    apply Reserva_completar_Ok in E. destruct E as [Ha ->].
    eapply plazas_tras_baja; eauto; discriminate.
Qed.

(** The seats of every flight after a reservation for [f] has been made,
    put in the list of [f] and recorded. *)
Lemma plazas_tras_reserva w f p t v g vg :
  bien_formado w -> vuelos_obj w !! f = Some v -> vuelos_obj w !! g = Some vg ->
  let r := length (reservas_obj w) in
  let w1 := registrar_reserva r
              (set_vuelos_obj
                 (<[f := con_reservas v (reservas v ++ [r])]> (vuelos_obj w))
                 (set_reservas_obj (reservas_obj w ++ [mkReserva f p ACTIVA t]) w)) in
  exists c vg1,
    capacidad_disponible g w = Some c
    /\ capacidad_disponible g w1 = Some (if decide (g = f) then c - 1 else c)%Z
    /\ vuelos_obj w1 !! g = Some vg1
    /\ (r ∈ reservas vg1 <-> g = f).
Proof.
  intros Hbf Hv Hg r w1.
  pose proof (Forall_lookup_1 _ _ _ _ (bf_vuelos _ Hbf) Hv) as Hl.
  pose proof (Forall_lookup_1 _ _ _ _ (bf_vuelos _ Hbf) Hg) as Hlg.
  cbv beta in Hl, Hlg.
  assert (Hf : f < length (vuelos_obj w)) by exact (lookup_lt_Some _ _ _ Hv).
  assert (Hfuera : forall l, Forall (fun r' => r' < length (reservas_obj w)) l ->
            r ∉ l).
  { intros l Hfl Hin. apply (proj1 (Forall_forall _ _) Hfl) in Hin.
    subst r. lia. }
  eexists. destruct (decide (g = f)) as [->|Hne].
  - assert (vg = v) as -> by congruence.
    exists (con_reservas v (reservas v ++ [r])).
    assert (Hv1 : vuelos_obj w1 !! f = Some (con_reservas v (reservas v ++ [r]))).
    { subst w1. simpl. apply list_lookup_insert_eq. exact Hf. }
    split; [apply capacidad_disponible_eq; eauto|]. split; [|split].
    + rewrite (capacidad_disponible_eq f w1 _ Hv1).
      * subst w1. cbn [reservas con_reservas]. simpl reservas_obj.
        rewrite activas_snoc, (activas_nuevo _ _ _ Hl).
        assert (E : es_activa (reservas_obj w ++ [mkReserva f p ACTIVA t]) r
                    = true).
        { unfold es_activa. subst r.
          rewrite (list_lookup_middle _ [] _ _ eq_refl). reflexivity. }
        rewrite E, length_app. simpl. f_equal. lia.
      * subst w1. cbn [reservas con_reservas]. simpl reservas_obj.
        rewrite length_app. simpl. apply Forall_app. split.
        -- eapply Forall_impl; [exact Hl|]. intros; simpl in *; lia.
        -- repeat constructor. subst r. lia.
    + exact Hv1.
    + cbn [reservas con_reservas]. split; [reflexivity|]. intros _.
      apply elem_of_app. right. constructor.
  - exists vg.
    assert (Hg1 : vuelos_obj w1 !! g = Some vg).
    { subst w1. simpl. rewrite list_lookup_insert_ne by auto. exact Hg. }
    split; [apply capacidad_disponible_eq; eauto|]. split; [|split].
    + rewrite (capacidad_disponible_eq g w1 _ Hg1).
      * subst w1. simpl reservas_obj. rewrite (activas_nuevo _ _ _ Hlg).
        reflexivity.
      * subst w1. simpl reservas_obj. rewrite length_app. simpl.
        eapply Forall_impl; [exact Hlg|]. intros; simpl in *; lia.
    + exact Hg1.
    + split; [|contradiction]. intros Hin. exfalso. exact (Hfuera _ Hlg Hin).
Qed.

(** X8.  A reservation made by [crear_reserva] takes exactly one seat, on
    the flight found by its number, which had one or more; the seats of
    every other flight are what they were. *)
Theorem reserva_ocupa_plaza w nv dp t r w' :
  alcanzable w -> crear_reserva nv dp t w = Some (Ok r, w') ->
  exists f,
    buscar_vuelo_por_numero nv w = Some (Some f)
    /\ forall g vg, vuelos_obj w !! g = Some vg ->
       exists c, capacidad_disponible g w = Some c
         /\ (g = f -> 0 < c)%Z
         /\ capacidad_disponible g w'
            = Some (if decide (g = f) then c - 1 else c)%Z.
Proof.
  intros Hw H. apply alcanzable_invariante in Hw. destruct Hw as [Hbf _ _].
  destruct (crear_reserva_Ok _ _ _ _ _ _ Hbf H)
    as (p & f & v & q & _ & Hf & Hv & _ & Hc & _ & -> & ->).
  exists f. split; [exact Hf|]. intros g vg Hg.
  destruct (plazas_tras_reserva w f p t v g vg Hbf Hv Hg)
    as (c & vg1 & E & E1 & _ & _).
  exists c. split; [exact E|]. split; [|exact E1].
  intros ->. assert (vg = v) as -> by congruence.
  pose proof (Forall_lookup_1 _ _ _ _ (bf_vuelos _ Hbf) Hv) as Hl.
  rewrite (capacidad_disponible_eq f w v Hv Hl) in E. congruence.
Qed.

(** X9.  Booking and then cancelling, or completing, the reservation just
    made leaves every flight with the seats it had before the booking. *)
Theorem reservar_y_anular w nv dp t r w1 :
  alcanzable w -> crear_reserva nv dp t w = Some (Ok r, w1) ->
  (exists w2, cancelar r w1 = Some (Ok tt, w2)
     /\ forall g, capacidad_disponible g w2 = capacidad_disponible g w)
  /\ (exists w2, completar r w1 = Some (Ok tt, w2)
        /\ forall g, capacidad_disponible g w2 = capacidad_disponible g w).
Proof.
  intros Hw H. apply alcanzable_invariante in Hw.
  pose proof (crear_reserva_conserva _ _ _ _ _ _ Hw H) as Hw1.
  pose proof (inv_bf _ Hw) as Hbf.
  destruct (crear_reserva_Ok _ _ _ _ _ _ Hbf H)
    as (p & f & v & q & _ & Hf & Hv & _ & _ & _ & -> & E1).
  set (r := length (reservas_obj w)) in *.
  assert (Hr : reservas_obj w1 !! r = Some (mkReserva f p ACTIVA t)).
  { rewrite E1. simpl. apply (list_lookup_middle _ [] _ _ eq_refl). }
  assert (Hgen : forall x', estado x' <> ACTIVA -> forall g,
            capacidad_disponible g
              (set_reservas_obj (<[r := x']> (reservas_obj w1)) w1)
            = capacidad_disponible g w).
  { intros x' Hx' g. destruct (vuelos_obj w !! g) as [vg|] eqn:Hg.
    - destruct (plazas_tras_reserva w f p t v g vg Hbf Hv Hg)
        as (c & vg1 & Ec & Ec1 & Hg1 & Hin).
      fold r in Ec1, Hg1, Hin. rewrite <- E1 in Ec1, Hg1.
      destruct (plazas_tras_baja w1 g vg1 r _ x' Hw1 Hg1 Hr eq_refl Hx')
        as (c1 & Ec1' & Ec2).
      rewrite Ec2, Ec. f_equal. assert (c1 = if decide (g = f) then c - 1 else c)%Z
        by congruence. subst c1.
      destruct (decide (g = f)) as [Hgf|Hgf].
      + rewrite bool_decide_eq_true_2 by (apply Hin; exact Hgf). lia.
      + rewrite bool_decide_eq_false_2 by (rewrite Hin; exact Hgf). lia.
    - unfold capacidad_disponible. rewrite Hg. simpl.
      assert (vuelos_obj w1 !! g = None) as ->; [|reflexivity].
      rewrite E1. simpl. apply lookup_ge_None. rewrite length_insert.
      apply lookup_ge_None. exact Hg. }
  split.
  - eexists. rewrite (cancelar_eq _ _ _ Hr). simpl. split; [reflexivity|].
    apply Hgen. discriminate.
  - eexists. rewrite (completar_eq _ _ _ Hr). simpl. split; [reflexivity|].
    apply Hgen. discriminate.
Qed.

End Plazas.

(** ** Nothing is taken away *)

Section Permanencia.
Context {R : PyRuntime}.

Implicit Types (w : Mundo).

Lemma vuelo_crece_refl v : vuelo_crece v v.
Proof. repeat split; reflexivity. Qed.

Lemma solo_crece_mismos w w' :
  vuelos_obj w' = vuelos_obj w -> gestor w' = gestor w -> solo_crece w w'.
Proof.
  intros Ev Eg. split.
  - intros f v Hv. exists v. rewrite Ev. split; [exact Hv|apply vuelo_crece_refl].
  - rewrite Eg. intros Hi. repeat split; auto.
Qed.

Lemma solo_crece_refl w : solo_crece w w.
Proof. now apply solo_crece_mismos. Qed.

Lemma solo_crece_trans w1 w2 w3 :
  solo_crece w1 w2 -> solo_crece w2 w3 -> solo_crece w1 w3.
Proof.
  intros [V1 G1] [V2 G2]. split.
  - intros f v Hv. destruct (V1 f v Hv) as (v' & Hv' & C1).
    destruct (V2 f v' Hv') as (v'' & Hv'' & C2). exists v''.
    split; [exact Hv''|].
    destruct C1 as (?&?&?&?&?&?), C2 as (?&?&?&?&?&?).
    repeat split; try congruence. etrans; eauto.
  - intros Hi. destruct (G1 Hi) as (Hi2 & P1 & F1 & S1).
    destruct (G2 Hi2) as (Hi3 & P2 & F2 & S2).
    split; [exact Hi3|]. repeat split; etrans; eauto.
Qed.

Lemma solo_crece_vuelo_nuevo w v :
  solo_crece w (set_vuelos_obj (vuelos_obj w ++ [v]) w).
Proof.
  split.
  - intros f u Hu. exists u. simpl.
    rewrite lookup_app_l_Some with (x := u) by exact Hu.
    split; [reflexivity|apply vuelo_crece_refl].
  - simpl. intros Hi. repeat split; auto.
Qed.

Lemma solo_crece_lista w f v r :
  vuelos_obj w !! f = Some v ->
  solo_crece w (set_vuelos_obj
    (<[f := con_reservas v (reservas v ++ [r])]> (vuelos_obj w)) w).
Proof.
  intros Hv. split.
  - intros g u Hu. simpl. destruct (decide (f = g)) as [<-|Hne].
    + exists (con_reservas v (reservas v ++ [r])).
      rewrite list_lookup_insert_eq by exact (lookup_lt_Some _ _ _ Hv).
      split; [reflexivity|]. assert (u = v) as -> by congruence.
      repeat split; try reflexivity. simpl. now apply prefix_app_r.
    + exists u. rewrite list_lookup_insert_ne by exact Hne.
      split; [exact Hu|apply vuelo_crece_refl].
  - simpl. intros Hi. repeat split; auto.
Qed.

Lemma solo_crece_registro w g :
  (_initialized (gestor w) = true ->
   _initialized g = true
   /\ _pasajeros (gestor w) `prefix_of` _pasajeros g
   /\ _vuelos (gestor w) `prefix_of` _vuelos g
   /\ _reservas (gestor w) `prefix_of` _reservas g) ->
  solo_crece w (set_gestor g w).
Proof.
  intros Hg. split; [|exact Hg].
  intros f v Hv. exists v. split; [exact Hv|apply vuelo_crece_refl].
Qed.

Lemma agregar_reserva_solo_crece f r w o w' :
  agregar_reserva f r w = Some (o, w') -> solo_crece w w'.
Proof.
  intros H. rewrite agregar_reserva_eq in H.
  repeat case_match; simplify_eq; try apply solo_crece_refl.
  now apply solo_crece_lista.
Qed.

Lemma Reserva_new_solo_crece v p t w o w' :
  Reserva_new v p t w = Some (o, w') -> solo_crece w w'.
Proof.
  intros H. rewrite Reserva_new_eq in H.
  repeat case_match; simplify_eq. now apply solo_crece_mismos.
Qed.

Lemma crear_reserva_solo_crece nv dp t w o w' :
  crear_reserva nv dp t w = Some (o, w') -> solo_crece w w'.
Proof.
  intros H. rewrite crear_reserva_eq in H.
  destruct (buscar_pasajero_por_documento dp w) as [[p|]|]; simplify_eq;
    [|apply solo_crece_refl].
  destruct (buscar_vuelo_por_numero nv w) as [[v|]|]; simplify_eq;
    [|apply solo_crece_refl].
  destruct (Reserva_new v p t w) as [[[r|e] w1]|] eqn:H1; simplify_eq.
  - pose proof (Reserva_new_solo_crece _ _ _ _ _ _ H1) as C1.
    destruct (agregar_reserva v r w1) as [[[[]|e] w2]|] eqn:H2; simplify_eq;
      pose proof (agregar_reserva_solo_crece _ _ _ _ _ H2) as C2.
    + eapply solo_crece_trans; [exact C1|]. eapply solo_crece_trans; [exact C2|].
      apply solo_crece_registro. simpl. intros Hi. repeat split; auto.
      now apply prefix_app_r.
    + eapply solo_crece_trans; eauto.
  - eapply Reserva_new_solo_crece; eauto.
Qed.

Lemma GestorReservas_new_solo_crece w o w' :
  GestorReservas_new w = Some (o, w') -> solo_crece w w'.
Proof.
  unfold GestorReservas_new. destruct (_initialized (gestor w)) eqn:Hi.
  - intros; simplify_eq. apply solo_crece_refl.
  - rewrite bind_modificar.
    destruct (inicializar_datos_crece (set_gestor (mkGestor [] [] [] false) w))
      as (w1 & E1 & [_ V _ _ _ _ _]).
    unfold bind at 1. rewrite E1. unfold modificar. intros; simplify_eq.
    split; [|rewrite Hi; discriminate].
    intros f v Hv. exists v. simpl in *. split; [|apply vuelo_crece_refl].
    destruct V as [k ->]. now apply lookup_app_l_Some.
Qed.

Lemma setter_solo_crece (valida : str -> result str)
    (pone : Pasajero -> str -> Pasajero) self valor w o w' :
  bind (leer (fun w => pasajeros_obj w !! self))
    (fun p => match valida valor with
              | Raise e => raise e
              | Ok s => modificar (fun w => set_pasajeros_obj
                          (<[self := pone p s]> (pasajeros_obj w)) w)
              end) w = Some (o, w') ->
  solo_crece w w'.
Proof.
  intros H. rewrite bind_leer in H.
  destruct (pasajeros_obj w !! self) as [p|]; [|discriminate].
  destruct (valida valor); unfold raise, modificar in H; simplify_eq;
    now apply solo_crece_mismos.
Qed.

Lemma ejecutar_solo_crece c w w' : ejecutar c w = Some w' -> solo_crece w w'.
Proof.
  destruct c as [n a d|q s|q s|q s|n og ds fe cp|fv fp t|fv fr|fr|fr| |n a d|nv dp t];
    simpl; unfold efecto;
    match goal with |- context [match ?m w with _ => _ end] =>
      destruct (m w) as [[o w1]|] eqn:E; [|discriminate]
    end; intros [= <-].
  - rewrite Pasajero_new_eq in E.
    repeat case_match; simplify_eq; now apply solo_crece_mismos.
  - revert E. apply setter_solo_crece.
  - revert E. apply setter_solo_crece.
  - revert E. apply setter_solo_crece.
  - rewrite Vuelo_new_eq in E.
    repeat case_match; simplify_eq;
      [apply solo_crece_vuelo_nuevo|apply solo_crece_refl].
  - eapply Reserva_new_solo_crece; eauto.
  - eapply agregar_reserva_solo_crece; eauto.
  - unfold cancelar in E. rewrite en_reserva_eq in E.
    repeat case_match; simplify_eq; now apply solo_crece_mismos.
  - unfold completar in E. rewrite en_reserva_eq in E.
    repeat case_match; simplify_eq; now apply solo_crece_mismos.
  - eapply GestorReservas_new_solo_crece; eauto.
  - rewrite agregar_pasajero_eq in E.
    destruct (buscar_pasajero_por_documento d w) as [[r|]|];
      simplify_eq; [apply solo_crece_refl|].
    destruct (Pasajero_init n a d) as [p|e]; simplify_eq;
      [|apply solo_crece_refl].
    apply (solo_crece_trans _ (set_pasajeros_obj (pasajeros_obj w ++ [p]) w)).
    + now apply solo_crece_mismos.
    + apply solo_crece_registro. simpl. intros Hi. repeat split; auto.
      now apply prefix_app_r.
  - eapply crear_reserva_solo_crece; eauto.
Qed.

(** X10.  No public call takes anything away.  After any sequence of calls
    every flight is the object it was, with the number, cities, date and
    capacity it had, and its list of reservations begins with the list it
    had: entries are added at the end and never removed, also when a
    reservation is cancelled.  A registry that was initialized stays so, and
    its lists of passengers, flights and reservations only grow at the
    end. *)
Theorem nada_se_borra cs w w' : correr cs w = Some w' -> solo_crece w w'.
Proof.
  revert w. induction cs as [|c cs IH]; intros w; simpl.
  - intros [= <-]. apply solo_crece_refl.
  - destruct (ejecutar c w) as [w1|] eqn:E; [|discriminate].
    intros H. eapply solo_crece_trans; [|exact (IH _ H)].
    eapply ejecutar_solo_crece; eauto.
Qed.

End Permanencia.

(** ** What every stored object satisfies *)

Section Datos.
Context {R : PyRuntime}.

Implicit Types (w : Mundo).

Section Vuelos.

Variable P : Vuelo -> Prop.
Hypothesis P_init : forall n o d f c v, Vuelo_init n o d f c = Ok v -> P v.
Hypothesis P_lista : forall v l, P v -> P (con_reservas v l).

Let Q w : Prop := Forall P (vuelos_obj w).

Lemma Q_agregar_reserva f r w o w' :
  Q w -> agregar_reserva f r w = Some (o, w') -> Q w'.
Proof using P_lista.
  intros Hq H. rewrite agregar_reserva_eq in H.
  destruct (capacidad_disponible f w) as [c|]; [|discriminate].
  destruct (c <=? 0)%Z; simplify_eq; [exact Hq|].
  destruct (vuelos_obj w !! f) as [v|] eqn:Hv; [|discriminate].
  destruct (reservas_obj w !! r) as [x|]; [|discriminate].
  destruct (pasajeros_obj w !! pasajero x) as [p|]; [|discriminate].
  destruct (ya_reservado w (reservas v) p) as [[]|]; simplify_eq; [exact Hq|].
  unfold Q. simpl. apply Forall_insert; [exact Hq|].
  apply P_lista. exact (Forall_lookup_1 _ _ _ _ Hq Hv).
Qed.

Lemma Q_Vuelo_new n o d f c w res w' :
  Q w -> Vuelo_new n o d f c w = Some (res, w') -> Q w'.
Proof using P_init.
  intros Hq H. rewrite Vuelo_new_eq in H.
  destruct (Vuelo_init n o d f c) as [v|e] eqn:E; simplify_eq; [|exact Hq].
  unfold Q. simpl. apply Forall_app. split; [exact Hq|].
  repeat constructor. eapply P_init; eauto.
Qed.

Lemma Q_crear_reserva nv dp t w o w' :
  Q w -> crear_reserva nv dp t w = Some (o, w') -> Q w'.
Proof using P_lista.
  intros Hq H. rewrite crear_reserva_eq in H.
  destruct (buscar_pasajero_por_documento dp w) as [[p|]|]; simplify_eq;
    [|exact Hq].
  destruct (buscar_vuelo_por_numero nv w) as [[v|]|]; simplify_eq; [|exact Hq].
  rewrite Reserva_new_eq in H.
  destruct (vuelos_obj w !! v); [|discriminate].
  destruct (pasajeros_obj w !! p); [|discriminate].
  match type of H with
  | match agregar_reserva ?a ?b ?c with _ => _ end = _ =>
      destruct (agregar_reserva a b c) as [[o2 w2]|] eqn:H2; [|discriminate]
  end.
  assert (Hq2 : Q w2) by (eapply Q_agregar_reserva; [|exact H2]; exact Hq).
  destruct o2 as [[]|e]; simplify_eq; exact Hq2.
Qed.

Lemma Q_GestorReservas_new w o w' : Q w -> GestorReservas_new w = Some (o, w') -> Q w'.
Proof using P_init.
  intros Hq. unfold GestorReservas_new.
  destruct (_initialized (gestor w)); [intros; simplify_eq; exact Hq|].
  rewrite bind_modificar.
  assert (Hdatos : forall w0 o0 w0', Q w0 ->
            _inicializar_datos w0 = Some (o0, w0') -> Q w0').
  { intros w0 o0 w0' H0 H. unfold _inicializar_datos in H.
    assert (Hpas : forall w1 o1 w1', Q w1 ->
      para_cada (fun '(nombre, apellido, documento) =>
        salvo_ValueError (bind (Pasajero_new nombre apellido documento)
          (fun pasajero => modificar (registrar_pasajero pasajero))))
        pasajeros_data w1 = Some (o1, w1') -> Q w1').
    { apply para_cada_prop. intros [[n a] d]. apply salvo_ValueError_prop.
      intros w2 o2 w2' H2 E. unfold bind in E. rewrite Pasajero_new_eq in E.
      destruct (Pasajero_init n a d); unfold modificar in E; simplify_eq;
        exact H2. }
    assert (Hvue : forall w1 o1 w1', Q w1 ->
      para_cada (fun '(numero, origen, destino, fecha, capacidad) =>
        salvo_ValueError (bind (Vuelo_new numero origen destino fecha capacidad)
          (fun vuelo => modificar (registrar_vuelo vuelo))))
        vuelos_data w1 = Some (o1, w1') -> Q w1').
    { apply para_cada_prop. intros [[[[n og] ds] fe] c].
      apply salvo_ValueError_prop.
      intros w2 o2 w2' H2 E. apply bind_Some in E.
      destruct E as [(e & E & _)|(r & w3 & E & E')].
      - eapply Q_Vuelo_new; eauto.
      - unfold modificar in E'. simplify_eq.
        assert (Hq3 : Q w3) by (eapply Q_Vuelo_new; eauto).
        exact Hq3. }
    apply bind_Some in H. destruct H as [(e & H & _)|(a & w1 & H & H')]; eauto. }
  intros H. apply bind_Some in H.
  destruct H as [(e & H & _)|([] & w1 & H & H')].
  - eapply Hdatos; [|exact H]. exact Hq.
  - unfold modificar in H'. simplify_eq.
    assert (Hq1 : Q w1) by (eapply Hdatos; [|exact H]; exact Hq).
    exact Hq1.
Qed.

Lemma Q_setter (valida : str -> result str)
    (pone : Pasajero -> str -> Pasajero) self valor w o w' :
  Q w ->
  bind (leer (fun w => pasajeros_obj w !! self))
    (fun p => match valida valor with
              | Raise e => raise e
              | Ok s => modificar (fun w => set_pasajeros_obj
                          (<[self := pone p s]> (pasajeros_obj w)) w)
              end) w = Some (o, w') ->
  Q w'.
Proof.
  intros Hq H. rewrite bind_leer in H.
  destruct (pasajeros_obj w !! self) as [p|]; [|discriminate].
  destruct (valida valor); unfold raise, modificar in H; simplify_eq; exact Hq.
Qed.

Lemma Q_ejecutar c w w' : Q w -> ejecutar c w = Some w' -> Q w'.
Proof using P_init P_lista.
  intros Hq.
  destruct c as [n a d|q s|q s|q s|n og ds fe cp|fv fp t|fv fr|fr|fr| |n a d|nv dp t];
    simpl; unfold efecto;
    match goal with |- context [match ?m w with _ => _ end] =>
      destruct (m w) as [[o w1]|] eqn:E; [|discriminate]
    end; intros [= <-].
  - rewrite Pasajero_new_eq in E.
    destruct (Pasajero_init n a d); simplify_eq; exact Hq.
  - revert E. apply Q_setter. exact Hq.
  - revert E. apply Q_setter. exact Hq.
  - revert E. apply Q_setter. exact Hq.
  - eapply Q_Vuelo_new; eauto.
  - rewrite Reserva_new_eq in E.
    destruct (vuelos_obj w !! fv); [|discriminate].
    destruct (pasajeros_obj w !! fp); simplify_eq. exact Hq.
  - eapply Q_agregar_reserva; eauto.
  - unfold cancelar in E. rewrite en_reserva_eq in E.
    destruct (reservas_obj w !! fr) as [x|]; [|discriminate].
    destruct (Reserva_cancelar x); simplify_eq; exact Hq.
  - unfold completar in E. rewrite en_reserva_eq in E.
    destruct (reservas_obj w !! fr) as [x|]; [|discriminate].
    destruct (Reserva_completar x); simplify_eq; exact Hq.
  - eapply Q_GestorReservas_new; eauto.
  - rewrite agregar_pasajero_eq in E.
    destruct (buscar_pasajero_por_documento d w) as [[r|]|]; simplify_eq;
      [exact Hq|].
    destruct (Pasajero_init n a d); simplify_eq; exact Hq.
  - eapply Q_crear_reserva; eauto.
Qed.

(** Whatever the constructor establishes and the list of reservations does
    not touch holds of every flight of a reachable world. *)
Lemma alcanzable_vuelos w : alcanzable w -> Forall P (vuelos_obj w).
Proof using P_init P_lista.
  induction 1 as [|w c w' _ IH E].
  - constructor.
  - exact (Q_ejecutar _ _ _ IH E).
Qed.

End Vuelos.

Lemma validar_documento_valido d k :
  _validar_documento d = Ok k -> documento_valido d = true.
Proof.
  intros H. destruct (documento_valido d) eqn:E; [reflexivity|].
  destruct (validar_documento_error _ E) as [msg E']. congruence.
Qed.

Lemma validar_numero_Ok n k :
  _validar_numero_vuelo n = Ok k -> numero_valido n = true /\ k = upper (strip n).
Proof.
  rewrite validar_numero_valido.
  destruct (numero_valido n); [intros [= <-]; auto|].
  destruct (vacia n || vacia (strip n)); discriminate.
Qed.

Lemma validar_fecha_Ok f k : _validar_fecha f = Ok k -> k = f /\ strptime_Ymd f = true.
Proof.
  unfold _validar_fecha. destruct (strptime_Ymd f); [intros [= <-]; auto|discriminate].
Qed.

(** X11.  The stored data are valid at every moment, whatever constructors
    and setters were called and in whatever order: each passenger's document
    is 5 to 12 decimal digits and needs no trimming; each flight's number
    has the form of a flight number and is its own normal form, its date
    parses, its capacity is between 1 and 1000, and its available capacity
    is never above the capacity. *)
Theorem datos_validos w :
  alcanzable w ->
  (forall r p, pasajeros_obj w !! r = Some p ->
     documento_valido (documento p) = true /\ strip (documento p) = documento p)
  /\ (forall f v, vuelos_obj w !! f = Some v ->
        numero_valido (numero v) = true
        /\ upper (strip (numero v)) = numero v
        /\ strptime_Ymd (fecha v) = true
        /\ (1 <= capacidad_total v <= 1000)%Z
        /\ exists c, capacidad_disponible f w = Some c
             /\ (c <= capacidad_total v)%Z).
Proof.
  intros Hw. pose proof (alcanzable_invariante _ Hw) as [Hbf Hvs Hps]. split.
  - intros r p Hp. pose proof (Forall_lookup_1 _ _ _ _ Hps Hp) as Hok.
    unfold pasajero_ok in Hok. split.
    + eapply validar_documento_valido; eauto.
    + symmetry. eapply validar_documento_Ok; eauto.
  - intros f v Hv.
    pose proof (Forall_lookup_1 _ _ _ _ Hvs Hv) as [_ _ Hn].
    apply validar_numero_Ok in Hn. destruct Hn as [Hn1 Hn2].
    pose proof (alcanzable_vuelos
      (fun v => strptime_Ymd (fecha v) = true
                /\ (1 <= capacidad_total v <= 1000)%Z)) as Hgen.
    assert (Hfc : strptime_Ymd (fecha v) = true
                  /\ (1 <= capacidad_total v <= 1000)%Z).
    { refine (Forall_lookup_1 _ _ _ _ (Hgen _ _ w Hw) Hv).
      - intros n o d fe c u E. unfold Vuelo_init in E.
        destruct (_validar_numero_vuelo n); [|discriminate].
        destruct (_validar_ciudad o); [|discriminate].
        destruct (_validar_ciudad d); [|discriminate].
        destruct (_validar_fecha fe) as [k|] eqn:Ef; [|discriminate].
        destruct (_validar_capacidad c) as [k'|] eqn:Ec; [|discriminate].
        injection E as <-. simpl.
        apply validar_fecha_Ok in Ef. destruct Ef as [-> Ef].
        apply validar_capacidad_Ok in Ec. destruct Ec as [-> Ec]. auto.
      - intros u l Hu. exact Hu. }
    destruct Hfc as [Hfe Hc].
    split; [exact Hn1|]. split; [symmetry; exact Hn2|].
    split; [exact Hfe|]. split; [exact Hc|].
    pose proof (Forall_lookup_1 _ _ _ _ (bf_vuelos _ Hbf) Hv) as Hl.
    eexists. split; [apply capacidad_disponible_eq; eauto|]. lia.
Qed.

End Datos.

(** ** The history of the registry *)

Section Coherencia.
Context {R : PyRuntime}.

Implicit Types (w : Mundo).

Lemma prefijo_contiene {A} (l l' : list A) x : l `prefix_of` l' -> x ∈ l -> x ∈ l'.
Proof. intros [k ->] H. apply elem_of_app. now left. Qed.

Lemma reserva_consistente_paso w w' r :
  historia (reservas_obj w) (reservas_obj w') -> solo_crece w w' ->
  _pasajeros (gestor w) `prefix_of` _pasajeros (gestor w') ->
  _vuelos (gestor w) `prefix_of` _vuelos (gestor w') ->
  reserva_consistente w r -> reserva_consistente w' r.
Proof.
  intros Hh [Hv _] Hp Hf (x & v & Hx & Hxf & Hxp & Hxv & Hr).
  destruct (Hh r x Hx) as (x' & Hx' & Ef & Ep & _).
  destruct (Hv _ _ Hxv) as (v' & Hv' & (_ & _ & _ & _ & _ & Hl)).
  exists x', v'. rewrite Ef, Ep.
  split; [exact Hx'|]. split; [eapply prefijo_contiene; eauto|].
  split; [eapply prefijo_contiene; eauto|]. split; [exact Hv'|].
  eapply prefijo_contiene; eauto.
Qed.

Lemma setter_gestor (valida : str -> result str)
    (pone : Pasajero -> str -> Pasajero) self valor w o w' :
  bind (leer (fun w => pasajeros_obj w !! self))
    (fun p => match valida valor with
              | Raise e => raise e
              | Ok s => modificar (fun w => set_pasajeros_obj
                          (<[self := pone p s]> (pasajeros_obj w)) w)
              end) w = Some (o, w') ->
  gestor w' = gestor w.
Proof.
  intros H. rewrite bind_leer in H.
  destruct (pasajeros_obj w !! self) as [p|]; [|discriminate].
  destruct (valida valor); unfold raise, modificar in H; simplify_eq; reflexivity.
Qed.

Lemma agregar_reserva_gestor f r w o w' :
  agregar_reserva f r w = Some (o, w') -> gestor w' = gestor w.
Proof.
  intros H. rewrite agregar_reserva_eq in H.
  repeat case_match; simplify_eq; reflexivity.
Qed.

Lemma crear_reserva_gestor nv dp t w e w' :
  crear_reserva nv dp t w = Some (Raise e, w') -> gestor w' = gestor w.
Proof.
  intros H. rewrite crear_reserva_eq in H.
  destruct (buscar_pasajero_por_documento dp w) as [[p|]|]; simplify_eq;
    [|reflexivity].
  destruct (buscar_vuelo_por_numero nv w) as [[v|]|]; simplify_eq; [|reflexivity].
  rewrite Reserva_new_eq in H.
  destruct (vuelos_obj w !! v); [|discriminate].
  destruct (pasajeros_obj w !! p); [|discriminate].
  match type of H with
  | match agregar_reserva ?a ?b ?c with _ => _ end = _ =>
      destruct (agregar_reserva a b c) as [[o2 w2]|] eqn:H2; [|discriminate]
  end.
  apply agregar_reserva_gestor in H2. destruct o2 as [[]|e2]; simplify_eq.
  exact H2.
Qed.

(** What one call does to the three lists of the registry. *)
Lemma ejecutar_registro c w w' :
  ejecutar c w = Some w' ->
  _reservas (gestor w') = []
  \/ (_pasajeros (gestor w) `prefix_of` _pasajeros (gestor w')
      /\ _vuelos (gestor w) `prefix_of` _vuelos (gestor w')
      /\ (_reservas (gestor w') = _reservas (gestor w)
          \/ exists nv dp t r, crear_reserva nv dp t w = Some (Ok r, w'))).
Proof.
  assert (Hmismo : forall w1, gestor w1 = gestor w ->
    _reservas (gestor w1) = []
    \/ (_pasajeros (gestor w) `prefix_of` _pasajeros (gestor w1)
        /\ _vuelos (gestor w) `prefix_of` _vuelos (gestor w1)
        /\ (_reservas (gestor w1) = _reservas (gestor w)
            \/ exists nv dp t r, crear_reserva nv dp t w = Some (Ok r, w1)))).
  { intros w1 ->. right. auto. }
  destruct c as [n a d|q s|q s|q s|n og ds fe cp|fv fp t|fv fr|fr|fr| |n a d|nv dp t];
    simpl; unfold efecto;
    match goal with |- context [match ?m w with _ => _ end] =>
      destruct (m w) as [[o w1]|] eqn:E; [|discriminate]
    end; intros [= <-].
  - apply Hmismo. rewrite Pasajero_new_eq in E.
    destruct (Pasajero_init n a d); simplify_eq; reflexivity.
  - apply Hmismo. revert E. apply setter_gestor.
  - apply Hmismo. revert E. apply setter_gestor.
  - apply Hmismo. revert E. apply setter_gestor.
  - apply Hmismo. rewrite Vuelo_new_eq in E.
    destruct (Vuelo_init n og ds fe cp); simplify_eq; reflexivity.
  - apply Hmismo. rewrite Reserva_new_eq in E.
    destruct (vuelos_obj w !! fv); [|discriminate].
    destruct (pasajeros_obj w !! fp); simplify_eq. reflexivity.
  - apply Hmismo. eapply agregar_reserva_gestor; eauto.
  - apply Hmismo. unfold cancelar in E. rewrite en_reserva_eq in E.
    destruct (reservas_obj w !! fr) as [x|]; [|discriminate].
    destruct (Reserva_cancelar x); simplify_eq; reflexivity.
  - apply Hmismo. unfold completar in E. rewrite en_reserva_eq in E.
    destruct (reservas_obj w !! fr) as [x|]; [|discriminate].
    destruct (Reserva_completar x); simplify_eq; reflexivity.
  - unfold GestorReservas_new in E. destruct (_initialized (gestor w)).
    + simplify_eq. apply Hmismo. reflexivity.
    + rewrite bind_modificar in E.
      destruct (inicializar_datos_crece (set_gestor (mkGestor [] [] [] false) w))
        as (w2 & E2 & [_ _ _ _ _ Hr _]).
      unfold bind at 1 in E. rewrite E2 in E. unfold modificar in E.
      simplify_eq. left. exact Hr.
  - rewrite agregar_pasajero_eq in E.
    destruct (buscar_pasajero_por_documento d w) as [[r|]|]; simplify_eq;
      [apply Hmismo; reflexivity|].
    destruct (Pasajero_init n a d); simplify_eq; [|apply Hmismo; reflexivity].
    right. simpl. split; [now apply prefix_app_r|]. auto.
  - destruct o as [r|e].
    + pose proof (crear_reserva_solo_crece _ _ _ _ _ _ E) as [_ _].
      rewrite crear_reserva_eq in E.
      destruct (buscar_pasajero_por_documento dp w) as [[p|]|] eqn:Hp;
        simplify_eq.
      destruct (buscar_vuelo_por_numero nv w) as [[v|]|] eqn:Hv; simplify_eq.
      rewrite Reserva_new_eq in E.
      destruct (vuelos_obj w !! v) eqn:Hvv; [|discriminate].
      destruct (pasajeros_obj w !! p) eqn:Hpp; [|discriminate].
      match type of E with
      | match agregar_reserva ?a ?b ?c with _ => _ end = _ =>
          destruct (agregar_reserva a b c) as [[o2 w2]|] eqn:H2; [|discriminate]
      end.
      pose proof (agregar_reserva_gestor _ _ _ _ _ H2) as Hg.
      destruct o2 as [[]|e2]; simplify_eq. right. simpl. rewrite Hg. simpl.
      split; [reflexivity|]. split; [reflexivity|]. right.
      exists nv, dp, t, (length (reservas_obj w)).
      rewrite crear_reserva_eq, Hp, Hv, Reserva_new_eq, Hvv, Hpp, H2.
      reflexivity.
    + apply Hmismo. eapply crear_reserva_gestor; eauto.
Qed.

(** X12.  The history of the registry agrees with the flights at every
    moment: no reservation is recorded twice, and every recorded reservation
    names a registered flight and a registered passenger and is in the list
    of the flight it names, whatever was cancelled, completed or added to
    lists directly in between. *)
Theorem registro_coherente w :
  alcanzable w ->
  NoDup (_reservas (gestor w))
  /\ Forall (reserva_consistente w) (_reservas (gestor w)).
Proof.
  induction 1 as [|w c w' Hw [IHn IHf] E].
  - simpl. split; constructor.
  - pose proof (alcanzable_invariante _ Hw) as [Hbf _ _].
    pose proof (ejecutar_historia _ _ _ E) as Hh.
    pose proof (ejecutar_solo_crece _ _ _ E) as Hc.
    destruct (ejecutar_registro _ _ _ E) as [->|(Hp & Hf & [Hr|Hr])].
    + split; constructor.
    + rewrite Hr. split; [exact IHn|].
      eapply Forall_impl; [exact IHf|]. intros r.
      now apply reserva_consistente_paso.
    + destruct Hr as (nv & dp & t & r & Hr).
      destruct (crear_reserva_Ok _ _ _ _ _ _ Hbf Hr)
        as (p & f & v & q & Hbp & Hbf' & Hv & Hq & _ & _ & -> & E1).
      assert (Er : _reservas (gestor w')
                   = _reservas (gestor w) ++ [length (reservas_obj w)]).
      { rewrite E1. reflexivity. }
      rewrite Er. split.
      * apply NoDup_app. split; [exact IHn|]. split; [|apply NoDup_singleton].
        intros r Hin Hin'. apply list_elem_of_singleton in Hin'. subst r.
        pose proof (proj1 (Forall_forall _ _) (bf_gestor_reservas _ Hbf) _ Hin).
        simpl in *. lia.
      * apply Forall_app. split.
        -- eapply Forall_impl; [exact IHf|]. intros r.
           now apply reserva_consistente_paso.
        -- repeat constructor.
           exists (mkReserva f p ACTIVA t),
             (con_reservas v (reservas v ++ [length (reservas_obj w)])).
           simpl. split; [|split; [|split; [|split]]].
           ++ rewrite E1. simpl. apply (list_lookup_middle _ [] _ _ eq_refl).
           ++ eapply prefijo_contiene; [exact Hf|].
              apply buscar_primero_en_rango in Hbf'. tauto.
           ++ eapply prefijo_contiene; [exact Hp|].
              apply buscar_primero_en_rango in Hbp. tauto.
           ++ rewrite E1. simpl. apply list_lookup_insert_eq.
              exact (lookup_lt_Some _ _ _ Hv).
           ++ apply elem_of_app. right. constructor.
Qed.

End Coherencia.

(** ** The flights of the registry *)

Section Flota.
Context {R : PyRuntime}.

Implicit Types (w : Mundo).

Lemma buscar_primero_igual {A} (h h' : list A) clave l k :
  (forall r, r ∈ l -> clave <$> h !! r = clave <$> h' !! r) ->
  buscar_primero h clave l k = buscar_primero h' clave l k.
Proof.
  induction l as [|r l IH]; intros H; simpl; [reflexivity|].
  pose proof (H r ltac:(left)) as Hr.
  rewrite IH by (intros r' Hr'; apply H; now right).
  destruct (h !! r) as [x|], (h' !! r) as [x'|]; simpl in *; simplify_eq;
    try reflexivity.
  now rewrite Hr.
Qed.

(** One call leaves the flights of an initialized registry as they are. *)
Lemma ejecutar_flota c w w' :
  ejecutar c w = Some w' -> _initialized (gestor w) = true ->
  _initialized (gestor w') = true /\ _vuelos (gestor w') = _vuelos (gestor w).
Proof.
  intros E Hi.
  assert (Hmismo : forall w1, gestor w1 = gestor w ->
            _initialized (gestor w1) = true
            /\ _vuelos (gestor w1) = _vuelos (gestor w)).
  { intros w1 ->. auto. }
  revert E.
  destruct c as [n a d|q s|q s|q s|n og ds fe cp|fv fp t|fv fr|fr|fr| |n a d|nv dp t];
    simpl; unfold efecto;
    match goal with |- context [match ?m w with _ => _ end] =>
      destruct (m w) as [[o w1]|] eqn:E; [|discriminate]
    end; intros [= <-].
  - apply Hmismo. rewrite Pasajero_new_eq in E.
    destruct (Pasajero_init n a d); simplify_eq; reflexivity.
  - apply Hmismo. revert E. apply setter_gestor.
  - apply Hmismo. revert E. apply setter_gestor.
  - apply Hmismo. revert E. apply setter_gestor.
  - apply Hmismo. rewrite Vuelo_new_eq in E.
    destruct (Vuelo_init n og ds fe cp); simplify_eq; reflexivity.
  - apply Hmismo. rewrite Reserva_new_eq in E.
    destruct (vuelos_obj w !! fv); [|discriminate].
    destruct (pasajeros_obj w !! fp); simplify_eq. reflexivity.
  - apply Hmismo. eapply agregar_reserva_gestor; eauto.
  - apply Hmismo. unfold cancelar in E. rewrite en_reserva_eq in E.
    destruct (reservas_obj w !! fr) as [x|]; [|discriminate].
    destruct (Reserva_cancelar x); simplify_eq; reflexivity.
  - apply Hmismo. unfold completar in E. rewrite en_reserva_eq in E.
    destruct (reservas_obj w !! fr) as [x|]; [|discriminate].
    destruct (Reserva_completar x); simplify_eq; reflexivity.
  - unfold GestorReservas_new in E. rewrite Hi in E. simplify_eq. auto.
  - rewrite agregar_pasajero_eq in E.
    destruct (buscar_pasajero_por_documento d w) as [[r|]|]; simplify_eq; [auto|].
    destruct (Pasajero_init n a d); simplify_eq; auto.
  - destruct o as [r|e].
    + rewrite crear_reserva_eq in E.
      destruct (buscar_pasajero_por_documento dp w) as [[p|]|]; simplify_eq.
      destruct (buscar_vuelo_por_numero nv w) as [[v|]|]; simplify_eq.
      rewrite Reserva_new_eq in E.
      destruct (vuelos_obj w !! v); [|discriminate].
      destruct (pasajeros_obj w !! p); [|discriminate].
      match type of E with
      | match agregar_reserva ?a ?b ?c with _ => _ end = _ =>
          destruct (agregar_reserva a b c) as [[o2 w2]|] eqn:H2; [|discriminate]
      end.
      apply agregar_reserva_gestor in H2.
      destruct o2 as [[]|e2]; simplify_eq. simpl. rewrite H2. simpl. auto.
    + apply Hmismo. eapply crear_reserva_gestor; eauto.
Qed.

(** X17.  Once [GestorReservas()] has run, the flights of the registry are
    fixed: no sequence of public calls registers a flight, removes one or
    changes the number of one, so a search by number gives the same flight,
    or none, for ever.  (A [Vuelo] made afterwards is never registered.) *)
Theorem flota_fija cs w w' :
  correr cs w = Some w' -> _initialized (gestor w) = true ->
  Forall (fun f => f < length (vuelos_obj w)) (_vuelos (gestor w)) ->
  _vuelos (gestor w') = _vuelos (gestor w)
  /\ forall n, buscar_vuelo_por_numero n w' = buscar_vuelo_por_numero n w.
Proof.
  intros Hc Hi Hbf.
  assert (Hg : _vuelos (gestor w') = _vuelos (gestor w) /\ solo_crece w w').
  { clear Hbf. revert w Hc Hi.
    induction cs as [|c cs IH]; intros w Hc Hi; simpl in Hc.
    - simplify_eq. split; [reflexivity|apply solo_crece_refl].
    - destruct (ejecutar c w) as [w1|] eqn:E; [|discriminate].
      destruct (ejecutar_flota _ _ _ E Hi) as [Hi1 Hv1].
      destruct (IH _ Hc Hi1) as [Hv' Hs']. split; [congruence|].
      eapply solo_crece_trans; [|exact Hs']. eapply ejecutar_solo_crece; eauto. }
  destruct Hg as [Hv Hs]. split; [exact Hv|].
  intros n. unfold buscar_vuelo_por_numero. rewrite Hv.
  apply buscar_primero_igual. intros f Hf.
  pose proof (proj1 (Forall_forall _ _) Hbf f Hf) as Hlt. simpl in Hlt.
  destruct (lookup_lt_is_Some_2 _ _ Hlt) as [v Hvf].
  destruct (sc_vuelos _ _ Hs f v Hvf) as (v' & Hv' & Hn & _).
  rewrite Hvf, Hv'. simpl. now rewrite Hn.
Qed.

End Flota.

(** ** The window *)

Section Cortes.

Implicit Types (sep s a b : list N) (c d : N).

Lemma empieza_con_app sep b : empieza_con sep (sep ++ b) = true.
Proof.
  induction sep as [|c sep IH]; simpl; [reflexivity|].
  rewrite N.eqb_refl. exact IH.
Qed.

Lemma empieza_con_otra c sep d s : c <> d -> empieza_con (c :: sep) (d :: s) = false.
Proof. intros H. simpl. apply N.eqb_neq in H. now rewrite H. Qed.

Lemma split_desde_salto sep acc s1 s2 :
  split_desde sep (length s1) acc (s1 ++ s2) = split_desde sep 0 acc s2.
Proof. induction s1 as [|c s1 IH]; simpl; [reflexivity|exact IH]. Qed.

(** A string without the first character of the separator is one piece. *)
Lemma split_desde_sin c sep acc a :
  c ∉ a -> split_desde (c :: sep) 0 acc a = [reverse acc ++ a].
Proof.
  revert acc. induction a as [|d a IH]; intros acc Hc.
  - simpl. now rewrite app_nil_r.
  - apply not_elem_of_cons in Hc. destruct Hc as [Hd Hc].
    cbn [split_desde]. rewrite (empieza_con_otra _ _ _ _ Hd), (IH _ Hc).
    rewrite reverse_cons, <- app_assoc. reflexivity.
Qed.

(** The first piece ends at the first occurrence of the separator when the
    text before it is free of the separator's first character. *)
Lemma split_desde_primero c sep acc a b :
  c ∉ a ->
  split_desde (c :: sep) 0 acc (a ++ (c :: sep) ++ b)
  = (reverse acc ++ a) :: split_desde (c :: sep) 0 [] b.
Proof.
  revert acc. induction a as [|d a IH]; intros acc Hc.
  - rewrite app_nil_l, app_nil_r. cbn [app split_desde].
    change (empieza_con (c :: sep) (c :: sep ++ b))
      with (empieza_con (c :: sep) ((c :: sep) ++ b)).
    rewrite empieza_con_app. f_equal.
    replace (length (c :: sep) - 1) with (length sep) by (simpl; lia).
    apply split_desde_salto.
  - apply not_elem_of_cons in Hc. destruct Hc as [Hd Hc].
    cbn [app split_desde]. rewrite (empieza_con_otra _ _ _ _ Hd).
    change (a ++ c :: sep ++ b) with (a ++ (c :: sep) ++ b).
    rewrite (IH _ Hc), reverse_cons, <- app_assoc. reflexivity.
Qed.

End Cortes.

Section Seleccion.
Context {R : PyRuntime}.

Implicit Types (w : Mundo) (self : InterfazGrafica).

(** The text of an item of the first combobox gives back the document, when
    neither the name nor the document holds a parenthesis. *)
Lemma documento_seleccionado_display p :
  40%N ∉ nombre_completo p -> 40%N ∉ documento p -> 41%N ∉ documento p ->
  documento_seleccionado (pasajero_display p) = Some (documento p).
Proof.
  intros Hn Hd1 Hd2. unfold documento_seleccionado, pasajero_display, str_split.
  change (py "(") with [40%N]. change (py ")") with [41%N].
  change (py " (") with ([32%N] ++ [40%N]).
  assert (E : nombre_completo p ++ ([32%N] ++ [40%N]) ++ documento p ++ [41%N]
              = (nombre_completo p ++ [32%N]) ++ [40%N] ++ (documento p ++ [41%N])).
  { now rewrite <- !app_assoc. }
  rewrite E, split_desde_primero.
  2:{ intros H. apply elem_of_app in H. destruct H as [H|H]; [auto|].
      apply list_elem_of_singleton in H. discriminate. }
  rewrite split_desde_sin.
  2:{ intros H. apply elem_of_app in H. destruct H as [H|H]; [auto|].
      apply list_elem_of_singleton in H. discriminate. }
  simpl.
  replace (documento p ++ [41%N]) with (documento p ++ [41%N] ++ [])
    by reflexivity.
  rewrite split_desde_primero by exact Hd2. reflexivity.
Qed.

(** The text of an item of the second combobox gives back the number,
    whatever the rest of the item says, when the number holds no space. *)
Lemma numero_seleccionado_display v c :
  32%N ∉ numero v -> numero_seleccionado (vuelo_display v c) = Some (numero v).
Proof.
  intros Hn. unfold numero_seleccionado, vuelo_display, str_split.
  change (py " - ") with [32%N; 45%N; 32%N].
  rewrite split_desde_primero by exact Hn. reflexivity.
Qed.

End Seleccion.

Section Manejadores.
Context {R : PyRuntime}.

Implicit Types (w : Mundo) (self : InterfazGrafica).

Lemma pasajeros_display_total w : bien_formado w -> is_Some (pasajeros_display w).
Proof.
  intros Hbf. apply mapM_is_Some_2.
  eapply Forall_impl; [exact (bf_gestor_pasajeros _ Hbf)|].
  intros r Hr. simpl in *. destruct (lookup_lt_is_Some_2 _ _ Hr) as [p ->].
  simpl. eauto.
Qed.

Lemma capacidad_disponible_total w f :
  bien_formado w -> f < length (vuelos_obj w) -> is_Some (capacidad_disponible f w).
Proof.
  intros Hbf Hf. destruct (lookup_lt_is_Some_2 _ _ Hf) as [v Hv].
  rewrite (capacidad_disponible_eq f w v Hv); [eauto|].
  exact (Forall_lookup_1 _ _ _ _ (bf_vuelos _ Hbf) Hv).
Qed.

Lemma vuelos_display_total w : bien_formado w -> is_Some (vuelos_display w).
Proof.
  intros Hbf. apply mapM_is_Some_2.
  eapply Forall_impl; [exact (bf_gestor_vuelos _ Hbf)|].
  intros f Hf. simpl in *. destruct (lookup_lt_is_Some_2 _ _ Hf) as [v Hv].
  destruct (capacidad_disponible_total w f Hbf Hf) as [c Hc].
  rewrite Hv. simpl. rewrite Hc. simpl. eauto.
Qed.

Lemma info_vuelo_total w f :
  bien_formado w -> f < length (vuelos_obj w) -> is_Some (info_vuelo w f).
Proof.
  intros Hbf Hf. unfold info_vuelo.
  destruct (lookup_lt_is_Some_2 _ _ Hf) as [v Hv].
  destruct (capacidad_disponible_total w f Hbf Hf) as [c Hc].
  pose proof (Forall_lookup_1 _ _ _ _ (bf_vuelos _ Hbf) Hv) as Hl.
  rewrite Hv. simpl. rewrite Hc. simpl.
  rewrite (reservas_activas_total _ _ Hl). simpl.
  match goal with |- is_Some (mbind _ (mapM ?g ?a)) =>
    assert (Hn : is_Some (mapM g a))
  end.
  { apply mapM_is_Some_2. apply Forall_forall. intros r Hr.
    apply activas_en_rango in Hr.
    destruct (lookup_lt_is_Some_2 _ _ Hr) as [x Hx]. simpl. rewrite Hx. simpl.
    pose proof (Forall_lookup_1 _ _ _ _ (bf_reservas _ Hbf) Hx) as [_ Hp].
    destruct (lookup_lt_is_Some_2 _ _ Hp) as [q ->]. simpl. eauto. }
  destruct Hn as [ns ->]. simpl. eauto.
Qed.

Lemma Reserva_str_total w r x :
  bien_formado w -> reservas_obj w !! r = Some x -> is_Some (Reserva_str w x).
Proof.
  intros Hbf Hx. unfold Reserva_str.
  pose proof (Forall_lookup_1 _ _ _ _ (bf_reservas _ Hbf) Hx) as [Hv Hp].
  destruct (lookup_lt_is_Some_2 _ _ Hp) as [q ->].
  destruct (lookup_lt_is_Some_2 _ _ Hv) as [v ->]. simpl. eauto.
Qed.

Lemma info_reserva_total w r :
  bien_formado w -> r < length (reservas_obj w) -> is_Some (info_reserva w r).
Proof.
  intros Hbf Hr. unfold info_reserva.
  destruct (lookup_lt_is_Some_2 _ _ Hr) as [x Hx]. rewrite Hx. simpl.
  destruct (Reserva_str_total w r x Hbf Hx) as [t ->]. simpl. eauto.
Qed.

Lemma informacion_total w : bien_formado w -> is_Some (informacion w).
Proof.
  intros Hbf. unfold informacion.
  assert (Hv : is_Some (mapM (info_vuelo w) (_vuelos (gestor w)))).
  { apply mapM_is_Some_2. eapply Forall_impl; [exact (bf_gestor_vuelos _ Hbf)|].
    intros f Hf. now apply info_vuelo_total. }
  assert (Hr : is_Some (mapM (info_reserva w) (_reservas (gestor w)))).
  { apply mapM_is_Some_2. eapply Forall_impl; [exact (bf_gestor_reservas _ Hbf)|].
    intros r Hr. now apply info_reserva_total. }
  destruct Hv as [vs ->], Hr as [rs ->]. simpl.
  rewrite (reservas_activas_total _ _ (bf_gestor_reservas _ Hbf)). simpl. eauto.
Qed.

(** The two refreshing methods, one after the other, in either order. *)
Lemma refrescar self w :
  bien_formado w ->
  exists ps vs t,
    pasajeros_display w = Some ps /\ vuelos_display w = Some vs
    /\ informacion w = Some t
    /\ (self1 ← _actualizar_comboboxes self w; _actualizar_informacion self1 w)
       = Some (mkInterfaz (nombre_entry self) (apellido_entry self)
                 (documento_entry self) ps (pasajero_combobox self)
                 vs (vuelo_combobox self) t)
    /\ (self1 ← _actualizar_informacion self w; _actualizar_comboboxes self1 w)
       = Some (mkInterfaz (nombre_entry self) (apellido_entry self)
                 (documento_entry self) ps (pasajero_combobox self)
                 vs (vuelo_combobox self) t).
Proof.
  intros Hbf.
  destruct (pasajeros_display_total w Hbf) as [ps Hps].
  destruct (vuelos_display_total w Hbf) as [vs Hvs].
  destruct (informacion_total w Hbf) as [t Ht].
  exists ps, vs, t. unfold _actualizar_comboboxes, _actualizar_informacion.
  rewrite Hps, Hvs, Ht. simpl. repeat split; reflexivity.
Qed.

Lemma vacia_app_cons (a : list N) c b : vacia (a ++ c :: b) = false.
Proof. destruct a; reflexivity. Qed.

Lemma pasajero_display_no_vacia p : vacia (pasajero_display p) = false.
Proof.
  unfold pasajero_display. change (py " (") with (32%N :: [40%N]).
  cbn [app]. apply vacia_app_cons.
Qed.

Lemma vuelo_display_no_vacia v c : vacia (vuelo_display v c) = false.
Proof.
  unfold vuelo_display. change (py " - ") with (32%N :: [45%N; 32%N]).
  cbn [app]. apply vacia_app_cons.
Qed.

Lemma agregar_reserva_falla f r w e w' :
  agregar_reserva f r w = Some (Raise e, w') -> w' = w.
Proof.
  intros H. rewrite agregar_reserva_eq in H.
  repeat case_match; simplify_eq; reflexivity.
Qed.

(** A failed [crear_reserva] leaves the world as it was, or with one more
    reservation object that nothing refers to. *)
Lemma crear_reserva_falla nv dp t w e w' :
  crear_reserva nv dp t w = Some (Raise e, w') ->
  w' = w \/ exists x, w' = set_reservas_obj (reservas_obj w ++ [x]) w.
Proof.
  intros H. rewrite crear_reserva_eq in H.
  destruct (buscar_pasajero_por_documento dp w) as [[p|]|]; simplify_eq; [|now left].
  destruct (buscar_vuelo_por_numero nv w) as [[v|]|]; simplify_eq; [|now left].
  rewrite Reserva_new_eq in H.
  destruct (vuelos_obj w !! v); [|discriminate].
  destruct (pasajeros_obj w !! p); [|discriminate].
  match type of H with
  | match agregar_reserva ?a ?b ?c with _ => _ end = _ =>
      destruct (agregar_reserva a b c) as [[o2 w2]|] eqn:H2; [|discriminate]
  end.
  destruct o2 as [[]|e2]; simplify_eq.
  apply agregar_reserva_falla in H2. subst. right. eauto.
Qed.

Lemma crear_reserva_total nv dp t w :
  bien_formado w -> exists o w', crear_reserva nv dp t w = Some (o, w').
Proof.
  intros Hbf. rewrite crear_reserva_eq.
  unfold buscar_pasajero_por_documento, buscar_vuelo_por_numero.
  destruct (buscar_primero_total (pasajeros_obj w) documento _ dp
              (bf_gestor_pasajeros _ Hbf)) as [[p|] Hp]; rewrite Hp; [|eauto].
  destruct (buscar_primero_total (vuelos_obj w) numero _ nv
              (bf_gestor_vuelos _ Hbf)) as [[f|] Hf]; rewrite Hf; [|eauto].
  apply buscar_primero_en_rango in Hp, Hf. destruct Hp as [Hp _], Hf as [Hf _].
  destruct (lookup_lt_is_Some_2 _ _ Hp) as [q Hq].
  destruct (lookup_lt_is_Some_2 _ _ Hf) as [v Hv].
  destruct (reservar_nuevo w f p v q t Hbf Hv Hq) as (b & _ & -> & ->).
  repeat case_match; simplify_eq; eauto.
Qed.



Lemma huerfana_capacidad w x f :
  bien_formado w -> f < length (vuelos_obj w) ->
  capacidad_disponible f (set_reservas_obj (reservas_obj w ++ [x]) w)
  = capacidad_disponible f w.
Proof.
  intros Hbf Hf. destruct (lookup_lt_is_Some_2 _ _ Hf) as [v Hv].
  pose proof (Forall_lookup_1 _ _ _ _ (bf_vuelos _ Hbf) Hv) as Hl.
  rewrite (capacidad_disponible_eq f w v Hv Hl).
  rewrite (capacidad_disponible_eq f
             (set_reservas_obj (reservas_obj w ++ [x]) w) v Hv).
  - simpl. now rewrite (activas_nuevo _ _ _ Hl).
  - simpl. eapply Forall_impl; [exact Hl|].
    intros r Hr. simpl in Hr. rewrite length_app. simpl. lia.
Qed.




(** X13.  Picking the items that the comboboxes show for a passenger and a
    flight and pressing the button books that flight number for that
    document: the handler takes the document from between the parentheses
    and the number from before the first " - ", so the rest of the item,
    with a count of seats that may be out of date, does not matter.  What
    [crear_reserva] raises is shown and the widgets stay; on success the
    dialog shows the reservation, both comboboxes and the text area are
    refreshed, and the texts picked stay. *)
Theorem hacer_reserva_seleccion ahora self w p v c :
  alcanzable w ->
  pasajero_combobox self = pasajero_display p ->
  vuelo_combobox self = vuelo_display v c ->
  40%N ∉ nombre_completo p -> 40%N ∉ documento p -> 41%N ∉ documento p ->
  32%N ∉ numero v ->
  exists o w',
    crear_reserva (numero v) (documento p) ahora w = Some (o, w')
    /\ match o with
       | Raise e =>
           _hacer_reserva ahora self w
           = Some (showerror (py "Error") (str_de_excepcion e), self, w')
       | Ok r =>
           exists self' x s,
             _hacer_reserva ahora self w
             = Some (showinfo (py "Éxito")
                       (py "Reserva realizada exitosamente:" ++ nl ++ s),
                     self', w')
             /\ reservas_obj w' !! r = Some x /\ Reserva_str w' x = Some s
             /\ al_dia self' w'
             /\ pasajero_combobox self' = pasajero_combobox self
             /\ vuelo_combobox self' = vuelo_combobox self
       end.
Proof.
  intros Hw Hps Hvs Hn Hd1 Hd2 Hv. apply alcanzable_invariante in Hw.
  pose proof (inv_bf _ Hw) as Hbf.
  destruct (crear_reserva_total (numero v) (documento p) ahora w Hbf)
    as (o & w' & E).
  exists o, w'. split; [exact E|].
  unfold _hacer_reserva. rewrite Hps, Hvs.
  rewrite pasajero_display_no_vacia, vuelo_display_no_vacia. cbn [orb].
  rewrite (documento_seleccionado_display p Hn Hd1 Hd2),
    (numero_seleccionado_display v c Hv), E.
  destruct o as [r|e]; [|reflexivity].
  pose proof (crear_reserva_conserva _ _ _ _ _ _ Hw E) as Hw'.
  pose proof (inv_bf _ Hw') as Hbf'.
  destruct (refrescar self w' Hbf') as (ps & vs & t & Eps & Evs & Et & Eref & _).
  destruct (crear_reserva_Ok _ _ _ _ _ _ Hbf E)
    as (rp & f & v0 & q & _ & _ & _ & _ & _ & _ & -> & E1).
  assert (Hx : reservas_obj w' !! length (reservas_obj w)
               = Some (mkReserva f rp ACTIVA ahora)).
  { rewrite E1. simpl. apply (list_lookup_middle _ [] _ _ eq_refl). }
  destruct (Reserva_str_total w' _ _ Hbf' Hx) as [s Hs].
  eexists _, _, s.
  destruct (_actualizar_comboboxes self w') as [self1|] eqn:E2;
    [|discriminate Eref].
  simpl in Eref. simpl. rewrite Eref. simpl. rewrite Hx. simpl. rewrite Hs. simpl.
  split; [reflexivity|]. split; [reflexivity|]. split; [exact Hs|].
  split; [|split; simpl; assumption].
  repeat split; simpl; assumption.
Qed.

(** X14.  The handler of "Agregar Pasajero" never lets an exception out and
    trims the three entries before it calls the registry.  When it shows an
    error, the widgets and the registry are as before.  When it shows
    success, the registry has one more passenger, holding the trimmed and
    title-cased names and the trimmed document, the entries are empty and
    the comboboxes and the text area are refreshed.  Since the document
    reaches the registry trimmed, documents that were distinct stay
    distinct. *)
Theorem agregar_pasajero_ventana self w :
  alcanzable w ->
  exists d self' w',
    _agregar_pasajero self w = Some (d, self', w')
    /\ alcanzable w'
    /\ (documento_unico w -> documento_unico w')
    /\ match d with
       | showerror _ _ => self' = self /\ w' = w
       | showinfo _ m =>
           let p := mkPasajero (title (strip (nombre_entry self)))
                               (title (strip (apellido_entry self)))
                               (strip (documento_entry self)) in
           w' = registrar_pasajero (length (pasajeros_obj w))
                  (set_pasajeros_obj (pasajeros_obj w ++ [p]) w)
           /\ m = py "Pasajero " ++ nombre_completo p ++ py " agregado exitosamente"
           /\ nombre_entry self' = [] /\ apellido_entry self' = []
           /\ documento_entry self' = []
           /\ pasajero_combobox self' = pasajero_combobox self
           /\ vuelo_combobox self' = vuelo_combobox self
           /\ al_dia self' w'
       end.
Proof.
  intros Hw. pose proof (alcanzable_invariante _ Hw) as Hinv.
  pose proof (inv_bf _ Hinv) as Hbf.
  unfold _agregar_pasajero.
  set (n := strip (nombre_entry self)). set (a := strip (apellido_entry self)).
  set (d := strip (documento_entry self)).
  destruct (vacia n || vacia a || vacia d).
  { exists (showerror (py "Error") (py "Todos los campos son obligatorios")),
      self, w. auto. }
  destruct (agregar_pasajero n a d w) as [[o w']|] eqn:E.
  2:{ exfalso. rewrite agregar_pasajero_eq in E.
      unfold buscar_pasajero_por_documento in E.
      destruct (buscar_primero_total (pasajeros_obj w) documento _ d
                  (bf_gestor_pasajeros _ Hbf)) as [[r|] Hr]; rewrite Hr in E;
        [discriminate|].
      destruct (Pasajero_init n a d); discriminate. }
  assert (Hw' : alcanzable w').
  { apply (alc_paso w (LAgregarPasajero n a d)); [exact Hw|].
    simpl. unfold efecto. rewrite E. reflexivity. }
  assert (Hu : documento_unico w -> documento_unico w').
  { intros Hu.
    apply (agregar_pasajero_recortado w n a d o w' (bf_gestor_pasajeros _ Hbf) Hu);
      [|exact E].
    subst d. apply strip_idem. }
  destruct o as [r|e].
  - pose proof E as E'. rewrite agregar_pasajero_eq in E'.
    destruct (buscar_pasajero_por_documento d w) as [[r0|]|]; simplify_eq.
    destruct (Pasajero_init n a d) as [p|e] eqn:Hp; simplify_eq.
    apply Pasajero_init_Ok in Hp. destruct Hp as (Hn & Ha & Hd).
    apply validar_nombre_Ok in Hn. apply validar_nombre_Ok in Ha.
    apply validar_documento_Ok in Hd.
    assert (Ep : p = mkPasajero (title (strip (nombre_entry self)))
                       (title (strip (apellido_entry self)))
                       (strip (documento_entry self))).
    { destruct p as [pn pa pd]. simpl in *. subst pn pa pd. subst n a d.
      now rewrite !strip_idem. }
    pose proof (inv_bf _ (alcanzable_invariante _ Hw')) as Hbf'.
    set (self1 := mkInterfaz [] [] [] (pasajero_combobox_values self)
                    (pasajero_combobox self) (vuelo_combobox_values self)
                    (vuelo_combobox self) (info_text self)).
    destruct (refrescar self1 _ Hbf') as (ps & vs & t & Eps & Evs & Et & Eref & _).
    destruct (_actualizar_comboboxes self1 _) as [self2|] eqn:E2;
      [|discriminate Eref].
    simpl in Eref. eexists _, _, _. simpl. rewrite Eref. simpl.
    rewrite (list_lookup_middle _ [] _ _ eq_refl). simpl.
    split; [reflexivity|]. split; [exact Hw'|]. split; [exact Hu|].
    subst p. split; [reflexivity|]. split; [reflexivity|].
    simpl. repeat split; assumption.
  - exists (showerror (py "Error") (str_de_excepcion e)), self, w'.
    split; [reflexivity|]. split; [exact Hw'|]. split; [exact Hu|].
    split; [reflexivity|].
    rewrite agregar_pasajero_eq in E.
    destruct (buscar_pasajero_por_documento d w) as [[r0|]|]; simplify_eq;
      [reflexivity|].
    destruct (Pasajero_init n a d); simplify_eq. reflexivity.
Qed.




(** An event changes the registry by one call of [agregar_pasajero] or of
    [crear_reserva], or not at all. *)
Lemma atender_mundo ev self w self' w' :
  atender ev self w = Some (self', w') ->
  w' = w
  \/ (exists n a d o, agregar_pasajero n a d w = Some (o, w'))
  \/ (exists nv dp t o, crear_reserva nv dp t w = Some (o, w')).
Proof.
  destruct ev as [s|s|s|i|i| |ahora| ]; simpl.
  - intros [= _ <-]. now left.
  - intros [= _ <-]. now left.
  - intros [= _ <-]. now left.
  - destruct (pasajero_combobox_values self !! i); intros [= _ <-]; now left.
  - destruct (vuelo_combobox_values self !! i); intros [= _ <-]; now left.
  - unfold _agregar_pasajero.
    destruct (vacia _ || vacia _ || vacia _); simpl; [intros [= _ <-]; now left|].
    destruct (agregar_pasajero _ _ _ w) as [[[r|e] w1]|] eqn:E; simpl;
      [| |discriminate].
    + destruct (_actualizar_comboboxes _ w1) as [self2|]; simpl; [|discriminate].
      destruct (_actualizar_informacion self2 w1) as [self3|]; simpl;
        [|discriminate].
      destruct (pasajeros_obj w1 !! r); simpl; [|discriminate].
      intros [= _ <-]. right. left. eauto.
    + intros [= _ <-]. right. left. eauto.
  - unfold _hacer_reserva.
    destruct (vacia _ || vacia _); simpl; [intros [= _ <-]; now left|].
    destruct (documento_seleccionado _) as [dp|]; simpl;
      [|intros [= _ <-]; now left].
    destruct (numero_seleccionado _) as [nv|]; simpl;
      [|intros [= _ <-]; now left].
    destruct (crear_reserva nv dp ahora w) as [[[r|e] w1]|] eqn:E; simpl;
      [| |discriminate].
    + destruct (_actualizar_comboboxes self w1) as [self1|]; simpl;
        [|discriminate].
      destruct (_actualizar_informacion self1 w1) as [self2|]; simpl;
        [|discriminate].
      destruct (reservas_obj w1 !! r) as [x|]; simpl; [|discriminate].
      destruct (Reserva_str w1 x); simpl; [|discriminate].
      intros [= _ <-]. right. right. eauto.
    + intros [= _ <-]. right. right. eauto.
  - destruct (_actualizar_informacion self w); simpl; [|discriminate].
    intros [= _ <-]. now left.
Qed.

Lemma agregar_pasajero_fuera n a d w o w' :
  agregar_pasajero n a d w = Some (o, w') ->
  vuelos_obj w' = vuelos_obj w /\ reservas_obj w' = reservas_obj w.
Proof.
  intros H. rewrite agregar_pasajero_eq in H.
  destruct (buscar_pasajero_por_documento d w) as [[r|]|]; simplify_eq; [auto|].
  destruct (Pasajero_init n a d); simplify_eq; auto.
Qed.

Lemma atender_sin_bajas ev self w self' w' :
  alcanzable w -> atender ev self w = Some (self', w') ->
  alcanzable w'
  /\ reservas_obj w `prefix_of` reservas_obj w'
  /\ forall f c, capacidad_disponible f w = Some c ->
       exists c', capacidad_disponible f w' = Some c' /\ (c' <= c)%Z.
Proof.
  intros Hw H. pose proof (inv_bf _ (alcanzable_invariante _ Hw)) as Hbf.
  assert (Hig : alcanzable w
                /\ reservas_obj w `prefix_of` reservas_obj w
                /\ forall f c, capacidad_disponible f w = Some c ->
                     exists c', capacidad_disponible f w = Some c' /\ (c' <= c)%Z).
  { split; [exact Hw|]. split; [reflexivity|]. intros f c Hc. exists c.
    split; [exact Hc|lia]. }
  destruct (atender_mundo _ _ _ _ _ H)
    as [->|[(n & a & d & o & E)|(nv & dp & t & o & E)]]; [exact Hig| |].
  - split.
    { apply (alc_paso w (LAgregarPasajero n a d)); [exact Hw|].
      simpl. unfold efecto. rewrite E. reflexivity. }
    destruct (agregar_pasajero_fuera _ _ _ _ _ _ E) as [Ev Er].
    split; [rewrite Er; reflexivity|].
    intros f c Hc. exists c. split; [|lia].
    unfold capacidad_disponible in *. rewrite Ev, Er. exact Hc.
  - split.
    { apply (alc_paso w (LCrearReserva nv dp t)); [exact Hw|].
      simpl. unfold efecto. rewrite E. reflexivity. }
    destruct o as [r|e].
    + destruct (crear_reserva_Ok _ _ _ _ _ _ Hbf E)
        as (p & f0 & v & q & _ & _ & Hv & _ & _ & _ & -> & ->).
      split; [simpl; now apply prefix_app_r|].
      intros f c Hc.
      destruct (capacidad_disponible_Some _ _ _ Hc) as (vf & Hvf & _).
      destruct (plazas_tras_reserva w f0 p t v f vf Hbf Hv Hvf)
        as (c0 & vg1 & Ec & Ec1 & _).
      assert (c0 = c) as -> by congruence.
      eexists. split; [exact Ec1|]. destruct (decide (f = f0)); lia.
    + destruct (crear_reserva_falla _ _ _ _ _ _ E) as [->|[x ->]];
        [destruct Hig as (_ & ? & ?); auto|].
      split; [simpl; now apply prefix_app_r|].
      intros f c Hc. exists c. split; [|lia].
      destruct (capacidad_disponible_Some _ _ _ Hc) as (vf & Hvf & _).
      rewrite huerfana_capacidad; [exact Hc|exact Hbf|].
      exact (lookup_lt_Some _ _ _ Hvf).
Qed.

(** X16.  The window never cancels or completes anything: [cancelar] and
    [completar] are not reached from it.  Through any sequence of events the
    reservation objects stay exactly as they are, new ones coming after
    them, and the available capacity of a flight never goes up. *)
Theorem sesion_sin_bajas es self w self' w' :
  alcanzable w -> sesion es self w = Some (self', w') ->
  reservas_obj w `prefix_of` reservas_obj w'
  /\ forall f c, capacidad_disponible f w = Some c ->
       exists c', capacidad_disponible f w' = Some c' /\ (c' <= c)%Z.
Proof.
  revert self w. induction es as [|e es IH]; intros self w Hw; simpl.
  - intros [= _ <-]. split; [reflexivity|]. intros f c Hc. exists c.
    split; [exact Hc|lia].
  - destruct (atender e self w) as [[self1 w1]|] eqn:E; [|discriminate].
    intros H. destruct (atender_sin_bajas _ _ _ _ _ Hw E) as (Hw1 & Hp1 & Hc1).
    destruct (IH _ _ Hw1 H) as [Hp2 Hc2].
    split; [etrans; eauto|].
    intros f c Hc. destruct (Hc1 f c Hc) as (c1 & Ec1 & Hle1).
    destruct (Hc2 f c1 Ec1) as (c2 & Ec2 & Hle2).
    exists c2. split; [exact Ec2|lia].
Qed.

End Manejadores.

(** ** The first version of the program *)

Section Primera.
Context {R : PyRuntime}.

Implicit Types (g : Basico.Programa) (v : Basico.Vuelo).

Lemma primero_Some {A} (P : A -> bool) (l : list A) i x :
  Basico.primero P l = Some (i, x) ->
  l !! i = Some x /\ P x = true
  /\ forall k y, k < i -> l !! k = Some y -> P y = false.
Proof.
  revert i x. induction l as [|a l IH]; intros i x; simpl; [discriminate|].
  destruct (P a) eqn:Pa.
  - intros [= <- <-]. split; [reflexivity|]. split; [exact Pa|]. intros; lia.
  - destruct (Basico.primero P l) as [[i' y]|]; [|discriminate].
    intros [= <- <-]. destruct (IH i' y eq_refl) as (H1 & H2 & H3).
    split; [exact H1|]. split; [exact H2|].
    intros [|k] z Hk Hz; simpl in Hz; [congruence|].
    apply (H3 k z); [lia|exact Hz].
Qed.

Lemma avanza_refl v : avanza v v.
Proof. unfold avanza. repeat split; auto; lia. Qed.

Lemma avanza_trans v1 v2 v3 : avanza v1 v2 -> avanza v2 v3 -> avanza v1 v3.
Proof.
  intros (A1 & A2 & A3 & A4 & A5) (B1 & B2 & B3 & B4 & B5).
  unfold avanza. repeat split; try congruence; try lia; auto.
  etrans; eauto.
Qed.

Lemma hacer_reserva_casos g :
  (exists t, Basico.hacer_reserva g = Basico.con_mensaje g t)
  \/ exists ip p iv v,
       Basico.primero (fun p => str_eqb (Basico.nombre p) (Basico.pasajero_combobox g))
         (Basico.pasajeros g) = Some (ip, p)
       /\ Basico.primero (fun v => str_eqb (Basico.numero v) (Basico.vuelo_combobox g))
            (Basico.vuelos g) = Some (iv, v)
       /\ (0 < Basico.capacidad v)%Z
       /\ Basico.pasajeros (Basico.hacer_reserva g) = Basico.pasajeros g
       /\ Basico.vuelos (Basico.hacer_reserva g)
          = <[iv := Basico.mkVuelo (Basico.numero v) (Basico.origen v)
                      (Basico.destino v) (Basico.fecha v) (Basico.capacidad v - 1)
                      (Basico.reservas v ++ [length (Basico.reservas_modulo g)])]>
              (Basico.vuelos g)
       /\ Basico.reservas_modulo (Basico.hacer_reserva g)
          = Basico.reservas_modulo g ++ [Basico.mkReserva iv ip].
Proof.
  unfold Basico.hacer_reserva.
  destruct (Basico.primero _ (Basico.pasajeros g)) as [[ip p]|];
    [|left; eexists; reflexivity].
  destruct (Basico.primero _ (Basico.vuelos g)) as [[iv v]|];
    [|left; eexists; reflexivity].
  destruct (Z.gtb_spec (Basico.capacidad v) 0) as [Hc|Hc];
    [|left; eexists; reflexivity].
  right. exists ip, p, iv, v.
  split; [reflexivity|]. split; [reflexivity|]. split; [lia|].
  split; [reflexivity|]. split; reflexivity.
Qed.

Lemma agregar_pasajero_casos g :
  (exists t, Basico.agregar_pasajero g = Basico.con_mensaje g t)
  \/ exists n a d t,
       Basico.palabras [] (Basico.nuevo_pasajero_entry g) = [n; a; d]
       /\ Basico.agregar_pasajero g
          = Basico.mkPrograma (Basico.pasajeros g ++ [Basico.mkPasajero n a d])
              (Basico.vuelos g) (Basico.reservas_modulo g) []
              (map Basico.nombre (Basico.pasajeros g ++ [Basico.mkPasajero n a d]))
              (Basico.pasajero_combobox g) (Basico.vuelo_combobox_values g)
              (Basico.vuelo_combobox g) t.
Proof.
  unfold Basico.agregar_pasajero.
  destruct (Basico.palabras [] (Basico.nuevo_pasajero_entry g))
    as [|n [|a [|d [|]]]]; try (left; eexists; reflexivity).
  right. eexists _, _, _, _. split; reflexivity.
Qed.

(** One event: the lists grow at the end, the flights advance. *)
Lemma atender_avanza e g :
  Basico.pasajeros g `prefix_of` Basico.pasajeros (Basico.atender e g)
  /\ Basico.reservas_modulo g `prefix_of` Basico.reservas_modulo (Basico.atender e g)
  /\ forall f v, Basico.vuelos g !! f = Some v ->
       exists v', Basico.vuelos (Basico.atender e g) !! f = Some v' /\ avanza v v'.
Proof.
  assert (Hig : forall g', Basico.pasajeros g' = Basico.pasajeros g ->
            Basico.vuelos g' = Basico.vuelos g ->
            Basico.reservas_modulo g' = Basico.reservas_modulo g ->
            Basico.pasajeros g `prefix_of` Basico.pasajeros g'
            /\ Basico.reservas_modulo g `prefix_of` Basico.reservas_modulo g'
            /\ forall f v, Basico.vuelos g !! f = Some v ->
                 exists v', Basico.vuelos g' !! f = Some v' /\ avanza v v').
  { intros g' -> -> ->. split; [reflexivity|]. split; [reflexivity|].
    intros f v Hv. exists v. split; [exact Hv|apply avanza_refl]. }
  destruct e as [s|s|s| | ]; cbn [Basico.atender].
  - apply Hig; reflexivity.
  - apply Hig; reflexivity.
  - apply Hig; reflexivity.
  - destruct (agregar_pasajero_casos g) as [[t E]|(n & a & d & t & _ & E)];
      rewrite E; [apply Hig; reflexivity|].
    cbn [Basico.pasajeros Basico.vuelos Basico.reservas_modulo].
    split; [now apply prefix_app_r|]. split; [reflexivity|].
    intros f v Hv. exists v. split; [exact Hv|apply avanza_refl].
  - destruct (hacer_reserva_casos g)
      as [[t E]|(ip & p & iv & v & _ & Hv & Hc & E1 & E2 & E3)].
    { rewrite E. apply Hig; reflexivity. }
    rewrite E1, E2, E3.
    split; [reflexivity|]. split; [now apply prefix_app_r|].
    apply primero_Some in Hv. destruct Hv as (Hv & _ & _).
    intros f u Hu. destruct (decide (iv = f)) as [<-|Hne].
    + rewrite list_lookup_insert_eq by exact (lookup_lt_Some _ _ _ Hv).
      eexists. split; [reflexivity|]. assert (u = v) as -> by congruence.
      unfold avanza. cbn [Basico.numero Basico.capacidad Basico.reservas].
      rewrite length_app. cbn [length].
      split; [reflexivity|]. split; [lia|]. split; [lia|]. split; [lia|].
      now apply prefix_app_r.
    + rewrite list_lookup_insert_ne by exact Hne.
      exists u. split; [exact Hu|apply avanza_refl].
Qed.

Lemma sesion_avanza es g :
  Basico.pasajeros g `prefix_of` Basico.pasajeros (Basico.sesion es g)
  /\ Basico.reservas_modulo g `prefix_of` Basico.reservas_modulo (Basico.sesion es g)
  /\ forall f v, Basico.vuelos g !! f = Some v ->
       exists v', Basico.vuelos (Basico.sesion es g) !! f = Some v' /\ avanza v v'.
Proof.
  revert g. induction es as [|e es IH]; intros g.
  - split; [reflexivity|]. split; [reflexivity|].
    intros f v Hv. exists v. split; [exact Hv|apply avanza_refl].
  - change (Basico.sesion (e :: es) g)
      with (Basico.sesion es (Basico.atender e g)).
    destruct (atender_avanza e g) as (P1 & R1 & V1).
    destruct (IH (Basico.atender e g)) as (P2 & R2 & V2).
    split; [etrans; eauto|]. split; [etrans; eauto|].
    intros f v Hv. destruct (V1 f v Hv) as (v1 & Hv1 & A1).
    destruct (V2 f v1 Hv1) as (v2 & Hv2 & A2).
    exists v2. split; [exact Hv2|]. eapply avanza_trans; eauto.
Qed.

(** X18.  In the first version a flight counts its free seats down: through
    any sequence of events each flight keeps its number, its capacity plus
    the length of its list of reservations stays what it was, the capacity
    never goes up and never falls below zero, and its list only grows at the
    end. *)
Theorem basico_plazas es g f v :
  Basico.vuelos g !! f = Some v ->
  exists v',
    Basico.vuelos (Basico.sesion es g) !! f = Some v'
    /\ Basico.numero v' = Basico.numero v
    /\ (Basico.capacidad v' + Z.of_nat (length (Basico.reservas v'))
        = Basico.capacidad v + Z.of_nat (length (Basico.reservas v)))%Z
    /\ (Basico.capacidad v' <= Basico.capacidad v)%Z
    /\ (0 <= Basico.capacidad v -> 0 <= Basico.capacidad v')%Z
    /\ Basico.reservas v `prefix_of` Basico.reservas v'.
Proof.
  intros Hv. destruct (sesion_avanza es g) as (_ & _ & H).
  destruct (H f v Hv) as (v' & Hv' & A). exists v'. split; [exact Hv'|exact A].
Qed.

(** X19.  In the first version a passenger is looked up by first name and
    the first one found is taken.  So of two passengers with the same first
    name the later one never gets a reservation: whatever the events, no
    reservation made from then on is for the later one. *)
Theorem basico_homonimos es g i j p q r x :
  i < j ->
  Basico.pasajeros g !! i = Some p -> Basico.pasajeros g !! j = Some q ->
  Basico.nombre p = Basico.nombre q ->
  length (Basico.reservas_modulo g) <= r ->
  Basico.reservas_modulo (Basico.sesion es g) !! r = Some x ->
  Basico.pasajero x <> j.
Proof.
  revert g. induction es as [|e es IH]; intros g Hij Hp Hq Hn Hr Hx;
    cbn [Basico.sesion fold_left] in Hx.
  - apply lookup_lt_Some in Hx. lia.
  - change (fold_left (fun g e => Basico.atender e g) es (Basico.atender e g))
      with (Basico.sesion es (Basico.atender e g)) in Hx.
    destruct (atender_avanza e g) as ([k Hk] & _ & _).
    assert (Hp1 : Basico.pasajeros (Basico.atender e g) !! i = Some p).
    { rewrite Hk. now apply lookup_app_l_Some. }
    assert (Hq1 : Basico.pasajeros (Basico.atender e g) !! j = Some q).
    { rewrite Hk. now apply lookup_app_l_Some. }
    destruct (decide (length (Basico.reservas_modulo (Basico.atender e g)) <= r))
      as [Hle|Hgt]; [exact (IH _ Hij Hp1 Hq1 Hn Hle Hx)|].
    destruct (sesion_avanza es (Basico.atender e g)) as (_ & [k' Hk'] & _).
    rewrite Hk' in Hx. rewrite lookup_app_l in Hx by lia.
    assert (He : exists ip p' iv,
              Basico.primero
                (fun p => str_eqb (Basico.nombre p) (Basico.pasajero_combobox g))
                (Basico.pasajeros g) = Some (ip, p')
              /\ Basico.reservas_modulo (Basico.atender e g)
                 = Basico.reservas_modulo g ++ [Basico.mkReserva iv ip]).
    { clear Hx Hk Hk' Hp1 Hq1 IH.
      destruct e as [s|s|s| | ]; cbn [Basico.atender] in *.
      - exfalso. cbn [Basico.reservas_modulo] in Hgt. lia.
      - exfalso. cbn [Basico.reservas_modulo] in Hgt. lia.
      - exfalso. cbn [Basico.reservas_modulo] in Hgt. lia.
      - exfalso.
        destruct (agregar_pasajero_casos g) as [[t E]|(n & a & d & t & _ & E)];
          rewrite E in Hgt; cbn [Basico.reservas_modulo Basico.con_mensaje] in Hgt;
          lia.
      - destruct (hacer_reserva_casos g)
          as [[t E]|(ip & p' & iv & v & E1 & _ & _ & _ & _ & E2)].
        + exfalso. rewrite E in Hgt.
          cbn [Basico.reservas_modulo Basico.con_mensaje] in Hgt. lia.
        + eauto. }
    destruct He as (ip & p' & iv & Hpr & Er).
    rewrite Er in Hx, Hgt. rewrite length_app in Hgt. cbn [length] in Hgt.
    assert (r = length (Basico.reservas_modulo g)) as -> by lia.
    rewrite (list_lookup_middle _ [] _ _ eq_refl) in Hx. injection Hx as <-.
    cbn [Basico.pasajero]. intros ->.
    apply primero_Some in Hpr. destruct Hpr as (Hj & Hb & Hmin).
    assert (p' = q) as -> by congruence.
    pose proof (Hmin i p Hij Hp) as Hf. cbv beta in Hf, Hb.
    rewrite Hn in Hf. congruence.
Qed.

Lemma forallb_reverse {A} (f : A -> bool) (l : list A) :
  forallb f (reverse l) = forallb f l.
Proof.
  induction l as [|x l IH]; [reflexivity|].
  rewrite reverse_cons, forallb_app, IH. simpl.
  rewrite andb_true_r. apply andb_comm.
Qed.

Lemma reverse_no_vacia {A} (x : A) (l : list A) : reverse (x :: l) <> [].
Proof.
  intros E. apply (f_equal length) in E. rewrite length_reverse in E.
  discriminate E.
Qed.

Lemma palabras_limpias actual s :
  forallb (fun c => negb (isspace c)) actual = true ->
  Forall (fun t => t <> [] /\ forallb (fun c => negb (isspace c)) t = true)
         (Basico.palabras actual s).
Proof.
  revert actual. induction s as [|c s IH]; intros actual Ha; simpl.
  - destruct actual as [|a actual]; [constructor|].
    repeat constructor; [apply reverse_no_vacia|].
    rewrite forallb_reverse. exact Ha.
  - destruct (isspace c) eqn:Ec.
    + destruct actual as [|a actual]; [apply IH; reflexivity|].
      constructor; [|apply IH; reflexivity].
      split; [apply reverse_no_vacia|]. rewrite forallb_reverse. exact Ha.
    + apply IH. simpl. now rewrite Ec, Ha.
Qed.

(** X20.  In the first version [agregar_pasajero] checks one thing, that
    the entry holds three words.  Then the words become the new passenger as
    they are, last in the list, the entry is emptied and the combobox lists
    the first names of all passengers; each of the three fields is not empty
    and holds no whitespace, and nothing else is required of them.
    Otherwise the lists and the entry stay and the label says so.  Flights
    and reservations are untouched either way. *)
Theorem basico_agregar g :
  Basico.vuelos (Basico.agregar_pasajero g) = Basico.vuelos g
  /\ Basico.reservas_modulo (Basico.agregar_pasajero g) = Basico.reservas_modulo g
  /\ match Basico.palabras [] (Basico.nuevo_pasajero_entry g) with
     | [n; a; d] =>
         Basico.pasajeros (Basico.agregar_pasajero g)
         = Basico.pasajeros g ++ [Basico.mkPasajero n a d]
         /\ Forall (fun t => t <> [] /\ forallb (fun c => negb (isspace c)) t = true)
                   [n; a; d]
         /\ Basico.nuevo_pasajero_entry (Basico.agregar_pasajero g) = []
         /\ Basico.pasajero_combobox_values (Basico.agregar_pasajero g)
            = map Basico.nombre (Basico.pasajeros (Basico.agregar_pasajero g))
     | _ =>
         Basico.pasajeros (Basico.agregar_pasajero g) = Basico.pasajeros g
         /\ Basico.nuevo_pasajero_entry (Basico.agregar_pasajero g)
            = Basico.nuevo_pasajero_entry g
         /\ Basico.mensaje_label (Basico.agregar_pasajero g)
            = py "Formato incorrecto. Ingrese Nombre, Apellido y Documento."
     end.
Proof.
  pose proof (palabras_limpias [] (Basico.nuevo_pasajero_entry g) eq_refl) as Hl.
  unfold Basico.agregar_pasajero.
  destruct (Basico.palabras [] (Basico.nuevo_pasajero_entry g))
    as [|n [|a [|d [|]]]];
    (split; [reflexivity|]); (split; [reflexivity|]);
    try (split; [reflexivity|split; reflexivity]).
  split; [reflexivity|]. split; [exact Hl|]. split; reflexivity.
Qed.

End Primera.

(** ** The further properties on the Latin-1 tables *)

Section Casos.
Local Existing Instance latin1.

Lemma Vuelo_init_normaliza_testigo :
  Vuelo_init (py " aa1234 ") (py "buenos aires") (py " new york") (py "2024-03-18") 200
  = Ok (mkVuelo (py "AA1234") (py "Buenos Aires") (py "New York") (py "2024-03-18")
                200 [])
  /\ exists msg, Vuelo_init (py "V001") (py "Madrid") (py "Paris") (py "2024-02-30") 120
                 = Raise (ValueError msg).
Proof.
  split.
  - rewrite (proj1 (Vuelo_init_normaliza (py " aa1234 ") (py "buenos aires")
                      (py " new york") (py "2024-03-18") 200))
      by (vm_compute; reflexivity).
    vm_compute. reflexivity.
  - apply (proj2 (Vuelo_init_normaliza (py "V001") (py "Madrid") (py "Paris")
                    (py "2024-02-30") 120)).
    vm_compute. reflexivity.
Defined.

Lemma setters_normalizan_testigo :
  Pasajero_set_apellido 0 (py " garcía ") mundo_inicial
  = Some (Ok tt, set_pasajeros_obj
            (<[0 := mkPasajero (py "Juan") (py "García") (py "12345678")]>
               (pasajeros_obj mundo_inicial)) mundo_inicial)
  /\ exists msg, Pasajero_set_documento 0 (py "12A45") mundo_inicial
                 = Some (Raise (ValueError msg), mundo_inicial).
Proof.
  assert (Hp : pasajeros_obj mundo_inicial !! 0
               = Some (mkPasajero (py "Juan") (py "Perez") (py "12345678")))
    by (vm_compute; reflexivity).
  split.
  - destruct (setters_normalizan mundo_inicial 0 _ (py " garcía ") Hp)
      as (H & _). rewrite (proj2 (H ltac:(vm_compute; reflexivity))).
    vm_compute. reflexivity.
  - destruct (setters_normalizan mundo_inicial 0 _ (py "12A45") Hp)
      as (_ & _ & _ & H). apply H. vm_compute. reflexivity.
Defined.

Lemma setter_documento_repite_testigo :
  exists w',
    Pasajero_set_documento 1 (py "12345678") mundo_inicial = Some (Ok tt, w')
    /\ alcanzable w' /\ ~ documento_unico w'.
Proof.
  eexists.
  apply (setter_documento_repite mundo_inicial 0 1
           (mkPasajero (py "Juan") (py "Perez") (py "12345678"))
           (mkPasajero (py "Maria") (py "Gomez") (py "87654321"))
           mundo_inicial_alcanzable).
  - discriminate.
  - apply list_elem_of_lookup_2 with (i := 0). vm_compute. reflexivity.
  - apply list_elem_of_lookup_2 with (i := 1). vm_compute. reflexivity.
  - vm_compute. reflexivity.
  - vm_compute. reflexivity.
Defined.

Lemma sin_documento w d :
  buscar_pasajero_por_documento d w = Some None ->
  forall r p, r ∈ _pasajeros (gestor w) -> pasajeros_obj w !! r = Some p ->
    documento p <> d.
Proof.
  intros H r p Hr Hp. apply buscar_primero_None in H.
  destruct (proj1 (Forall_forall _ _) H r Hr) as (q & Hq & Hne). congruence.
Qed.

Lemma sin_numero w n :
  buscar_vuelo_por_numero n w = Some None ->
  forall f v, f ∈ _vuelos (gestor w) -> vuelos_obj w !! f = Some v ->
    numero v <> n.
Proof.
  intros H f v Hf Hv. apply buscar_primero_None in H.
  destruct (proj1 (Forall_forall _ _) H f Hf) as (q & Hq & Hne). congruence.
Qed.

Lemma crear_reserva_no_encontrado_testigo :
  crear_reserva (py "V999") (py "00000000") ahora mundo_inicial
  = Some (Raise (ReservaException "Pasajero no encontrado"), mundo_inicial)
  /\ crear_reserva (py "V999") (py "12345678") ahora mundo_inicial
     = Some (Raise (ReservaException "Vuelo no encontrado"), mundo_inicial).
Proof.
  assert (H : bien_formado mundo_inicial)
    by (apply inv_bf, alcanzable_invariante, mundo_inicial_alcanzable).
  split.
  - apply (proj1 (crear_reserva_no_encontrado mundo_inicial (py "V999")
                    (py "00000000") ahora H)).
    apply sin_documento. vm_compute. reflexivity.
  - apply (proj2 (crear_reserva_no_encontrado mundo_inicial (py "V999")
                    (py "12345678") ahora H)).
    + exists 0, (mkPasajero (py "Juan") (py "Perez") (py "12345678")).
      split; [apply list_elem_of_lookup_2 with (i := 0); vm_compute; reflexivity|].
      split; vm_compute; reflexivity.
    + apply sin_numero. vm_compute. reflexivity.
Defined.

Lemma agregar_luego_buscar_testigo :
  exists r w',
    agregar_pasajero (py "ana") (py "lopez") (py " 12345 ") mundo_inicial
    = Some (Ok r, w')
    /\ pasajeros_obj w' !! r = Some (mkPasajero (py "Ana") (py "Lopez") (py "12345"))
    /\ buscar_pasajero_por_documento (py " 12345 ") w' = Some None
    /\ buscar_pasajero_por_documento (py "12345") w' = Some (Some r).
Proof.
  destruct (agregar_pasajero (py "ana") (py "lopez") (py " 12345 ") mundo_inicial)
    as [[[r|e] w']|] eqn:E; [|vm_compute in E; discriminate..].
  exists r, w'. split; [reflexivity|].
  destruct (agregar_luego_buscar mundo_inicial _ _ _ r w'
              (bf_gestor_pasajeros _
                 (inv_bf _ (alcanzable_invariante _ mundo_inicial_alcanzable))) E)
    as (H1 & H2 & H3).
  split; [|split].
  - rewrite H1. vm_compute. reflexivity.
  - rewrite H3. vm_compute. reflexivity.
  - rewrite H2. vm_compute. reflexivity.
Defined.

Lemma baja_libera_plaza_testigo :
  exists w',
    cancelar 0 mundo_reservado = Some (Ok tt, w')
    /\ capacidad_disponible 0 mundo_reservado = Some 149%Z
    /\ capacidad_disponible 0 w' = Some 150%Z
    /\ capacidad_disponible 1 w' = Some 120%Z.
Proof.
  destruct (cancelar 0 mundo_reservado) as [[[[]|e] w']|] eqn:E;
    [|vm_compute in E; discriminate..].
  exists w'. split; [reflexivity|].
  assert (E0 : capacidad_disponible 0 mundo_reservado = Some 149%Z)
    by (vm_compute; reflexivity).
  assert (E1 : capacidad_disponible 1 mundo_reservado = Some 120%Z)
    by (vm_compute; reflexivity).
  split; [exact E0|]. split.
  - destruct (vuelos_obj mundo_reservado !! 0) as [v|] eqn:Hv;
      [|vm_compute in Hv; discriminate].
    destruct (baja_libera_plaza mundo_reservado 0 v 0 w'
                mundo_reservado_alcanzable Hv (or_introl E)) as (c & Hc & Hc').
    rewrite E0 in Hc. injection Hc as <-. rewrite Hc'.
    vm_compute in Hv. injection Hv as <-.
    rewrite bool_decide_eq_true_2 by (simpl; constructor). reflexivity.
  - destruct (vuelos_obj mundo_reservado !! 1) as [v|] eqn:Hv;
      [|vm_compute in Hv; discriminate].
    destruct (baja_libera_plaza mundo_reservado 1 v 0 w'
                mundo_reservado_alcanzable Hv (or_introl E)) as (c & Hc & Hc').
    rewrite E1 in Hc. injection Hc as <-. rewrite Hc'.
    vm_compute in Hv. injection Hv as <-.
    rewrite bool_decide_eq_false_2 by (simpl; apply not_elem_of_nil).
    reflexivity.
Defined.

Lemma reserva_ocupa_plaza_testigo :
  exists r w',
    crear_reserva (py "V001") (py "12345678") ahora mundo_inicial = Some (Ok r, w')
    /\ capacidad_disponible 0 w' = Some 149%Z
    /\ capacidad_disponible 1 w' = Some 120%Z.
Proof.
  destruct (crear_reserva (py "V001") (py "12345678") ahora mundo_inicial)
    as [[[r|e] w']|] eqn:E; [|vm_compute in E; discriminate..].
  exists r, w'. split; [reflexivity|].
  destruct (reserva_ocupa_plaza mundo_inicial _ _ _ r w'
              mundo_inicial_alcanzable E) as (f & Hf & H).
  assert (f = 0) as -> by (vm_compute in Hf; congruence).
  split.
  - destruct (vuelos_obj mundo_inicial !! 0) as [v|] eqn:Hv;
      [|vm_compute in Hv; discriminate].
    destruct (H 0 v Hv) as (c & Hc & _ & Hc').
    assert (c = 150%Z) as -> by (vm_compute in Hc; congruence).
    rewrite Hc'. reflexivity.
  - destruct (vuelos_obj mundo_inicial !! 1) as [v|] eqn:Hv;
      [|vm_compute in Hv; discriminate].
    destruct (H 1 v Hv) as (c & Hc & _ & Hc').
    assert (c = 120%Z) as -> by (vm_compute in Hc; congruence).
    rewrite Hc'. reflexivity.
Defined.

Lemma reservar_y_anular_testigo :
  exists r w1 w2,
    crear_reserva (py "V001") (py "12345678") ahora mundo_inicial = Some (Ok r, w1)
    /\ cancelar r w1 = Some (Ok tt, w2)
    /\ forall g, capacidad_disponible g w2 = capacidad_disponible g mundo_inicial.
Proof.
  destruct (crear_reserva (py "V001") (py "12345678") ahora mundo_inicial)
    as [[[r|e] w1]|] eqn:E; [|vm_compute in E; discriminate..].
  destruct (reservar_y_anular mundo_inicial _ _ _ r w1
              mundo_inicial_alcanzable E) as [(w2 & H2 & Hc) _].
  exists r, w1, w2. split; [reflexivity|]. split; [exact H2|exact Hc].
Defined.

Lemma nada_se_borra_testigo :
  exists w',
    correr [LCrearReserva (py "V001") (py "12345678") ahora; LCancelar 0;
            LAgregarPasajero (py "Ana") (py "Lopez") (py "12345")]
           mundo_inicial = Some w'
    /\ solo_crece mundo_inicial w'.
Proof.
  destruct (correr [LCrearReserva (py "V001") (py "12345678") ahora; LCancelar 0;
                    LAgregarPasajero (py "Ana") (py "Lopez") (py "12345")]
                   mundo_inicial) as [w'|] eqn:E; [|vm_compute in E; discriminate].
  exists w'. split; [reflexivity|]. exact (nada_se_borra _ _ _ E).
Defined.

Lemma datos_validos_testigo :
  (forall r p, pasajeros_obj mundo_reservado !! r = Some p ->
     documento_valido (documento p) = true /\ strip (documento p) = documento p)
  /\ (forall f v, vuelos_obj mundo_reservado !! f = Some v ->
        numero_valido (numero v) = true
        /\ upper (strip (numero v)) = numero v
        /\ strptime_Ymd (fecha v) = true
        /\ (1 <= capacidad_total v <= 1000)%Z
        /\ exists c, capacidad_disponible f mundo_reservado = Some c
             /\ (c <= capacidad_total v)%Z).
Proof. exact (datos_validos mundo_reservado mundo_reservado_alcanzable). Defined.

Lemma registro_coherente_testigo :
  NoDup (_reservas (gestor mundo_reservado))
  /\ Forall (reserva_consistente mundo_reservado)
            (_reservas (gestor mundo_reservado)).
Proof. exact (registro_coherente mundo_reservado mundo_reservado_alcanzable). Defined.

Lemma hacer_reserva_seleccion_testigo :
  let self := mkInterfaz [] [] [] [] (py "Juan Perez (12345678)") []
                (py "V001 - Buenos Aires → Madrid (2024-03-15) - Disponibles: 7")
                [] in
  exists self' w',
    _hacer_reserva ahora self mundo_inicial
    = Some (showinfo (py "Éxito")
              (py "Reserva realizada exitosamente:" ++ nl
               ++ py "Reserva: Juan Perez - V001 (activa)"),
            self', w')
    /\ al_dia self' w'
    /\ capacidad_disponible 0 w' = Some 149%Z.
Proof.
  intros self.
  destruct (hacer_reserva_seleccion ahora self mundo_inicial
              (mkPasajero (py "Juan") (py "Perez") (py "12345678"))
              (mkVuelo (py "V001") (py "Buenos Aires") (py "Madrid")
                       (py "2024-03-15") 150 [])
              7%Z mundo_inicial_alcanzable)
    as (o & w' & E & H).
  - vm_compute. reflexivity.
  - vm_compute. reflexivity.
  - apply (proj1 (bool_decide_eq_false _)). vm_compute. reflexivity.
  - apply (proj1 (bool_decide_eq_false _)). vm_compute. reflexivity.
  - apply (proj1 (bool_decide_eq_false _)). vm_compute. reflexivity.
  - apply (proj1 (bool_decide_eq_false _)). vm_compute. reflexivity.
  - destruct o as [r|e]; [|clear H; vm_compute in E; discriminate E].
    destruct H as (self' & x & t & Eh & Hx & Ht & Hal & _).
    exists self', w'.
    assert (Ew : Some (Ok r, w')
                 = crear_reserva (py "V001") (py "12345678") ahora mundo_inicial)
      by (symmetry; exact E).
    vm_compute in Ew. injection Ew as -> ->.
    vm_compute in Hx. injection Hx as <-.
    vm_compute in Ht. injection Ht as <-.
    split; [exact Eh|]. split; [exact Hal|]. vm_compute. reflexivity.
Defined.

Lemma agregar_pasajero_ventana_testigo :
  let self := mkInterfaz (py "  ana ") (py "lopez") (py " 12345678 ")
                [] [] [] [] [] in
  exists d self' w',
    _agregar_pasajero self mundo_inicial = Some (d, self', w')
    /\ d = showerror (py "Error") (py "Ya existe un pasajero con ese documento")
    /\ self' = self /\ w' = mundo_inicial.
Proof.
  intros self.
  destruct (agregar_pasajero_ventana self mundo_inicial mundo_inicial_alcanzable)
    as (d & self' & w' & E & _ & _ & H).
  exists d, self', w'. split; [exact E|].
  assert (Ed : Some (d, self', w') = _agregar_pasajero self mundo_inicial)
    by (symmetry; exact E).
  destruct d as [t m|t m].
  - exfalso. vm_compute in Ed. discriminate Ed.
  - destruct H as [-> ->]. split; [|auto].
    vm_compute in Ed. injection Ed as -> ->. reflexivity.
Defined.





Lemma sesion_sin_bajas_testigo :
  exists self' w',
    sesion [ElegirPasajero 0; ElegirVuelo 0; PulsarReservar ahora;
            PulsarReservar ahora; ElegirPasajero 1; PulsarReservar ahora]
           ventana_inicial mundo_inicial = Some (self', w')
    /\ reservas_obj mundo_inicial `prefix_of` reservas_obj w'
    /\ exists c', capacidad_disponible 0 w' = Some c' /\ (c' <= 150)%Z.
Proof.
  destruct (sesion [ElegirPasajero 0; ElegirVuelo 0; PulsarReservar ahora;
                    PulsarReservar ahora; ElegirPasajero 1; PulsarReservar ahora]
                   ventana_inicial mundo_inicial) as [[self' w']|] eqn:E;
    [|vm_compute in E; discriminate E].
  exists self', w'. split; [reflexivity|].
  destruct (sesion_sin_bajas _ _ _ _ _ mundo_inicial_alcanzable E) as [Hp Hc].
  split; [exact Hp|]. apply Hc. vm_compute. reflexivity.
Defined.

Lemma flota_fija_testigo :
  exists w',
    correr [LVuelo (py "V001") (py "Lima") (py "Quito") (py "2024-05-01") 5;
            LCrearReserva (py "V001") (py "12345678") ahora; LCancelar 0]
           mundo_inicial = Some w'
    /\ length (vuelos_obj w') = 6
    /\ _vuelos (gestor w') = _vuelos (gestor mundo_inicial)
    /\ forall n, buscar_vuelo_por_numero n w' = buscar_vuelo_por_numero n mundo_inicial.
Proof.
  destruct (correr [LVuelo (py "V001") (py "Lima") (py "Quito") (py "2024-05-01") 5;
                    LCrearReserva (py "V001") (py "12345678") ahora; LCancelar 0]
                   mundo_inicial) as [w'|] eqn:E;
    [|vm_compute in E; discriminate E].
  exists w'. split; [reflexivity|].
  split.
  - assert (E' : Some w'
                 = correr [LVuelo (py "V001") (py "Lima") (py "Quito")
                             (py "2024-05-01") 5;
                           LCrearReserva (py "V001") (py "12345678") ahora;
                           LCancelar 0] mundo_inicial)
      by (symmetry; exact E).
    clear E. vm_compute in E'. injection E' as ->. reflexivity.
  - apply (flota_fija _ _ _ E).
    + vm_compute. reflexivity.
    + exact (bf_gestor_vuelos _
               (inv_bf _ (alcanzable_invariante _ mundo_inicial_alcanzable))).
Defined.

Lemma basico_plazas_testigo :
  exists v',
    Basico.vuelos
      (Basico.sesion [Basico.PonerPasajero (py "Juan"); Basico.PonerVuelo (py "V001");
                      Basico.PulsarReservar; Basico.PulsarReservar;
                      Basico.PulsarReservar] Basico.inicio) !! 0 = Some v'
    /\ (Basico.capacidad v' + Z.of_nat (length (Basico.reservas v')) = 2)%Z
    /\ (0 <= Basico.capacidad v')%Z.
Proof.
  destruct (basico_plazas
              [Basico.PonerPasajero (py "Juan"); Basico.PonerVuelo (py "V001");
               Basico.PulsarReservar; Basico.PulsarReservar; Basico.PulsarReservar]
              Basico.inicio 0
              (Basico.mkVuelo (py "V001") (py "Ciudad A") (py "Ciudad B")
                 (py "2024-03-01") 2 []) eq_refl)
    as (v' & Hv' & _ & Hs & _ & Hc & _).
  exists v'. split; [exact Hv'|]. split; [exact Hs|]. apply Hc. simpl. lia.
Defined.

Lemma basico_homonimos_testigo :
  let g := Basico.sesion [Basico.Escribir (py "Juan Lopez 999"); Basico.PulsarAgregar]
             Basico.inicio in
  Basico.nombre <$> Basico.pasajeros g !! 10 = Some (py "Juan")
  /\ exists x,
       Basico.reservas_modulo
         (Basico.sesion [Basico.PonerPasajero (py "Juan");
                         Basico.PonerVuelo (py "V002"); Basico.PulsarReservar] g)
         !! 0 = Some x
       /\ Basico.pasajero x <> 10.
Proof.
  intros g. split; [vm_compute; reflexivity|].
  destruct (Basico.reservas_modulo
              (Basico.sesion [Basico.PonerPasajero (py "Juan");
                              Basico.PonerVuelo (py "V002"); Basico.PulsarReservar] g)
              !! 0) as [x|] eqn:Hx; [|vm_compute in Hx; discriminate Hx].
  exists x. split; [reflexivity|].
  apply (basico_homonimos
           [Basico.PonerPasajero (py "Juan"); Basico.PonerVuelo (py "V002");
            Basico.PulsarReservar] g 0 10
           (Basico.mkPasajero (py "Juan") (py "Perez") (py "12345"))
           (Basico.mkPasajero (py "Juan") (py "Lopez") (py "999")) 0 x).
  - lia.
  - vm_compute. reflexivity.
  - vm_compute. reflexivity.
  - reflexivity.
  - vm_compute. lia.
  - exact Hx.
Defined.

End Casos.

